(** * newsAgg-server: the ingestion pipeline and its run guard

    A shallow embedding of [services/newsService.js] ([upsertArticles],
    [ingestNews]), [jobs/cronJob.js] ([startCronJob],
    [triggerManualIngestion]), [routes/news.js] ([buildQuery], the list
    route, [POST /ingest]), [middleware/errorHandler.js] and the schema of
    [models/Article.js], with the properties the specification states about
    them.

    Conventions of the embedding.
    - JavaScript strings are [string]s whose characters are read as code
      units below 256; the numbers inside a value are integers ([Z]), and the
      arithmetic of the list route is that of doubles ([Module JsNumber]).
    - A conversion to a string that throws is an error ([Js.ToString]), and
      so is everything built on it.
    - The upstream HTTP call ([axios.get]) and the document store
      ([Article.bulkWrite]) are outside the repository: the pipeline is
      written over an abstract world with two operations, and every effect
      the code performs (fetch, bulk write, timer, log line) is emitted as an
      [Event], in program order.
    - [async] functions are run to completion: a rejected promise is the
      outcome [Throw], a fulfilled one [Ok].  The interleaving of several
      triggers is modelled separately, in [Module Guard]. *)

From Stdlib Require Import ZArith String Ascii List Lia Bool.
From stdpp Require Import gmap strings list pretty.
From Equations Require Import Equations.

Local Open Scope string_scope.
Local Open Scope list_scope.
Set Warnings "-register-all".

(** ** Strings: [trim], [split], [replace], and [Array.prototype.join] *)

Module JsString.

(** [WhiteSpace] and [LineTerminator] code units below 256: TAB, LF, VT, FF,
    CR, SP and NBSP. *)
Definition isWhiteSpace (c : ascii) : bool :=
  let n := nat_of_ascii c in
  (Nat.leb 9 n && Nat.leb n 13) || Nat.eqb n 32 || Nat.eqb n 160.

Fixpoint trimStart (s : string) : string :=
  match s with
  | EmptyString => EmptyString
  | String c s' => if isWhiteSpace c then trimStart s' else s
  end.

Fixpoint trimEnd (s : string) : string :=
  match s with
  | EmptyString => EmptyString
  | String c s' =>
      match trimEnd s' with
      | EmptyString => if isWhiteSpace c then EmptyString else String c EmptyString
      | t => String c t
      end
  end.

(** [s.trim()] *)
Definition trim (s : string) : string := trimEnd (trimStart s).

(** [s.split(sep)] for a one-character separator: never the empty array. *)
Fixpoint split (sep : ascii) (s : string) : list string :=
  match s with
  | EmptyString => [EmptyString]
  | String c s' =>
      if Ascii.eqb c sep then EmptyString :: split sep s'
      else match split sep s' with
           | [] => [String c EmptyString]
           | h :: t => String c h :: t
           end
  end.

(** [s.replace(a, b)] with one-character strings: the first occurrence only. *)
Fixpoint replace (a b : ascii) (s : string) : string :=
  match s with
  | EmptyString => EmptyString
  | String c s' => if Ascii.eqb c a then String b s' else String c (replace a b s')
  end.

(** [parts.join(sep)] *)
Fixpoint join (sep : string) (parts : list string) : string :=
  match parts with
  | [] => EmptyString
  | [p] => p
  | p :: rest => p +:+ sep +:+ join sep rest
  end.

(** Truthiness of a string: [Boolean(s)]. *)
Definition nonEmpty (s : string) : bool :=
  match s with EmptyString => false | _ => true end.

End JsString.

(** ** Category batching ([ingestNews], first part) *)

Module Batching.

Definition CATEGORY_BATCH_SIZE : nat := 5.

(** [process.env.NAME || fallback]: an unset or empty variable gives the
    fallback. *)
Definition envOr (v : option string) (fallback : string) : string :=
  match v with
  | Some s => if JsString.nonEmpty s then s else fallback
  | None => fallback
  end.

(** [(process.env.NEWS_FETCH_CATEGORIES || 'technology,business,science')
      .split(',').map((c) => c.trim()).filter(Boolean)] *)
Definition allCategories (NEWS_FETCH_CATEGORIES : option string) : list string :=
  List.filter JsString.nonEmpty
    (List.map JsString.trim
       (JsString.split ","%char
          (envOr NEWS_FETCH_CATEGORIES "technology,business,science"))).

(** [arr.slice(a, b)] for [0 <= a <= b]. *)
Definition slice {A} (l : list A) (a b : nat) : list A := take (b - a) (drop a l).

(** The loop
    [for (let i = 0; i < all.length; i += CATEGORY_BATCH_SIZE)
       categoryBatches.push(all.slice(i, i + CATEGORY_BATCH_SIZE))],
    from loop variable [i] and the batches pushed so far. *)
Equations? chunkFrom {A} (all : list A) (i : nat) (pushed : list (list A))
  : list (list A) by wf (length all - i) lt :=
  chunkFrom all i pushed with decide (i < length all) := {
    | left _ := chunkFrom all (i + CATEGORY_BATCH_SIZE)
                  (pushed ++ [slice all i (i + CATEGORY_BATCH_SIZE)]);
    | right _ := pushed }.
Proof. unfold CATEGORY_BATCH_SIZE. lia. Qed.

Definition categoryBatches {A} (all : list A) : list (list A) := chunkFrom all 0 [].

(** The ceiling of [n / d]. *)
Definition ceil_div (n d : nat) : nat := (n + (d - 1)) / d.

End Batching.


(** ** JavaScript values as they arrive from [JSON.parse] *)

Module Js.

(** [Undefined] is what reading a missing property gives.  An object is the
    list of its own properties, keys distinct; a value parsed from JSON or
    from a query string holds no function, so no own property is callable.
    [Native] is a function of the standard library, which reading an
    inherited property can give. *)
Inductive Value : Type :=
| Undefined
| Null
| Bool (b : bool)
| Num (n : Z)
| Str (s : string)
| Arr (items : list Value)
| Obj (fields : list (string * Value))
| Native (name : string) (arity : Z).

(** [Boolean(v)] *)
Definition truthy (v : Value) : bool :=
  match v with
  | Undefined | Null => false
  | Bool b => b
  | Num n => negb (Z.eqb n 0)
  | Str s => JsString.nonEmpty s
  | Arr _ | Obj _ | Native _ _ => true
  end.

(** [a || b] *)
Definition or (a b : Value) : Value := if truthy a then a else b.

Fixpoint assoc (fields : list (string * Value)) (k : string) : option Value :=
  match fields with
  | [] => None
  | (k', v) :: rest => if String.eqb k k' then Some v else assoc rest k
  end.

(** [v.k] for [v] neither [null] nor [undefined], for the names the program
    reads: the fields of an article and of an upstream payload, and
    [length].  None of them is a property of [Object.prototype],
    [Array.prototype], [Number.prototype] or [Boolean.prototype]; on a string
    [link] is the method [String.prototype.link]. *)
Definition prop (v : Value) (k : string) : Value :=
  match v with
  | Obj fields => default Undefined (assoc fields k)
  | Str s =>
      if String.eqb k "length" then Num (Z.of_nat (String.length s))
      else if String.eqb k "link" then Native "link" 1
      else Undefined
  | Arr items => if String.eqb k "length" then Num (Z.of_nat (length items)) else Undefined
  | Native name arity =>
      if String.eqb k "length" then Num arity
      else if String.eqb k "name" then Str name
      else Undefined
  | _ => Undefined
  end.

(** [v === 'text'] *)
Definition isStr (v : Value) (text : string) : bool :=
  match v with
  | Str s => String.eqb s text
  | _ => false
  end.

(** A thrown value: [err.message] and, for an HTTP error raised by the
    client library, [err.response.status] and [err.response.data]. *)
Record Error : Type := mkError {
  message : string;
  response : option (Value * Value)
}.

Definition TypeError (what : string) : Error :=
  {| message := what; response := None |}.

Definition cannotConvert : Error :=
  TypeError "Cannot convert object to primitive value".

(** [texts.join(',')] for the conversions of the elements of an array,
    made left to right: the first that throws ends it. *)
Fixpoint joinTexts (texts : list (Error + string)) : Error + string :=
  match texts with
  | [] => inr ""
  | [text] => text
  | text :: rest =>
      match text with
      | inl e => inl e
      | inr first =>
          match joinTexts rest with
          | inl e => inl e
          | inr others => inr (first +:+ "," +:+ others)
          end
      end
  end.

(** [String(v)], also the conversion of [v] in [v + 'text'] and in a
    computed property name.  An object converts through its [toString]: one
    of its own is never callable, and [valueOf] then gives no primitive, so
    the conversion throws; without one, [Object.prototype.toString] answers.
    An array joins the conversions of its elements, [null] and [undefined]
    giving the empty text. *)
Fixpoint ToString (v : Value) : Error + string :=
  match v with
  | Undefined => inr "undefined"
  | Null => inr "null"
  | Bool true => inr "true"
  | Bool false => inr "false"
  | Num n => inr (pretty n)
  | Str s => inr s
  | Arr items =>
      joinTexts (List.map (fun x : Value =>
                             match x with
                             | Undefined | Null => inr ""
                             | _ => ToString x
                             end) items)
  | Obj fields =>
      match assoc fields "toString" with
      | Some _ => inl cannotConvert
      | None => inr "[object Object]"
      end
  | Native name _ => inr ("function " +:+ name +:+ "() { [native code] }")
  end.

(** A value as [JSON.parse] gives it: neither [undefined] nor a function
    anywhere inside. *)
Fixpoint json (v : Value) : bool :=
  match v with
  | Undefined | Native _ _ => false
  | Null | Bool _ | Num _ | Str _ => true
  | Arr items =>
      (fix all (l : list Value) : bool :=
         match l with
         | [] => true
         | x :: rest => json x && all rest
         end) items
  | Obj fields =>
      (fix all (l : list (string * Value)) : bool :=
         match l with
         | [] => true
         | (_, x) :: rest => json x && all rest
         end) fields
  end.

(** The same value, property by property and in the same order. *)
Fixpoint same (a b : Value) : bool :=
  match a, b with
  | Undefined, Undefined => true
  | Null, Null => true
  | Bool x, Bool y => Bool.eqb x y
  | Num x, Num y => Z.eqb x y
  | Str x, Str y => String.eqb x y
  | Arr xs, Arr ys =>
      (fix all (l l' : list Value) : bool :=
         match l, l' with
         | [], [] => true
         | x :: rest, y :: rest' => same x y && all rest rest'
         | _, _ => false
         end) xs ys
  | Obj xs, Obj ys =>
      (fix all (l l' : list (string * Value)) : bool :=
         match l, l' with
         | [], [] => true
         | (k, x) :: rest, (k', y) :: rest' => String.eqb k k' && same x y && all rest rest'
         | _, _ => false
         end) xs ys
  | Native n a, Native n' a' => String.eqb n n' && Z.eqb a a'
  | _, _ => false
  end.

End Js.

(** ** [Date]: time values and the date-time string format *)

Module JsDate.

Local Open Scope Z_scope.

Definition msPerSecond : Z := 1000.
Definition msPerMinute : Z := 60000.
Definition msPerHour : Z := 3600000.
Definition msPerDay : Z := 86400000.

Definition DaysInYear (y : Z) : Z :=
  if negb (y mod 4 =? 0) then 365
  else if negb (y mod 100 =? 0) then 366
  else if negb (y mod 400 =? 0) then 365
  else 366.

Definition InLeapYear (y : Z) : Z := if DaysInYear y =? 366 then 1 else 0.

(** Day number of January 1st of year [y], counted from 1970-01-01. *)
Definition DayFromYear (y : Z) : Z :=
  365 * (y - 1970) + (y - 1969) / 4 - (y - 1901) / 100 + (y - 1601) / 400.

(** Day within the year on which month [m] (0 = January) begins: the lower
    bounds of the table that defines [MonthFromTime]. *)
Definition monthStart (m leap : Z) : Z :=
  match m with
  | 0 => 0
  | 1 => 31
  | 2 => 59 + leap
  | 3 => 90 + leap
  | 4 => 120 + leap
  | 5 => 151 + leap
  | 6 => 181 + leap
  | 7 => 212 + leap
  | 8 => 243 + leap
  | 9 => 273 + leap
  | 10 => 304 + leap
  | _ => 334 + leap
  end.

(** [MakeDay(year, month, date)] with a 0-based month. *)
Definition MakeDay (year month date : Z) : Z :=
  let ym := year + month / 12 in
  let mn := month mod 12 in
  DayFromYear ym + monthStart mn (InLeapYear ym) + date - 1.

Definition MakeTime (hour min sec ms : Z) : Z :=
  hour * msPerHour + min * msPerMinute + sec * msPerSecond + ms.

Definition MakeDate (day time : Z) : Z := day * msPerDay + time.

(** [TimeClip]: [None] is NaN. *)
Definition TimeClip (t : Z) : option Z :=
  if Z.abs t <=? 8640000000000000 then Some t else None.

Definition digitVal (c : ascii) : option Z :=
  let n := nat_of_ascii c in
  if Nat.leb 48 n && Nat.leb n 57 then Some (Z.of_nat (n - 48)) else None.

(** Exactly [n] decimal digits, most significant first. *)
Fixpoint digits (n : nat) (acc : Z) (s : string) : option (Z * string) :=
  match n, s with
  | O, _ => Some (acc, s)
  | S n', String c s' =>
      match digitVal c with
      | Some d => digits n' (10 * acc + d) s'
      | None => None
      end
  | S _, EmptyString => None
  end.

Definition lit (c : ascii) (s : string) : option string :=
  match s with
  | String c' s' => if Ascii.eqb c c' then Some s' else None
  | EmptyString => None
  end.

Record Fields : Type := mkFields {
  year : Z; month : Z; day : Z; hour : Z; minute : Z; second : Z; millis : Z
}.

(** [YYYY], or an expanded year: a sign and six digits, [-000000] excluded. *)
Definition parseYear (s : string) : option (Z * string) :=
  match s with
  | String "+" s' => digits 6 0 s'
  | String "-" s' =>
      match digits 6 0 s' with
      | Some (y, rest) => if y =? 0 then None else Some (- y, rest)
      | None => None
      end
  | _ => digits 4 0 s
  end.

(** The optional [-MM] and [-DD]; an absent part is 1. *)
Definition parseMonthDay (s : string) : option (Z * Z * string) :=
  match lit "-" s with
  | None => Some (1, 1, s)
  | Some s1 =>
      match digits 2 0 s1 with
      | None => None
      | Some (mo, s2) =>
          match lit "-" s2 with
          | None => Some (mo, 1, s2)
          | Some s3 =>
              match digits 2 0 s3 with
              | None => None
              | Some (d, s4) => Some (mo, d, s4)
              end
          end
      end
  end.

(** [HH:mm], [HH:mm:ss] or [HH:mm:ss.sss]. *)
Definition parseTime (s : string) : option (Z * Z * Z * Z * string) :=
  match digits 2 0 s with
  | None => None
  | Some (h, s1) =>
      match lit ":" s1 with
      | None => None
      | Some s2 =>
          match digits 2 0 s2 with
          | None => None
          | Some (mi, s3) =>
              match lit ":" s3 with
              | None => Some (h, mi, 0, 0, s3)
              | Some s4 =>
                  match digits 2 0 s4 with
                  | None => None
                  | Some (sec, s5) =>
                      match lit "." s5 with
                      | None => Some (h, mi, sec, 0, s5)
                      | Some s6 =>
                          match digits 3 0 s6 with
                          | None => None
                          | Some (ms, s7) => Some (h, mi, sec, ms, s7)
                          end
                      end
                  end
              end
          end
      end
  end.

(** Length of month [m] (0 = January), from the same table. *)
Definition monthLength (m leap : Z) : Z :=
  (if m =? 11 then 365 + leap else monthStart (m + 1) leap) - monthStart m leap.

(** Range checks.  Hour 24 is midnight at the end of the day.  A day of
    the month past the end of its month (February 30th) is accepted by some
    engines and refused by others: it is not decided here. *)
Definition inRange (f : Fields) : bool :=
  (1 <=? month f) && (month f <=? 12)
  && (1 <=? day f) && (day f <=? monthLength (month f - 1) (InLeapYear (year f)))
  && (((hour f <=? 23) && (minute f <=? 59) && (second f <=? 59))
      || ((hour f =? 24) && (minute f =? 0) && (second f =? 0) && (millis f =? 0))).

(** The date-time forms of the standard format that end in the UTC
    designator: [<date>T<time>Z]. *)
Definition parseUtcDateTime (s : string) : option Fields :=
  match parseYear s with
  | None => None
  | Some (y, s1) =>
      match parseMonthDay s1 with
      | None => None
      | Some (mo, d, s2) =>
          match lit "T" s2 with
          | None => None
          | Some s3 =>
              match parseTime s3 with
              | None => None
              | Some (h, mi, sec, ms, s4) =>
                  match s4 with
                  | "Z" =>
                      let f := mkFields y mo d h mi sec ms in
                      if inRange f then Some f else None
                  | _ => None
                  end
              end
          end
      end
  end.

Definition timeValue (f : Fields) : option Z :=
  TimeClip (MakeDate (MakeDay (year f) (month f - 1) (day f))
                     (MakeTime (hour f) (minute f) (second f) (millis f))).

(** What the engine does with a string that is not one of the forms above
    with fields in range: the remaining standard forms (local time, numeric
    offsets) and its own fallback heuristics.  Nothing is assumed about it. *)
Class Host : Type := { host_parse : string -> option Z }.

(** [Date.parse(s)]: the standard format is tried first. *)
Definition parse `{Host} (s : string) : option Z :=
  match parseUtcDateTime s with
  | Some f => timeValue f
  | None => host_parse s
  end.

End JsDate.


(** ** [services/newsService.js] *)

Module Service.

Import Js.

(** A value written to the store: a JSON value or a [Date]. *)
Inductive Field : Type :=
| FVal (v : Value)
| FDate (tv : Z).

(** One element of the array given to [Article.bulkWrite]:
    [{ updateOne: { filter: { article_id }, update: { $set }, upsert } }]. *)
Record UpdateOne : Type := mkUpdateOne {
  filter_article_id : Value;
  set : list (string * Field);
  upsert : bool
}.

Record BulkWriteResult : Type := mkBulkWriteResult {
  upsertedCount : Z;
  modifiedCount : Z
}.

(** The query of one upstream request; [page] is present only when the
    token is truthy. *)
Record Params : Type := mkParams {
  apikey : string;
  language : string;
  category : string;
  page : option Value
}.

(** [process.env], the part the service reads. *)
Record Env : Type := mkEnv {
  NEWSDATA_API_KEY : option string;
  NEWS_FETCH_CATEGORIES : option string;
  NEWS_FETCH_LANGUAGE : option string
}.

(** The two collaborators outside the repository: [axios.get(.../news)]
    returning [response.data] or rejecting, and [Article.bulkWrite]. *)
Class World : Type := {
  world : Type;
  axios_get : Params -> world -> world * (Error + Value);
  Article_bulkWrite : list UpdateOne -> world -> world * (Error + BulkWriteResult)
}.

Inductive Level : Type := error | warn | info | debug.

Inductive LogLine : Type :=
| KeyNotSet
| Starting (categories batches : nat)
| FetchingBatch (categoryParam : string)
| ApiError (categoryParam : string) (data : Value)
| Fetched (articles : Value) (pageNumber : Z)
| Complete (pages upserted modified : Z)
| HttpError (status data : Value)
| IngestionError (msg : string)
| CronSkipped
| CronTriggered
| CronFailed (msg : string).

Inductive Event : Type :=
| EvFetch (params : Params) (result : Error + Value)
| EvBulkWrite (ops : list UpdateOne) (result : Error + BulkWriteResult)
| EvDelay (ms : Z)
| EvLog (level : Level) (line : LogLine).

(** How an [async] call ends.  [Unfinished] is the model's own: the
    iteration budget of a loop ran out. *)
Inductive Outcome (A : Type) : Type :=
| Ok (a : A)
| Throw (e : Error)
| Unfinished.
Arguments Ok {A} a.
Arguments Throw {A} e.
Arguments Unfinished {A}.

Record Counts : Type := mkCounts { upserted : Z; modified : Z }.
Record Totals : Type := mkTotals { pages : Z; totalUpserted : Z; totalModified : Z }.

Definition MAX_PAGES : Z := 3.

(** [articles.length] *)
Definition length_of (v : Value) : Value :=
  match v with
  | Arr items => Num (Z.of_nat (length items))
  | Str s => Num (Z.of_nat (String.length s))
  | Obj _ => prop v "length"
  | Native _ arity => Num arity
  | _ => Undefined
  end.

(** [v == null]: the values whose properties cannot be read. *)
Definition nullish (v : Value) : bool :=
  match v with
  | Undefined | Null => true
  | _ => false
  end.

(** [{ language, category: categoryParam, ...(page ? { page } : {}) }],
    with the [apikey] that [fetchNewsPage] adds. *)
Definition paramsOf (key lang categoryParam : string) (page : Value) : Params :=
  {| apikey := key; language := lang; category := categoryParam;
     page := if truthy page then Some page else None |}.

(** [v === 0] *)
Definition isZero (v : Value) : bool :=
  match v with
  | Num n => Z.eqb n 0
  | _ => false
  end.

Section WithHost.
Context `{JsDate.Host}.

(** The date part of the [map] callback:
    [let parsedDate = null;
     if (article.pubDate) {
       const iso = String(article.pubDate).replace(' ', 'T') + 'Z';
       const d = new Date(iso);
       parsedDate = isNaN(d.getTime()) ? null : d;
     }] *)
Definition isoOf (pubDate : Value) : Error + string :=
  match ToString pubDate with
  | inl e => inl e
  | inr text => inr (JsString.replace " "%char "T"%char text +:+ "Z")
  end.

Definition parsedDate (pubDate : Value) : Error + Field :=
  if truthy pubDate then
    match isoOf pubDate with
    | inl e => inl e
    | inr iso =>
        match JsDate.parse iso with
        | Some tv => inr (FDate tv)
        | None => inr (FVal Null)
        end
    end
  else inr (FVal Null).

(** The [$set] document, in the order of the object literal, with the
    [parsedDate] computed before it. *)
Definition setOf (article : Value) (parsedDate : Field) : list (string * Field) :=
  [ ("title", FVal (prop article "title"));
    ("link", FVal (prop article "link"));
    ("keywords", FVal (or (prop article "keywords") (Arr [])));
    ("creator", FVal (or (prop article "creator") (Arr [])));
    ("video_url", FVal (or (prop article "video_url") Null));
    ("description", FVal (or (prop article "description") Null));
    ("content", FVal (or (prop article "content") Null));
    ("pubDate", parsedDate);
    ("pubDateTZ", FVal (or (prop article "pubDateTZ") Null));
    ("image_url", FVal (or (prop article "image_url") Null));
    ("source_id", FVal (or (prop article "source_id") Null));
    ("source_name", FVal (or (prop article "source_name") Null));
    ("source_url", FVal (or (prop article "source_url") Null));
    ("source_icon", FVal (or (prop article "source_icon") Null));
    ("source_priority", FVal (or (prop article "source_priority") Null));
    ("country", FVal (or (prop article "country") (Arr [])));
    ("category", FVal (or (prop article "category") (Arr [])));
    ("language", FVal (or (prop article "language") Null));
    ("ai_tag", FVal (or (prop article "ai_tag") (Arr [])));
    ("sentiment", FVal (or (prop article "sentiment") Null));
    ("sentiment_stats", FVal (or (prop article "sentiment_stats") Null));
    ("ai_region", FVal (or (prop article "ai_region") (Arr [])));
    ("ai_org", FVal (or (prop article "ai_org") (Arr [])));
    ("duplicate", FVal (or (prop article "duplicate") (Bool false)));
    ("datatype", FVal (or (prop article "datatype") Null)) ].

(** The [map] callback of [upsertArticles]; reading a property of [null]
    or [undefined] throws, and so does [String(article.pubDate)] for a date
    field that has no conversion. *)
Definition updateOneOf (article : Value) : Error + UpdateOne :=
  match article with
  | Undefined | Null => inl (TypeError "Cannot read properties of null or undefined")
  | _ =>
      match parsedDate (prop article "pubDate") with
      | inl e => inl e
      | inr date =>
          inr {| filter_article_id := prop article "article_id";
                 set := setOf article date;
                 upsert := true |}
      end
  end.

(** [articles.map(callback)]: left to right, the first throw ends it. *)
Fixpoint mapOps (items : list Value) : Error + list UpdateOne :=
  match items with
  | [] => inr []
  | article :: rest =>
      match updateOneOf article with
      | inl e => inl e
      | inr op =>
          match mapOps rest with
          | inl e => inl e
          | inr ops => inr (op :: ops)
          end
      end
  end.

Context `{World}.

(** Effectful code: the world threaded through, the events emitted so far,
    and the outcome. *)
Definition M (A : Type) : Type := world -> world * list Event * Outcome A.

Definition ret {A} (a : A) : M A := fun w => (w, [], Ok a).

Definition throw {A} (e : Error) : M A := fun w => (w, [], Throw e).

Definition unfinished {A} : M A := fun w => (w, [], Unfinished).

Definition bind {A B} (m : M A) (k : A -> M B) : M B :=
  fun w =>
    match m w with
    | (w1, evs1, Ok a) => let '(w2, evs2, o) := k a w1 in (w2, evs1 ++ evs2, o)
    | (w1, evs1, Throw e) => (w1, evs1, Throw e)
    | (w1, evs1, Unfinished) => (w1, evs1, Unfinished)
    end.

(** [try { body } catch (error) { handler(error) }] *)
Definition tryCatch {A} (body : M A) (handler : Error -> M A) : M A :=
  fun w =>
    match body w with
    | (w1, evs1, Throw e) => let '(w2, evs2, o) := handler e w1 in (w2, evs1 ++ evs2, o)
    | r => r
    end.

Definition emit (ev : Event) : M unit := fun w => (w, [ev], Ok tt).

Definition log (level : Level) (line : LogLine) : M unit := emit (EvLog level line).

(** [await new Promise((r) => setTimeout(r, ms))] *)
Definition delay (ms : Z) : M unit := emit (EvDelay ms).

Definition when (b : bool) (m : M unit) : M unit := if b then m else ret tt.

Local Notation "x <- m ;; k" := (bind m (fun x => k))
  (at level 100, m at level 99, right associativity).
Local Notation "m ;;; k" := (bind m (fun _ => k))
  (at level 100, right associativity).

(** [fetchNewsPage(params)] *)
Definition fetchNewsPage (params : Params) : M Value :=
  fun w =>
    let '(w1, r) := axios_get params w in
    (w1, [EvFetch params r], match r with inl e => Throw e | inr data => Ok data end).

Definition bulkWrite (ops : list UpdateOne) : M BulkWriteResult :=
  fun w =>
    let '(w1, r) := Article_bulkWrite ops w in
    (w1, [EvBulkWrite ops r], match r with inl e => Throw e | inr res => Ok res end).

(** [upsertArticles(articles)] *)
Definition upsertArticles (articles : Value) : M Counts :=
  if negb (truthy articles) || isZero (length_of articles) then
    ret {| upserted := 0; modified := 0 |}
  else
    match articles with
    | Arr items =>
        match mapOps items with
        | inl e => throw e
        | inr ops =>
            result <- bulkWrite ops ;;
            ret {| upserted := upsertedCount result; modified := modifiedCount result |}
        end
    | _ => throw (TypeError "articles.map is not a function")
    end.

(** [data.status], which throws when [data] is [null] or [undefined]. *)
Definition statusOf (data : Value) : M Value :=
  match data with
  | Undefined | Null => throw (TypeError "Cannot read properties of null or undefined")
  | _ => ret (prop data "status")
  end.

(** The [do { ... } while (page && pageCount < MAX_PAGES)] loop of one batch,
    entered at the top of its body with the current [page], [pageCount] and
    run totals.  [budget] bounds the number of iterations of the model. *)
Fixpoint pageLoop (budget : nat) (key lang categoryParam : string)
    (page : Value) (pageCount : Z) (tot : Totals) : M Totals :=
  match budget with
  | O => unfinished
  | S budget' =>
      data <- fetchNewsPage (paramsOf key lang categoryParam page) ;;
      status <- statusOf data ;;
      if negb (isStr status "success") then
        log error (ApiError categoryParam data) ;;;
        ret tot
      else
        let articles := or (prop data "results") (Arr []) in
        log debug (Fetched (length_of articles) (pageCount + 1)) ;;;
        counts <- upsertArticles articles ;;
        let tot' := {| pages := pages tot + 1;
                       totalUpserted := totalUpserted tot + upserted counts;
                       totalModified := totalModified tot + modified counts |} in
        let page' := or (prop data "nextPage") Null in
        let pageCount' := (pageCount + 1)%Z in
        let again := truthy page' && (pageCount' <? MAX_PAGES)%Z in
        when again (delay 1000) ;;;
        if again then pageLoop budget' key lang categoryParam page' pageCount' tot'
        else ret tot'
  end.

(** [for (const batch of categoryBatches) { ... }], from the batch at
    position [index] on; [count] is [categoryBatches.length].  A batch is
    its own array, so [categoryBatches.indexOf(batch)] is its position. *)
Fixpoint batchLoop (key lang : string) (batches : list (list string))
    (index count : nat) (tot : Totals) : M Totals :=
  match batches with
  | [] => ret tot
  | batch :: rest =>
      let categoryParam := JsString.join "," batch in
      log debug (FetchingBatch categoryParam) ;;;
      tot' <- pageLoop (Z.to_nat MAX_PAGES) key lang categoryParam Null 0 tot ;;
      when (Nat.ltb index (count - 1)) (delay 1500) ;;;
      batchLoop key lang rest (S index) count tot'
  end.

Definition zeroTotals : Totals := {| pages := 0; totalUpserted := 0; totalModified := 0 |}.

(** The [try] block of [ingestNews]. *)
Definition ingestBody (key lang : string) (categoryBatches : list (list string))
  : M (option Totals) :=
  tot <- batchLoop key lang categoryBatches 0 (length categoryBatches) zeroTotals ;;
  log info (Complete (pages tot) (totalUpserted tot) (totalModified tot)) ;;;
  ret (Some tot).

(** The [catch] block of [ingestNews]. *)
Definition ingestCatch (e : Error) : M (option Totals) :=
  match response e with
  | Some (status, data) => log error (HttpError status data)
  | None => log error (IngestionError (message e))
  end ;;;
  throw e.

(** [ingestNews()]; the result [None] is [undefined], the bare [return]. *)
Definition ingestNews (env : Env) : M (option Totals) :=
  match NEWSDATA_API_KEY env with
  | None | Some EmptyString =>
      log error KeyNotSet ;;;
      ret None
  | Some key =>
      let allCategories := Batching.allCategories (NEWS_FETCH_CATEGORIES env) in
      let lang := Batching.envOr (NEWS_FETCH_LANGUAGE env) "en" in
      let categoryBatches := Batching.categoryBatches allCategories in
      log info (Starting (length allCategories) (length categoryBatches)) ;;;
      tryCatch (ingestBody key lang categoryBatches) ingestCatch
  end.

End WithHost.

End Service.

(** ** [models/Article.js] *)

Module Schema.

(** The type a path is declared with; [trim] is the option [trim: true]. *)
Inductive PathType : Type :=
| TString (trim : bool)
| TStrings
| TDate
| TNumber
| TBoolean
| TMixed.

(** The paths of [articleSchema], in the order of the source. *)
Definition paths : list (string * PathType) :=
  [ ("article_id", TString false);
    ("title", TString true);
    ("link", TString true);
    ("keywords", TStrings);
    ("creator", TStrings);
    ("video_url", TString false);
    ("description", TString true);
    ("content", TString true);
    ("pubDate", TDate);
    ("pubDateTZ", TString false);
    ("image_url", TString false);
    ("source_id", TString false);
    ("source_name", TString false);
    ("source_url", TString false);
    ("source_icon", TString false);
    ("source_priority", TNumber);
    ("country", TStrings);
    ("category", TStrings);
    ("language", TString false);
    ("ai_tag", TStrings);
    ("sentiment", TString false);
    ("sentiment_stats", TMixed);
    ("ai_region", TStrings);
    ("ai_org", TStrings);
    ("duplicate", TBoolean);
    ("datatype", TString false) ].

Fixpoint typeOf' (l : list (string * PathType)) (k : string) : option PathType :=
  match l with
  | [] => None
  | (k', t) :: rest => if String.eqb k k' then Some t else typeOf' rest k
  end.

Definition typeOf (k : string) : option PathType := typeOf' paths k.

End Schema.

(** ** The document store, as far as [upsertArticles] relies on it

    [updateOne] with [$set] and [upsert: true] on the collection of
    [models/Article.js], through the object-document mapper.  The schema has
    [timestamps: true]: every update sets [updatedAt] and an insert also
    [createdAt].  A string written to a path with [trim: true] loses the
    white space around it.  An [undefined] inside [$set] is either dropped
    before the update is sent or stored as [null], depending on the version
    of the mapper; both are kept.

    The model covers an operation whose filter is a string and whose values
    have the types the schema declares.  What the mapper makes of another
    value (a cast or an error) is not modelled: such an operation has no
    result here.  The [_id] the server gives a new document is left out. *)

Module Store.

Import Js Service Schema.

Inductive UndefinedPolicy : Type := StripUndefined | UndefinedAsNull.

Fixpoint allStrings (items : list Value) : bool :=
  match items with
  | [] => true
  | Str _ :: rest => allStrings rest
  | _ :: rest => false
  end.

(** The value stored at a path of type [t] for a value of that type;
    [None] for a value of another type. *)
Definition cast (t : PathType) (v : Field) : option Field :=
  match t, v with
  | TString trim, FVal (Str s) =>
      Some (FVal (Str (if trim then JsString.trim s else s)))
  | TString _, FVal Null => Some (FVal Null)
  | TStrings, FVal (Arr items) => if allStrings items then Some v else None
  | TDate, FDate _ => Some v
  | TDate, FVal Null => Some v
  | TNumber, FVal (Num _) => Some v
  | TNumber, FVal Null => Some v
  | TBoolean, FVal (Bool _) => Some v
  | TBoolean, FVal Null => Some v
  | TMixed, FVal x => if json x then Some v else None
  | _, _ => None
  end.

(** One assignment of [$set]: the field is replaced by the new value. *)
Definition assign (policy : UndefinedPolicy) (doc : gmap string Field)
    (kv : string * Field) : option (gmap string Field) :=
  match kv with
  | (k, FVal Undefined) =>
      match policy with
      | StripUndefined => Some doc
      | UndefinedAsNull => Some (<[k := FVal Null]> doc)
      end
  | (k, v) =>
      match typeOf k with
      | Some t =>
          match cast t v with
          | Some stored => Some (<[k := stored]> doc)
          | None => None
          end
      | None => None
      end
  end.

Fixpoint applySet (policy : UndefinedPolicy) (assignments : list (string * Field))
    (doc : gmap string Field) : option (gmap string Field) :=
  match assignments with
  | [] => Some doc
  | kv :: rest =>
      match assign policy doc kv with
      | Some doc1 => applySet policy rest doc1
      | None => None
      end
  end.

Definition sameField (a b : Field) : bool :=
  match a, b with
  | FVal x, FVal y => same x y
  | FDate x, FDate y => Z.eqb x y
  | _, _ => false
  end.

Fixpoint sameFields (l l' : list (string * Field)) : bool :=
  match l, l' with
  | [], [] => true
  | (k, x) :: rest, (k', y) :: rest' => String.eqb k k' && sameField x y && sameFields rest rest'
  | _, _ => false
  end.

(** The same document: the same fields with the same values. *)
Definition sameDoc (a b : gmap string Field) : bool :=
  sameFields (map_to_list a) (map_to_list b).

(** [updateOne] at the time [now] of the bulk write.  A matched document
    counts as modified when the update changed it, [updatedAt] included. *)
Definition updateOne (policy : UndefinedPolicy) (now : Z) (op : UpdateOne)
    (c : gmap string (gmap string Field))
  : option (gmap string (gmap string Field) * BulkWriteResult) :=
  match filter_article_id op with
  | Str id =>
      match c !! id with
      | Some doc =>
          match applySet policy (set op) doc with
          | Some written =>
              let doc' := <["updatedAt" := FDate now]> written in
              Some (<[id := doc']> c,
                    {| upsertedCount := 0;
                       modifiedCount := if sameDoc doc doc' then 0 else 1 |})
          | None => None
          end
      | None =>
          if upsert op then
            match applySet policy (set op) {[ "article_id" := FVal (Str id) ]} with
            | Some written =>
                Some (<[id := <["createdAt" := FDate now]>
                                (<["updatedAt" := FDate now]> written)]> c,
                      {| upsertedCount := 1; modifiedCount := 0 |})
            | None => None
            end
          else Some (c, {| upsertedCount := 0; modifiedCount := 0 |})
      end
  | _ => None
  end.

(** The operations of one bulk write, in the order given: what a server
    does, although [ordered: false] allows it another order. *)
Fixpoint applyAll (policy : UndefinedPolicy) (now : Z) (ops : list UpdateOne)
    (c : gmap string (gmap string Field))
  : option (gmap string (gmap string Field) * BulkWriteResult) :=
  match ops with
  | [] => Some (c, {| upsertedCount := 0; modifiedCount := 0 |})
  | op :: rest =>
      match updateOne policy now op c with
      | Some (c1, r1) =>
          match applyAll policy now rest c1 with
          | Some (c2, r2) =>
              Some (c2, {| upsertedCount := upsertedCount r1 + upsertedCount r2;
                           modifiedCount := modifiedCount r1 + modifiedCount r2 |})
          | None => None
          end
      | None => None
      end
  end.

End Store.

(** ** [jobs/cronJob.js] *)

Module Cron.

Import Js Service.

Definition alreadyInProgress : Error :=
  {| message := "Ingestion already in progress"; response := None |}.

Section WithWorld.
Context `{JsDate.Host} `{World}.

(** The callback given to [cron.schedule], run to completion from the
    current value of the module variable [isRunning]; returns its new value. *)
Definition cronTick (env : Env) (isRunning : bool) (w : world)
  : bool * (world * list Event) :=
  if isRunning then (isRunning, (w, [EvLog warn CronSkipped]))
  else
    let '(w1, evs, o) := ingestNews env w in
    match o with
    | Ok _ => (false, (w1, EvLog info CronTriggered :: evs))
    | Throw e =>
        (false, (w1, EvLog info CronTriggered :: evs
                       ++ [EvLog error (CronFailed (message e))]))
    | Unfinished => (true, (w1, EvLog info CronTriggered :: evs))
    end.

(** [triggerManualIngestion()] *)
Definition triggerManualIngestion (env : Env) (isRunning : bool) (w : world)
  : bool * (world * list Event * Outcome (option Totals)) :=
  if isRunning then (isRunning, (w, [], Throw alreadyInProgress))
  else
    let '(w1, evs, o) := ingestNews env w in
    (match o with Unfinished => true | _ => false end, (w1, evs, o)).

End WithWorld.

End Cron.

(** ** The two halves of an entry point

    The cron callback and [triggerManualIngestion] begin with the same
    lines, which run without interruption, and end with the same [finally]. *)

Module Entry.

(** [if (isRunning) { ... return or throw }  isRunning = true;]: the new
    value of [isRunning], and whether the run goes on. *)
Definition acquire (isRunning : bool) : bool * bool :=
  if isRunning then (isRunning, false) else (true, true).

(** [finally { isRunning = false; }] *)
Definition release (isRunning : bool) : bool := false.

End Entry.

(** ** The run guard under interleaving

    A run is long: other triggers arrive while it awaits.  Between two
    awaits the code is not interrupted, so each trigger is one atomic step on
    the module variable [isRunning]; [running] lists the runs in flight. *)

Module Guard.

Inductive Caller : Type := Scheduled | Manual | Startup.

#[export] Instance Caller_eq_dec : EqDecision Caller.
Proof. solve_decision. Defined.

Record State : Type := mkState { isRunning : bool; running : list Caller }.

(** The two entry points that ask for the guard. *)
Inductive Trigger : Type := Tick | ManualRequest.

Inductive Input : Type :=
| Ask (t : Trigger)
| RunEnds (c : Caller) (failed : bool).

Inductive Output : Type :=
| Started
| Skipped
| Thrown (e : Js.Error)
| Released
| Ignored.

(** [startCronJob()]: with [FETCH_ON_START] (or in production) the first
    run starts at once, [isRunning = true] being set without a test. *)
Definition boot (fetchOnStart : bool) : State :=
  if fetchOnStart then {| isRunning := true; running := [Startup] |}
  else {| isRunning := false; running := [] |}.

Definition remove (c : Caller) (l : list Caller) : list Caller :=
  List.filter (fun c' => negb (bool_decide (c' = c))) l.

(** One step: the test-and-set at the head of the cron callback and of
    [triggerManualIngestion], and the [finally] that ends a run, whether it
    [failed] or not.  The end of a run that is not in flight cannot happen
    and is ignored. *)
Definition step (s : State) (i : Input) : State * Output :=
  match i with
  | Ask Tick =>
      if isRunning s then (s, Skipped)
      else ({| isRunning := true; running := Scheduled :: running s |}, Started)
  | Ask ManualRequest =>
      if isRunning s then (s, Thrown Cron.alreadyInProgress)
      else ({| isRunning := true; running := Manual :: running s |}, Started)
  | RunEnds c failed =>
      if bool_decide (c ∈ running s)
      then ({| isRunning := false; running := remove c (running s) |}, Released)
      else (s, Ignored)
  end.

Definition run (s : State) (inputs : list Input) : State :=
  foldl (fun s i => fst (step s i)) s inputs.

Definition callerOf (t : Trigger) : Caller :=
  match t with
  | Tick => Scheduled
  | ManualRequest => Manual
  end.

(** The "already running" answer: the tick logs and skips, the manual
    trigger throws [Error('Ingestion already in progress')]. *)
Definition rejection (t : Trigger) : Output :=
  match t with
  | Tick => Skipped
  | ManualRequest => Thrown Cron.alreadyInProgress
  end.

End Guard.

(** ** The upstream date format, as the specification words it

    A date field is valid when it reads [YYYY-MM-DD HH:mm:ss] with the fields
    of a real calendar date and a time of day; the instant it denotes in UTC
    is found by counting the days from 1970-01-01.  None of this is taken
    from the code: it is what [parsedDate] is compared with. *)

Module Civil.

Local Open Scope Z_scope.

Record DateTime : Type := mkDateTime {
  year : Z; month : Z; day : Z; hour : Z; minute : Z; second : Z
}.

Definition leap (y : Z) : bool :=
  (y mod 4 =? 0) && (negb (y mod 100 =? 0) || (y mod 400 =? 0)).

Definition daysInMonth (y m : Z) : Z :=
  match m with
  | 1 | 3 | 5 | 7 | 8 | 10 | 12 => 31
  | 4 | 6 | 9 | 11 => 30
  | 2 => if leap y then 29 else 28
  | _ => 0
  end.

Definition valid (t : DateTime) : bool :=
  (0 <=? year t) && (year t <=? 9999)
  && (1 <=? month t) && (month t <=? 12)
  && (1 <=? day t) && (day t <=? daysInMonth (year t) (month t))
  && (0 <=? hour t) && (hour t <=? 23)
  && (0 <=? minute t) && (minute t <=? 59)
  && (0 <=? second t) && (second t <=? 59).

Definition digit (n : Z) : ascii := ascii_of_nat (48 + Z.to_nat n).

Definition pad2 (n : Z) (rest : string) : string :=
  String (digit (n / 10)) (String (digit (n mod 10)) rest).

Definition pad4 (n : Z) (rest : string) : string :=
  String (digit (n / 1000)) (String (digit (n / 100 mod 10)) (pad2 (n mod 100) rest)).

(** The text [YYYY-MM-DD HH:mm:ss] of a date-time. *)
Definition format (t : DateTime) : string :=
  pad4 (year t) (String "-" (pad2 (month t) (String "-" (pad2 (day t)
    (String " " (pad2 (hour t) (String ":" (pad2 (minute t)
      (String ":" (pad2 (second t) EmptyString)))))))))).

Definition wellFormed (s : string) : Prop :=
  exists t, valid t = true /\ s = format t.

Definition yearLength (y : Z) : Z := if leap y then 366 else 365.

(** Days in the [n] years that start with year [from]. *)
Fixpoint daysOfYears (from : Z) (n : nat) : Z :=
  match n with
  | O => 0
  | S n' => yearLength from + daysOfYears (from + 1) n'
  end.

(** Days from 1970-01-01 to January 1st of year [y]. *)
Definition dayOfYearStart (y : Z) : Z :=
  if 1970 <=? y then daysOfYears 1970 (Z.to_nat (y - 1970))
  else - daysOfYears y (Z.to_nat (1970 - y)).

(** Days in the first [m] months of year [y]. *)
Fixpoint daysOfMonths (y : Z) (m : nat) : Z :=
  match m with
  | O => 0
  | S m' => daysOfMonths y m' + daysInMonth y (Z.of_nat m)
  end.

Definition epochDay (t : DateTime) : Z :=
  dayOfYearStart (year t) + daysOfMonths (year t) (Z.to_nat (month t - 1)) + (day t - 1).

(** Milliseconds from 1970-01-01T00:00:00Z to the date-time, read as UTC. *)
Definition instant (t : DateTime) : Z :=
  (((epochDay t * 24 + hour t) * 60 + minute t) * 60 + second t) * 1000.

End Civil.

(** ** Concrete collaborators for the scenarios *)

Module Scenario.

Import Js Service.

(** An engine that parses nothing beyond the modelled forms. *)
Definition strictHost : JsDate.Host := {| JsDate.host_parse := fun _ => None |}.

(** Upstream answers are read off a script, one per request; the store is
    the model of [Module Store], with a clock that every request and every
    bulk write moves on by a millisecond.  A bulk write outside the model of
    the store is answered with an error. *)
Record Scripted : Type := mkScripted {
  script : list (Error + Value);
  collection : gmap string (gmap string Field);
  clock : Z
}.

Definition networkError : Error :=
  {| message := "connect ECONNREFUSED"; response := None |}.

Definition outsideTheModel : Error :=
  {| message := "bulk write outside the model of the store"; response := None |}.

Definition scripted (policy : Store.UndefinedPolicy) : World :=
  {| world := Scripted;
     axios_get := fun _ w =>
       match script w with
       | [] => ({| script := []; collection := collection w; clock := (clock w + 1)%Z |},
                inl networkError)
       | r :: rest =>
           ({| script := rest; collection := collection w; clock := (clock w + 1)%Z |}, r)
       end;
     Article_bulkWrite := fun ops w =>
       match Store.applyAll policy (clock w) ops (collection w) with
       | Some (c, r) =>
           ({| script := script w; collection := c; clock := (clock w + 1)%Z |}, inr r)
       | None =>
           ({| script := script w; collection := collection w; clock := (clock w + 1)%Z |},
            inl outsideTheModel)
       end |}.

(** An upstream that answers every request with the same payload. *)
Definition constant (data : Value) : World :=
  {| world := unit;
     axios_get := fun _ w => (w, inr data);
     Article_bulkWrite := fun _ w =>
       (w, inr {| upsertedCount := 0; modifiedCount := 0 |}) |}.

Definition success (results nextPage : Value) : Value :=
  Obj [("status", Str "success"); ("results", results); ("nextPage", nextPage)].

Definition emptyPage : Value := success (Arr []) Null.

Definition errorPayload : Value :=
  Obj [("status", Str "error");
       ("results", Obj [("message", Str "Rate limit exceeded"); ("code", Str "RateLimitExceeded")])].

Definition story (id title : string) : Value :=
  Obj [("article_id", Str id); ("title", Str title);
       ("link", Str "https://example.org/story");
       ("keywords", Arr [Str "old"; Str "tags"]);
       ("pubDate", Str "2026-02-20 17:45:00")].

Definition sixCategories : Env :=
  {| NEWSDATA_API_KEY := Some "k";
     NEWS_FETCH_CATEGORIES := Some "technology,business,science,health,sports,entertainment";
     NEWS_FETCH_LANGUAGE := None |}.

Definition oneCategory : Env :=
  {| NEWSDATA_API_KEY := Some "k";
     NEWS_FETCH_CATEGORIES := Some "technology";
     NEWS_FETCH_LANGUAGE := None |}.

Definition noKey : Env :=
  {| NEWSDATA_API_KEY := None;
     NEWS_FETCH_CATEGORIES := None;
     NEWS_FETCH_LANGUAGE := None |}.

(** An empty store, at noon of 2026-02-21. *)
Definition start (responses : list (Error + Value)) : Scripted :=
  {| script := responses; collection := ∅; clock := 1771675200000 |}.







Definition badGateway : Error :=
  {| message := "Request failed with status code 502";
     response := Some (Num 502, Str "Bad Gateway") |}.

(** Two batches, each answered by an empty page. *)
Definition twoEmptyBatches :=
  @ingestNews strictHost (scripted Store.StripUndefined) sixCategories
    (start [inr emptyPage; inr emptyPage]).

(** One batch: a page with one new article and a token, then a payload
    with status ['error']. *)
Definition errorOnSecondPage :=
  @ingestNews strictHost (scripted Store.StripUndefined) oneCategory
    (start [inr (success (Arr [story "a1" "First"]) (Str "p2")); inr errorPayload]).

(** One batch: a page with one new article and a token, then the request
    for the second page fails. *)
Definition failureOnSecondPage :=
  @ingestNews strictHost (scripted Store.StripUndefined) oneCategory
    (start [inr (success (Arr [story "a1" "First"]) (Str "p2")); inl badGateway]).

End Scenario.


(** ** The known field set of an Article *)

Module Fields.

Import Js Service.

(** The keys of the [$set] document, in order. *)
Definition fieldNames : list string :=
  [ "title"; "link"; "keywords"; "creator"; "video_url"; "description"; "content";
    "pubDate"; "pubDateTZ"; "image_url"; "source_id"; "source_name"; "source_url";
    "source_icon"; "source_priority"; "country"; "category"; "language"; "ai_tag";
    "sentiment"; "sentiment_stats"; "ai_region"; "ai_org"; "duplicate"; "datatype" ].




(** The value a [$set] document gives to a key. *)
Fixpoint assigned (assignments : list (string * Field)) (k : string) : option Field :=
  match assignments with
  | [] => None
  | (k', v) :: rest => if String.eqb k k' then Some v else assigned rest k
  end.

End Fields.

(** ** Values of the types the schema declares *)

Module Typing.

Import Js Service Schema Store.

(** What the store keeps for the value [v] written at the path [k];
    [None] outside the model of the store. *)
Definition stored (k : string) (v : Field) : option Field :=
  match typeOf k with
  | Some t => cast t v
  | None => None
  end.


End Typing.

(** ** What a trace shows *)

Module Observe.

Import Js Service.

(** The answers to the upstream requests of a trace, in order. *)
Fixpoint fetchResults (evs : list Event) : list (Error + Value) :=
  match evs with
  | [] => []
  | EvFetch _ r :: rest => r :: fetchResults rest
  | _ :: rest => fetchResults rest
  end.

(** The bulk writes of a trace. *)
Fixpoint writes (evs : list Event) : list (list UpdateOne) :=
  match evs with
  | [] => []
  | EvBulkWrite ops _ :: rest => ops :: writes rest
  | _ :: rest => writes rest
  end.

(** The timers of a trace. *)
Fixpoint delays (evs : list Event) : list Z :=
  match evs with
  | [] => []
  | EvDelay ms :: rest => ms :: delays rest
  | _ :: rest => delays rest
  end.

(** An answer after which the page loop may go on: a payload with status
    ['success'] that carries a continuation token. *)
Definition continues (r : Error + Value) : bool :=
  match r with
  | inl _ => false
  | inr data =>
      negb (nullish data) && isStr (prop data "status") "success"
      && truthy (prop data "nextPage")
  end.

(** The line the [catch] block of [ingestNews] logs for a thrown value. *)
Definition catchLine (e : Error) : LogLine :=
  match response e with
  | Some (status, data) => HttpError status data
  | None => IngestionError (message e)
  end.

(** The three parts of a finished call. *)
Definition worldOf {W A} (r : W * list Event * Outcome A) : W := fst (fst r).
Definition eventsOf {W A} (r : W * list Event * Outcome A) : list Event := snd (fst r).
Definition outcomeOf {W A} (r : W * list Event * Outcome A) : Outcome A := snd r.

(** The same environment with the credential set. *)
Definition withKey (env : Env) (key : string) : Env :=
  {| NEWSDATA_API_KEY := Some key;
     NEWS_FETCH_CATEGORIES := NEWS_FETCH_CATEGORIES env;
     NEWS_FETCH_LANGUAGE := NEWS_FETCH_LANGUAGE env |}.

(** An upstream that answers every request with a payload whose status is
    not ['success']. *)
Definition alwaysRefuses `{World} : Prop :=
  forall params w, exists w1 data,
    axios_get params w = (w1, inr data)
    /\ nullish data = false
    /\ isStr (prop data "status") "success" = false.

(** The inter-batch timer, present when the batch is not the last. *)
Definition batchGap (index count : nat) : list Event :=
  if Nat.ltb index (count - 1) then [EvDelay 1500] else [].

End Observe.

(** ** The run guard: the invariant *)

Module GuardInv.

Import Guard.

(** The flag is set exactly while one run is in flight. *)
Definition coherent (s : State) : Prop :=
  (isRunning s = false /\ running s = [])
  \/ (isRunning s = true /\ exists c, running s = [c]).

End GuardInv.

(** ** More of what a trace shows *)

Module Trace.

Import Js Service Observe.

(** The upstream requests of a trace, each with its answer. *)
Fixpoint fetches (evs : list Event) : list (Params * (Error + Value)) :=
  match evs with
  | [] => []
  | EvFetch p r :: rest => (p, r) :: fetches rest
  | _ :: rest => fetches rest
  end.

(** An answer that is processed as a page. *)
Definition isPage (r : Error + Value) : bool :=
  match r with
  | inl _ => false
  | inr data => negb (nullish data) && isStr (prop data "status") "success"
  end.

(** The number of answers processed as pages. *)
Definition pagesProcessed (evs : list Event) : Z :=
  Z.of_nat (length (List.filter isPage (fetchResults evs))).

(** The number of timers of a given length. *)
Definition waits (ms : Z) (evs : list Event) : nat :=
  length (List.filter (Z.eqb ms) (delays evs)).

(** What the store reported over a trace. *)
Fixpoint upsertedSum (evs : list Event) : Z :=
  match evs with
  | [] => 0
  | EvBulkWrite _ (inr r) :: rest => upsertedCount r + upsertedSum rest
  | _ :: rest => upsertedSum rest
  end.

Fixpoint modifiedSum (evs : list Event) : Z :=
  match evs with
  | [] => 0
  | EvBulkWrite _ (inr r) :: rest => modifiedCount r + modifiedSum rest
  | _ :: rest => modifiedSum rest
  end.

(** Each request after the first asks for the page the answer before it
    named, with the same key, language and categories. *)
Fixpoint threaded (fs : list (Params * (Error + Value))) : Prop :=
  match fs with
  | [] => True
  | (p1, r1) :: rest =>
      match rest with
      | [] => True
      | (p2, _) :: _ =>
          (exists data, r1 = inr data /\ page p2 = Some (prop data "nextPage"))
          /\ apikey p2 = apikey p1 /\ language p2 = language p1
          /\ category p2 = category p1
      end
      /\ threaded rest
  end.

(** What paces a run: the start of a batch (its log line), a request, a
    timer. *)
Inductive Mark : Type :=
| BatchStarts
| Request
| Wait (ms : Z).

(** The pace of a trace, in program order. *)
Fixpoint marks (evs : list Event) : list Mark :=
  match evs with
  | [] => []
  | EvLog debug (FetchingBatch _) :: rest => BatchStarts :: marks rest
  | EvFetch _ _ :: rest => Request :: marks rest
  | EvDelay ms :: rest => Wait ms :: marks rest
  | _ :: rest => marks rest
  end.

(** A batch of [more + 1] requests: 1000 ms before each but the first. *)
Definition batchMarks (more : nat) : list Mark :=
  BatchStarts :: Request :: concat (repeat [Wait 1000; Request] more).

(** Batches in a row, 1500 ms between each two. *)
Fixpoint runMarks (batches : list nat) : list Mark :=
  match batches with
  | [] => []
  | [more] => batchMarks more
  | more :: rest => batchMarks more ++ Wait 1500 :: runMarks rest
  end.

(** The articles of a page, as [upsertArticles] receives them. *)
Definition articlesOf (data : Value) : Value := or (prop data "results") (Arr []).

Definition zeroCounts : Counts := {| upserted := 0; modified := 0 |}.

Section WithWorld.
Context `{JsDate.Host} `{World}.

(** The four ways [upsertArticles] can go. *)
Inductive UpsertCase (articles : Value) (w : world)
  : world * list Event * Outcome Counts -> Prop :=
| nothing_to_write :
    negb (truthy articles) || isZero (length_of articles) = true ->
    UpsertCase articles w (w, [], Ok zeroCounts)
| map_throws (e : Error) :
    UpsertCase articles w (w, [], Throw e)
| write_fails (items : list Value) (ops : list UpdateOne) (w1 : world) (e : Error) :
    articles = Arr items -> items <> [] -> mapOps items = inr ops ->
    Article_bulkWrite ops w = (w1, inl e) ->
    UpsertCase articles w (w1, [EvBulkWrite ops (inl e)], Throw e)
| written (items : list Value) (ops : list UpdateOne) (w1 : world)
    (r : BulkWriteResult) :
    articles = Arr items -> items <> [] -> mapOps items = inr ops ->
    Article_bulkWrite ops w = (w1, inr r) ->
    UpsertCase articles w
      (w1, [EvBulkWrite ops (inr r)],
       Ok {| upserted := upsertedCount r; modified := modifiedCount r |}).

End WithWorld.

End Trace.

(** ** Predicates on text *)

Module Text.

(** [s.includes(c)] for a character. *)
Fixpoint hasChar (c : ascii) (s : string) : bool :=
  match s with
  | EmptyString => false
  | String c' s' => Ascii.eqb c' c || hasChar c s'
  end.

(** Nothing but white space. *)
Fixpoint allWhite (s : string) : bool :=
  match s with
  | EmptyString => true
  | String c s' => JsString.isWhiteSpace c && allWhite s'
  end.

(** Nothing but commas and white space. *)
Fixpoint blankList (s : string) : bool :=
  match s with
  | EmptyString => true
  | String c s' => (Ascii.eqb c "," || JsString.isWhiteSpace c) && blankList s'
  end.

(** Nothing but commas. *)
Fixpoint onlyCommas (s : string) : bool :=
  match s with
  | EmptyString => true
  | String c s' => Ascii.eqb c "," && onlyCommas s'
  end.

(** A category name as upstream expects it: not empty, no comma, no white
    space around it. *)
Definition cleanName (c : string) : Prop :=
  c <> EmptyString /\ hasChar "," c = false /\ JsString.trim c = c.

End Text.

(** ** More scenarios *)

Module Scenario2.

Import Js Service Scenario.

(** A category list of blanks and commas. *)
Definition blankCategories : Env :=
  {| NEWSDATA_API_KEY := Some "k";
     NEWS_FETCH_CATEGORIES := Some " , ,";
     NEWS_FETCH_LANGUAGE := None |}.

End Scenario2.

(** ** Numbers: the doubles the list route computes with *)

Module JsNumber.

Local Open Scope Z_scope.

(** The values of [parseInt], [Math.max], [Math.min] and [Math.ceil], and
    of products and differences of them: NaN, an infinity, or an integer that
    is a double.  The sign of zero is not kept. *)
Inductive Number : Type :=
| NaN
| Infinity (negative : bool)
| Int (n : Z).

(** The integer nearest to [a / b], the even one of two equally near, for
    [0 <= a] and [0 < b]. *)
Definition nearestInteger (a b : Z) : Z :=
  let q := a / b in
  let r := a mod b in
  if 2 * r <? b then q
  else if b <? 2 * r then q + 1
  else if Z.even q then q else q + 1.

(** The integer part of the binary logarithm of [a / b], for [0 < a] and
    [0 < b]. *)
Definition floorLog2 (a b : Z) : Z :=
  let k := Z.log2 a - Z.log2 b in
  if 0 <=? k then (if b * 2 ^ k <=? a then k else k - 1)
  else (if b <=? a * 2 ^ (- k) then k else k - 1).

(** The double nearest to [a / b], for [0 < a] and [0 < b], as a
    significand of 53 bits and an exponent: the double is [m * 2 ^ e].
    Quotients below the normal range do not occur. *)
Definition nearestDouble (a b : Z) : Z * Z :=
  let e := floorLog2 a b - 52 in
  (if 0 <=? e then nearestInteger a (b * 2 ^ e) else nearestInteger (a * 2 ^ (- e)) b, e).

(** [Math.ceil] and [Math.floor] of the double [m * 2 ^ e]. *)
Definition ceilOf (d : Z * Z) : Z :=
  let '(m, e) := d in
  if 0 <=? e then m * 2 ^ e else - ((- m) / 2 ^ (- e)).

Definition floorOf (d : Z * Z) : Z :=
  let '(m, e) := d in
  if 0 <=? e then m * 2 ^ e else m / 2 ^ (- e).

(** The Number of a mathematical integer: the nearest double, an infinity
    when that lies beyond the largest double. *)
Definition ofZ (n : Z) : Number :=
  if n =? 0 then Int 0
  else
    let v := ceilOf (nearestDouble (Z.abs n) 1) in
    if 2 ^ 1024 <=? v then Infinity (n <? 0) else Int (Z.sgn n * v).

(** [a < b]; false when either is NaN. *)
Definition lt (a b : Number) : bool :=
  match a, b with
  | NaN, _ | _, NaN => false
  | Infinity true, Infinity true => false
  | Infinity true, _ => true
  | _, Infinity true => false
  | Infinity false, _ => false
  | Int _, Infinity false => true
  | Int x, Int y => x <? y
  end.

(** [Math.max(a, b)] and [Math.min(a, b)]: NaN if either is NaN. *)
Definition Math_max (a b : Number) : Number :=
  match a, b with
  | NaN, _ | _, NaN => NaN
  | _, _ => if lt a b then b else a
  end.

Definition Math_min (a b : Number) : Number :=
  match a, b with
  | NaN, _ | _, NaN => NaN
  | _, _ => if lt b a then b else a
  end.

(** [a - b] *)
Definition sub (a b : Number) : Number :=
  match a, b with
  | NaN, _ | _, NaN => NaN
  | Infinity s, Infinity s' => if Bool.eqb s s' then NaN else Infinity s
  | Infinity s, Int _ => Infinity s
  | Int _, Infinity s => Infinity (negb s)
  | Int x, Int y => ofZ (x - y)
  end.

(** [a * b] *)
Definition mul (a b : Number) : Number :=
  match a, b with
  | NaN, _ | _, NaN => NaN
  | Infinity s, Infinity s' => Infinity (xorb s s')
  | Infinity s, Int y => if y =? 0 then NaN else Infinity (xorb s (y <? 0))
  | Int x, Infinity s => if x =? 0 then NaN else Infinity (xorb s (x <? 0))
  | Int x, Int y => ofZ (x * y)
  end.

(** [Math.ceil(total / b)] for a count [total]: the quotient is rounded to
    a double before [Math.ceil] sees it. *)
Definition ceilOfQuotient (total : N) (b : Number) : Number :=
  match ofZ (Z.of_N total), b with
  | NaN, _ | _, NaN => NaN
  | Infinity _, Infinity _ => NaN
  | Infinity _, Int y => Infinity (y <? 0)
  | Int _, Infinity _ => Int 0
  | Int x, Int y =>
      if y =? 0 then (if x =? 0 then NaN else Infinity false)
      else if x =? 0 then Int 0
      else if 0 <? y then Int (ceilOf (nearestDouble x y))
      else Int (- floorOf (nearestDouble x (- y)))
  end.

End JsNumber.

(** ** [routes/news.js] *)

Module Routes.

Import Js Service.

(** [req.query], the part [buildQuery] reads.  A value is a string, an
    array or an object, or [undefined] when the parameter is not given. *)
Record QueryParams : Type := mkQueryParams {
  startDate : Value;
  endDate : Value;
  author : Value;
  qlanguage : Value;
  country : Value;
  qcategory : Value;
  datatype : Value;
  search : Value
}.

(** [query.pubDate]: each bound is absent or a [Date], whose time value is
    NaN ([None]) when the text did not parse. *)
Record DateRange : Type := mkDateRange {
  gte : option (option Z);
  lte : option (option Z)
}.

(** The filter [buildQuery] returns; an absent key is [None].
    [creator] holds the text of [{ $elemMatch: { $regex, $options: 'i' } }],
    the four list filters the array of [{ $in }], [text] the [$search]. *)
Record Query : Type := mkQuery {
  pubDate : option DateRange;
  creator : option string;
  inLanguage : option (list Value);
  inCountry : option (list Value);
  inCategory : option (list Value);
  inDatatype : option (list Value);
  text : option string
}.

Section WithHost.
Context `{JsDate.Host}.

(** [new Date(v + suffix)]: the conversion of [v] may throw. *)
Definition dateOf (v : Value) (suffix : string) : Error + option Z :=
  match ToString v with
  | inl e => inl e
  | inr text => inr (JsDate.parse (text +:+ suffix))
  end.

(** The date range filter. *)
Definition dateRangeOf (startDate endDate : Value) : Error + option DateRange :=
  if truthy startDate || truthy endDate then
    match (if truthy startDate
           then match dateOf startDate "T00:00:00.000Z" with
                | inl e => inl e
                | inr d => inr (Some d)
                end
           else inr None) with
    | inl e => inl e
    | inr from =>
        match (if truthy endDate
               then match dateOf endDate "T23:59:59.999Z" with
                    | inl e => inl e
                    | inr d => inr (Some d)
                    end
               else inr None) with
        | inl e => inl e
        | inr to => inr (Some {| gte := from; lte := to |})
        end
    end
  else inr None.

(** [v && v.trim()], and then [v.trim()] for the filter: only a string has
    a [trim]. *)
Definition trimmedOf (name : string) (v : Value) : Error + option string :=
  if truthy v then
    match v with
    | Str s =>
        inr (if JsString.nonEmpty (JsString.trim s) then Some (JsString.trim s) else None)
    | _ => inl (TypeError (name +:+ ".trim is not a function"))
    end
  else inr None.

(** [(Array.isArray(v) ? v : v.split(',')).filter(Boolean)] for a truthy
    [v]: only a string has a [split]. *)
Definition listOf (name : string) (v : Value) : Error + option (list Value) :=
  if truthy v then
    match v with
    | Arr items => inr (Some (List.filter truthy items))
    | Str s =>
        inr (Some (List.map Str (List.filter JsString.nonEmpty (JsString.split "," s))))
    | _ => inl (TypeError (name +:+ ".split is not a function"))
    end
  else inr None.

(** [buildQuery(queryParams)], in the order of the source. *)
Definition buildQuery (q : QueryParams) : Error + Query :=
  match dateRangeOf (startDate q) (endDate q) with
  | inl e => inl e
  | inr range =>
  match trimmedOf "author" (author q) with
  | inl e => inl e
  | inr creatorText =>
  match listOf "language" (qlanguage q) with
  | inl e => inl e
  | inr languages =>
  match listOf "country" (country q) with
  | inl e => inl e
  | inr countries =>
  match listOf "category" (qcategory q) with
  | inl e => inl e
  | inr categories =>
  match listOf "datatype" (datatype q) with
  | inl e => inl e
  | inr types =>
  match trimmedOf "search" (search q) with
  | inl e => inl e
  | inr searchText =>
      inr {| pubDate := range;
             creator := creatorText;
             inLanguage := languages;
             inCountry := countries;
             inCategory :=
               match categories with
               | Some filtered => if Nat.ltb 0 (length filtered) then Some filtered else None
               | None => None
               end;
             inDatatype := types;
             text := searchText |}
  end end end end end end end.

End WithHost.

(** No parameter given. *)
Definition noParams : QueryParams :=
  {| startDate := Undefined; endDate := Undefined; author := Undefined;
     qlanguage := Undefined; country := Undefined; qcategory := Undefined;
     datatype := Undefined; search := Undefined |}.

(** *** Paging of [GET /] *)

Import JsNumber.

(** The digits at the head of a string, as a number, and how many. *)
Fixpoint leadingDigits (acc : Z) (seen : nat) (s : string) : Z * nat :=
  match s with
  | EmptyString => (acc, seen)
  | String c s' =>
      match JsDate.digitVal c with
      | Some d => leadingDigits (10 * acc + d) (S seen) s'
      | None => (acc, seen)
      end
  end.

Definition unsignedInt (s : string) : option Z :=
  match leadingDigits 0 0 s with
  | (_, O) => None
  | (n, S _) => Some n
  end.

(** The integer a text starts with, after white space and a sign. *)
Definition leadingInteger (text : string) : option Z :=
  match JsString.trimStart text with
  | String "-" rest => option_map Z.opp (unsignedInt rest)
  | String "+" rest => unsignedInt rest
  | s => unsignedInt s
  end.

(** [parseInt(v, 10)]: the conversion of [v] to a string may throw; the
    integer read is rounded to a double. *)
Definition parseInt (v : Value) : Error + Number :=
  match ToString v with
  | inl e => inl e
  | inr text =>
      inr match leadingInteger text with
          | Some n => ofZ n
          | None => NaN
          end
  end.

(** A destructuring default: used only when the parameter is [undefined]. *)
Definition orDefault (v fallback : Value) : Value :=
  match v with
  | Undefined => fallback
  | _ => v
  end.

Record Paging : Type := mkPaging {
  pageNum : Number;
  limitNum : Number;
  skip : Number
}.

(** [pageNum], [limitNum] and [skip] of the list route. *)
Definition pagingOf (page limit : Value) : Error + Paging :=
  match parseInt (orDefault page (Num 1)) with
  | inl e => inl e
  | inr readPage =>
      match parseInt (orDefault limit (Num 20)) with
      | inl e => inl e
      | inr readLimit =>
          let pageNum := Math_max (Int 1) readPage in
          let limitNum := Math_min (Int 100) (Math_max (Int 1) readLimit) in
          inr {| pageNum := pageNum;
                 limitNum := limitNum;
                 skip := mul (sub pageNum (Int 1)) limitNum |}
      end
  end.

Record PageInfo : Type := mkPageInfo {
  totalPages : Number;
  hasNextPage : bool;
  hasPrevPage : bool
}.

(** The [pagination] object of the answer, for [total] matching documents;
    a comparison with NaN is false. *)
Definition pageInfoOf (paging : Paging) (total : N) : PageInfo :=
  {| totalPages := ceilOfQuotient total (limitNum paging);
     hasNextPage := lt (pageNum paging) (ceilOfQuotient total (limitNum paging));
     hasPrevPage := lt (Int 1) (pageNum paging) |}.

End Routes.

(** ** The parameters of [buildQuery], by kind *)

Module Params.

Import Js Routes.

(** The four parameters that hold a list. *)
Inductive ListParam : Type := Language | Country | Category | Datatype.

Definition paramOf (f : ListParam) (q : QueryParams) : Value :=
  match f with
  | Language => qlanguage q
  | Country => country q
  | Category => qcategory q
  | Datatype => datatype q
  end.

Definition withParam (f : ListParam) (v : Value) (q : QueryParams) : QueryParams :=
  match f with
  | Language =>
      mkQueryParams (startDate q) (endDate q) (author q) v (country q)
        (qcategory q) (datatype q) (search q)
  | Country =>
      mkQueryParams (startDate q) (endDate q) (author q) (qlanguage q) v
        (qcategory q) (datatype q) (search q)
  | Category =>
      mkQueryParams (startDate q) (endDate q) (author q) (qlanguage q) (country q)
        v (datatype q) (search q)
  | Datatype =>
      mkQueryParams (startDate q) (endDate q) (author q) (qlanguage q) (country q)
        (qcategory q) v (search q)
  end.

(** The [$in] list of the filter built for a parameter. *)
Definition filterOf (f : ListParam) (r : Query) : option (list Value) :=
  match f with
  | Language => inLanguage r
  | Country => inCountry r
  | Category => inCategory r
  | Datatype => inDatatype r
  end.

Definition isString (v : Value) : bool :=
  match v with Str _ => true | _ => false end.

Definition isArray (v : Value) : bool :=
  match v with Arr _ => true | _ => false end.

(** A value that [String] converts. *)
Definition convertible (v : Value) : bool :=
  match ToString v with
  | inr _ => true
  | inl _ => false
  end.

(** What a date parameter may be: absent or falsy, or a value that
    converts to a string. *)
Definition datable (v : Value) : bool := negb (truthy v) || convertible v.

(** What [author] and [search] may be: absent or falsy, or a string. *)
Definition textual (v : Value) : bool := negb (truthy v) || isString v.

(** What a list parameter may be: absent or falsy, a string or an array. *)
Definition listable (v : Value) : bool := negb (truthy v) || isString v || isArray v.

(** A list entry as a client sends it: not empty and without comma. *)
Definition entry (c : string) : Prop :=
  c <> EmptyString /\ Text.hasChar "," c = false.

End Params.

(** ** Calendar days *)

Module Day.

Local Open Scope Z_scope.

(** The text [YYYY-MM-DD] of the day of a date-time. *)
Definition text (t : Civil.DateTime) : string :=
  Civil.pad4 (Civil.year t) (String "-" (Civil.pad2 (Civil.month t) (String "-"
    (Civil.pad2 (Civil.day t) EmptyString)))).

(** The text [YYYY-MM-DDTHH:mm:ssZ] of a date-time. *)
Definition stamp (t : Civil.DateTime) : string :=
  Civil.pad4 (Civil.year t) (String "-" (Civil.pad2 (Civil.month t) (String "-"
    (Civil.pad2 (Civil.day t) (String "T" (Civil.pad2 (Civil.hour t) (String ":"
      (Civil.pad2 (Civil.minute t) (String ":" (Civil.pad2 (Civil.second t) "Z")))))))))).

(** Milliseconds from 1970-01-01T00:00:00Z to the start of the day, in UTC. *)
Definition midnight (t : Civil.DateTime) : Z := Civil.epochDay t * 86400000.

Definition same (a b : Civil.DateTime) : Prop :=
  Civil.year a = Civil.year b /\ Civil.month a = Civil.month b
  /\ Civil.day a = Civil.day b.

(** The day with a time of day put in place of its own. *)
Definition atTime (d : Civil.DateTime) (h mi sec : Z) : Civil.DateTime :=
  Civil.mkDateTime (Civil.year d) (Civil.month d) (Civil.day d) h mi sec.

(** Day within its year, from 0. *)
Definition ofYear (t : Civil.DateTime) : Z :=
  Civil.daysOfMonths (Civil.year t) (Z.to_nat (Civil.month t - 1)) + (Civil.day t - 1).

End Day.

(** ** [middleware/errorHandler.js] *)

Module Middleware.

Import Js Service.

Local Open Scope Z_scope.

(** [req.method] and [req.originalUrl] *)
Record Request : Type := mkRequest { method : string; originalUrl : string }.

(** The value given to [next]: [err.status] and [err.statusCode], numbers
    when present, [err.message] and [err.stack]. *)
Record Raised : Type := mkRaised {
  status : option Z;
  statusCode : option Z;
  text : string;
  stack : option string
}.

(** [a || b] for a number that may be absent. *)
Definition numberOr (a : option Z) (b : Z) : Z :=
  match a with
  | Some n => if n =? 0 then b else n
  | None => b
  end.

(** The line [`${status} - ${message} - ${req.originalUrl} - ${req.method}`]
    by its parts; [meta] is the [{ stack }] given with it at level [error]. *)
Record Logged : Type := mkLogged {
  level : Level;
  loggedStatus : Z;
  loggedText : string;
  loggedUrl : string;
  loggedMethod : string;
  meta : option (option string)
}.

(** [res.status(code).json({ success: false, message, stack })]; an absent
    [stack] is left out of the body. *)
Record Reply : Type := mkReply {
  code : Z;
  shown : string;
  shownStack : option string
}.

(** [process.env.NODE_ENV === 'production'] *)
Definition isProduction (NODE_ENV : option string) : bool :=
  match NODE_ENV with
  | Some s => String.eqb s "production"
  | None => false
  end.

(** [notFound(req, res, next)]: the error it gives to [next]. *)
Definition notFound (req : Request) (stack : option string) : Raised :=
  {| status := Some 404;
     statusCode := None;
     text := "Route not found: " +:+ method req +:+ " " +:+ originalUrl req;
     stack := stack |}.

(** [errorHandler(err, req, res, next)] *)
Definition errorHandler (NODE_ENV : option string) (err : Raised) (req : Request)
  : Logged * Reply :=
  let status := numberOr (status err) (numberOr (statusCode err) 500) in
  let message :=
    if JsString.nonEmpty (text err) then text err else "Internal Server Error"%string in
  ({| level := if 500 <=? status then error else warn;
      loggedStatus := status;
      loggedText := message;
      loggedUrl := originalUrl req;
      loggedMethod := method req;
      meta := if 500 <=? status then Some (stack err) else None |},
   {| code := status;
      shown := if isProduction NODE_ENV && (status =? 500)
               then "Internal Server Error"%string else message;
      shownStack := if isProduction NODE_ENV then None else stack err |}).

(** An error thrown by the language or made with [new Error(message)]: it
    carries no status. *)
Definition plain (e : Error) (stack : option string) : Raised :=
  {| status := None; statusCode := None; text := message e; stack := stack |}.

End Middleware.

(** ** [app.js]: the origins allowed by the CORS policy *)

Module Cors.

(** [(process.env.ALLOWED_ORIGINS || '...').split(',').map((o) => o.trim())] *)
Definition allowedOrigins (ALLOWED_ORIGINS : option string) : list string :=
  List.map JsString.trim
    (JsString.split ","%char
       (Batching.envOr ALLOWED_ORIGINS "http://localhost:3000,http://localhost:5173")).

(** [allowedOrigins.includes(origin)] *)
Definition includes (l : list string) (origin : string) : bool :=
  List.existsb (String.eqb origin) l.

(** The [origin] callback: [true] for [callback(null, true)], [false] for
    [callback(new Error(...))].  A request without [Origin] header has
    [origin] undefined. *)
Definition originAllowed (ALLOWED_ORIGINS : option string) (origin : option string) : bool :=
  match origin with
  | None => true
  | Some o => negb (JsString.nonEmpty o) || includes (allowedOrigins ALLOWED_ORIGINS) o
  end.

End Cors.

(** ** The handlers of [routes/news.js] *)

Module Handlers.

Import Js Service Routes.

Local Open Scope Z_scope.

(** [req.query] of the list route. *)
Record ListQuery : Type := mkListQuery {
  page : Value;
  limit : Value;
  sortBy : Value;
  sortOrder : Value;
  params : QueryParams
}.

(** [sortOptions]: [{ [sortBy]: sortDir }], and [pubDate: -1] added when
    [sortBy !== 'pubDate']; keys in the order of the object.  The conversion
    of [sortBy] to a property name may throw. *)
Definition sortOptionsOf (sortBy sortOrder : Value) : Error + list (string * Z) :=
  let sortBy := orDefault sortBy (Str "pubDate") in
  let sortOrder := orDefault sortOrder (Str "desc") in
  let sortDir := if isStr sortOrder "asc" then 1 else -1 in
  match ToString sortBy with
  | inl e => inl e
  | inr key =>
      inr (if isStr sortBy "pubDate" then [("pubDate"%string, sortDir)]
           else if String.eqb key "pubDate" then [("pubDate"%string, -1)]
           else [(key, sortDir); ("pubDate"%string, -1)])
  end.

(** The list route up to its two questions to the store: it gives the
    error thrown on the way to [next], or asks for the page and the count. *)
Inductive ListStep : Type :=
| Rejected (e : Error)
| Asked (query : Query) (sort : list (string * Z)) (skip limit : JsNumber.Number).

Definition listRequest `{JsDate.Host} (req : ListQuery) : ListStep :=
  match pagingOf (page req) (limit req) with
  | inl e => Rejected e
  | inr paging =>
      match buildQuery (params req) with
      | inl e => Rejected e
      | inr query =>
          match sortOptionsOf (sortBy req) (sortOrder req) with
          | inl e => Rejected e
          | inr sort => Asked query sort (skip paging) (limitNum paging)
          end
      end
  end.

(** What [POST /ingest] does with the request: a JSON answer, or the error
    given to [next]. *)
Inductive IngestReply : Type :=
| Json (code : Z) (success : bool) (message : string) (data : option Totals)
| Next (e : Error).

(** The handler of [POST /ingest], from the current value of [isRunning];
    the answer is [None] only if the run did not finish. *)
Definition postIngest `{JsDate.Host} `{World} (env : Env) (isRunning : bool) (w : world)
  : bool * (world * list Event * option IngestReply) :=
  let '(flag, (w1, evs, o)) := Cron.triggerManualIngestion env isRunning w in
  (flag, (w1, evs,
          match o with
          | Ok result => Some (Json 200 true "Ingestion complete" result)
          | Throw e =>
              if String.eqb (message e) "Ingestion already in progress"
              then Some (Json 409 false (message e) None)
              else Some (Next e)
          | Unfinished => None
          end)).

End Handlers.

(** ** Starting and stopping the schedule *)

Module Startup.

Import Js Service.

(** [process.env], the part [startCronJob] reads. *)
Record CronEnv : Type := mkCronEnv {
  CRON_SCHEDULE : option string;
  NODE_ENV : option string;
  FETCH_ON_START : option string
}.

(** The module variables [task] (the pattern it was scheduled with) and
    [isRunning]. *)
Record Job : Type := mkJob { task : option string; isRunning : bool }.

Definition initial : Job := {| task := None; isRunning := false |}.

Inductive Line : Type :=
| InvalidSchedule (schedule : string)
| ScheduledWith (schedule : string)
| InitialRun
| Stopped.

(** [v === 'text'] for an environment variable. *)
Definition envIs (v : option string) (text : string) : bool :=
  match v with
  | Some s => String.eqb s text
  | None => false
  end.

(** [startCronJob()]: the module variables after it, what it logs, and
    whether it launched the run on startup.  [validate] is [cron.validate]. *)
Definition startCronJob (validate : string -> bool) (env : CronEnv) (job : Job)
  : Job * list (Level * Line) * bool :=
  let schedule := Batching.envOr (CRON_SCHEDULE env) "0 */1 * * *" in
  if negb (validate schedule) then (job, [(error, InvalidSchedule schedule)], false)
  else
    let onStart := envIs (NODE_ENV env) "production" || envIs (FETCH_ON_START env) "true" in
    ({| task := Some schedule; isRunning := onStart || isRunning job |},
     (info, ScheduledWith schedule) :: (if onStart then [(info, InitialRun)] else []),
     onStart).

(** [stopCronJob()]: what it logs, and whether it called [task.stop()]. *)
Definition stopCronJob (job : Job) : list (Level * Line) * bool :=
  match task job with
  | Some _ => ([(info, Stopped)], true)
  | None => ([], false)
  end.

End Startup.

(** * Properties *)

(** ** Category batching *)

Module BatchingFacts.

Import Batching.

Lemma ceil_div_5_bounds (n : nat) :
  n <= 5 * ceil_div n 5 /\ 5 * ceil_div n 5 < n + 5.
Proof.
  unfold ceil_div. simpl Nat.sub.
  pose proof (Nat.div_mod (n + 4) 5 ltac:(lia)) as E.
  pose proof (Nat.mod_upper_bound (n + 4) 5 ltac:(lia)) as B.
  lia.
Qed.

Lemma ceil_div_5_step (n : nat) :
  0 < n -> ceil_div n 5 = S (ceil_div (n - 5) 5).
Proof.
  intros Hn.
  pose proof (ceil_div_5_bounds n) as [A1 A2].
  pose proof (ceil_div_5_bounds (n - 5)) as [B1 B2].
  lia.
Qed.

Lemma slice_length {A} (l : list A) (i : nat) :
  length (slice l i (i + CATEGORY_BATCH_SIZE)) = Nat.min 5 (length l - i).
Proof.
  unfold slice, CATEGORY_BATCH_SIZE.
  rewrite length_take, length_drop. f_equal. lia.
Qed.

Lemma slice_lookup {A} (l : list A) (i j : nat) :
  j < 5 -> slice l i (i + CATEGORY_BATCH_SIZE) !! j = l !! (i + j).
Proof.
  intros Hj. unfold slice, CATEGORY_BATCH_SIZE.
  replace (i + 5 - i) with 5 by lia.
  rewrite lookup_take_lt by lia. apply lookup_drop.
Qed.

Section Chunks.
Context {A : Type}.
Implicit Types (all : list A) (pushed : list (list A)).

Lemma chunkFrom_concat all i pushed :
  concat (chunkFrom all i pushed) = concat pushed ++ drop i all.
Proof.
  funelim (chunkFrom all i pushed).
  - match goal with IH : concat (chunkFrom _ _ _) = _ |- _ => rewrite IH end.
    rewrite concat_app. simpl. rewrite app_nil_r, <- app_assoc. f_equal.
    unfold slice, CATEGORY_BATCH_SIZE.
    replace (i + 5 - i) with 5 by lia.
    rewrite <- drop_drop. apply take_drop.
  - rewrite drop_ge by lia. by rewrite app_nil_r.
Qed.

Lemma chunkFrom_length all i pushed :
  length (chunkFrom all i pushed) = length pushed + ceil_div (length all - i) 5.
Proof.
  funelim (chunkFrom all i pushed).
  - match goal with IH : length (chunkFrom _ _ _) = _ |- _ => rewrite IH end.
    rewrite length_app. cbn [length].
    rewrite (ceil_div_5_step (length all - i)) by lia.
    unfold CATEGORY_BATCH_SIZE.
    replace (length all - (i + 5)) with (length all - i - 5) by lia. lia.
  - replace (length all - i) with 0 by lia. unfold ceil_div. simpl. lia.
Qed.

Lemma chunkFrom_keeps all i pushed k :
  k < length pushed -> chunkFrom all i pushed !! k = pushed !! k.
Proof.
  funelim (chunkFrom all i pushed); intros Hk; [|reflexivity].
  match goal with IH : forall k : nat, _ |- _ => rewrite IH end.
  - by apply lookup_app_l.
  - rewrite length_app. simpl. lia.
Qed.

(** Batch number [k] counted from the first batch pushed after [pushed] is
    the slice that starts [5 * k] places after [i]. *)
Lemma chunkFrom_lookup all i pushed k :
  i + 5 * k < length all ->
  chunkFrom all i pushed !! (length pushed + k)
  = Some (slice all (i + 5 * k) (i + 5 * k + CATEGORY_BATCH_SIZE)).
Proof.
  revert k.
  funelim (chunkFrom all i pushed); intros k Hk; [|lia].
  destruct k as [|k].
  - replace (i + 5 * 0) with i by lia.
    replace (length pushed + 0) with (length pushed) by lia.
    rewrite chunkFrom_keeps by (rewrite length_app; simpl; lia).
    rewrite lookup_app_r by lia. by rewrite Nat.sub_diag.
  - match goal with IH : forall k : nat, _ |- _ =>
      specialize (IH k); rewrite length_app in IH; cbn [length] in IH;
      replace (length pushed + S k) with (length pushed + 1 + k) by lia;
      rewrite IH by (unfold CATEGORY_BATCH_SIZE; lia) end.
    unfold CATEGORY_BATCH_SIZE. do 2 f_equal; lia.
Qed.

Lemma categoryBatches_closed_form all :
  categoryBatches all
  = map (fun k => slice all (5 * k) (5 * k + CATEGORY_BATCH_SIZE))
        (seq 0 (ceil_div (length all) 5)).
Proof.
  pose proof (ceil_div_5_bounds (length all)) as [B1 B2].
  apply list_eq. intros k. unfold categoryBatches.
  destruct (decide (k < ceil_div (length all) 5)) as [Hk|Hk].
  - pose proof (chunkFrom_lookup all 0 [] k ltac:(lia)) as E.
    cbn [length Nat.add] in E. rewrite E.
    rewrite list_lookup_fmap, lookup_seq_lt by lia. reflexivity.
  - rewrite !(proj2 (lookup_ge_None _ _)); [reflexivity| |].
    + rewrite length_map, length_seq. lia.
    + rewrite chunkFrom_length, Nat.sub_0_r. cbn [length]. lia.
Qed.

Lemma categoryBatches_lookup all k b :
  categoryBatches all !! k = Some b ->
  b = slice all (5 * k) (5 * k + CATEGORY_BATCH_SIZE) /\ 5 * k < length all.
Proof.
  pose proof (ceil_div_5_bounds (length all)) as [B1 B2].
  rewrite categoryBatches_closed_form, list_lookup_fmap.
  destruct (seq 0 _ !! k) as [k'|] eqn:E; [|discriminate].
  apply lookup_seq in E as [-> Hk]. simpl. intros [= <-]. split; [reflexivity|lia].
Qed.

End Chunks.

(** C2. The configured category list (split at commas, trimmed, empty
    entries dropped), of length N, is cut into ceil(N/5) batches; batch [k]
    is the run of entries [5k .. 5k+4] of the list, so the batches in order
    spell the list again, each has between one and five entries, and the
    entry at position [p] sits in batch [p / 5] at offset [p mod 5] and
    nowhere else.  Six categories give two batches, of five and of one. *)
Theorem category_batches_partition (configured : option string) :
  let all := allCategories configured in
  let batches := categoryBatches all in
  length batches = ceil_div (length all) 5
  /\ batches = map (fun k => slice all (5 * k) (5 * k + 5)) (seq 0 (ceil_div (length all) 5))
  /\ concat batches = all
  /\ Forall (fun b => 1 <= length b <= 5) batches
  /\ (forall p, all !! p = batches !! (p / 5) ≫= (fun b => b !! (p mod 5)))
  /\ map length
       (categoryBatches
          (allCategories (Some "technology,business,science,health,sports,entertainment")))
     = [5; 1].
Proof.
  intros all batches. subst batches.
  pose proof (ceil_div_5_bounds (length all)) as [B1 B2].
  split; [|split; [|split; [|split; [|split]]]].
  - unfold categoryBatches. by rewrite chunkFrom_length, Nat.sub_0_r.
  - apply categoryBatches_closed_form.
  - unfold categoryBatches. rewrite chunkFrom_concat. reflexivity.
  - apply Forall_lookup_2. intros k b Hb.
    apply categoryBatches_lookup in Hb as [-> Hk].
    rewrite slice_length. lia.
  - intros p.
    pose proof (Nat.div_mod p 5 ltac:(lia)) as Hp.
    pose proof (Nat.mod_upper_bound p 5 ltac:(lia)) as Hm.
    destruct (categoryBatches all !! (p / 5)) as [b|] eqn:E; cbn -[Nat.div Nat.modulo].
    + apply categoryBatches_lookup in E as [-> _].
      rewrite slice_lookup by lia. f_equal. lia.
    + apply lookup_ge_None in E.
      unfold categoryBatches in E. rewrite chunkFrom_length, Nat.sub_0_r in E.
      cbn [length] in E. apply lookup_ge_None. lia.
  - reflexivity.
Qed.

End BatchingFacts.

(** ** The run guard *)

Module GuardFacts.

Import Guard GuardInv.

Lemma boot_coherent b : coherent (boot b).
Proof. destruct b; [right|left]; simpl; eauto. Qed.

Lemma remove_only c : remove c [c] = [].
Proof. unfold remove. simpl. by rewrite bool_decide_eq_true_2. Qed.

Lemma step_coherent s i : coherent s -> coherent (fst (step s i)).
Proof.
  intros Hs. destruct i as [t|c' failed]; unfold step.
  - assert (Hidle : isRunning s = false -> running s = []).
    { intros E. destruct Hs as [[_ Hr]|[Ht _]]; congruence. }
    destruct t; destruct (isRunning s) eqn:E; cbn [fst]; try exact Hs;
      right; cbn [isRunning running]; rewrite Hidle by reflexivity; eauto.
  - case_bool_decide as Hin; cbn [fst]; [|exact Hs].
    destruct Hs as [[Hf Hr]|[Ht [c Hr]]]; rewrite Hr in Hin.
    + by apply not_elem_of_nil in Hin.
    + apply list_elem_of_singleton in Hin as ->. left. cbn [isRunning running].
      by rewrite Hr, remove_only.
Qed.

Lemma run_coherent inputs : forall s, coherent s -> coherent (run s inputs).
Proof.
  induction inputs as [|i inputs IH]; intros s Hs; [exact Hs|].
  simpl. apply IH. by apply step_coherent.
Qed.

End GuardFacts.

(** ** The page loop *)

Module PageLoopFacts.

Import Js Service Observe.

Lemma fetchResults_app evs1 evs2 :
  fetchResults (evs1 ++ evs2) = fetchResults evs1 ++ fetchResults evs2.
Proof.
  induction evs1 as [|[] evs1 IH]; simpl; rewrite ?IH; reflexivity.
Qed.

Lemma delays_app evs1 evs2 : delays (evs1 ++ evs2) = delays evs1 ++ delays evs2.
Proof.
  induction evs1 as [|[] evs1 IH]; simpl; rewrite ?IH; reflexivity.
Qed.

Lemma writes_app evs1 evs2 : writes (evs1 ++ evs2) = writes evs1 ++ writes evs2.
Proof.
  induction evs1 as [|[] evs1 IH]; simpl; rewrite ?IH; reflexivity.
Qed.

Lemma truthy_or_Null v : truthy (or v Null) = truthy v.
Proof. unfold or. destruct (truthy v) eqn:E; [exact E|reflexivity]. Qed.

(** The four routine parts of the bound when the loop ends on its first
    answer. *)
Ltac one_fetch :=
  cbn [fetchResults length take Nat.sub last app];
  split; [discriminate|split; [lia|split; [lia|split; [constructor|]]]].

Section WithWorld.
Context `{JsDate.Host} `{World}.

(** [upsertArticles] ends, and talks to nothing but the store. *)
Lemma upsertArticles_trace articles w :
  let '(w', evs, o) := upsertArticles articles w in
  fetchResults evs = [] /\ delays evs = [] /\ o <> Unfinished.
Proof.
  unfold upsertArticles.
  destruct (negb (truthy articles) || isZero (length_of articles)); [by cbn|].
  destruct articles; try (by cbn).
  destruct (mapOps items) as [e|ops]; [by cbn|].
  unfold bind, bulkWrite.
  destruct (Article_bulkWrite ops w) as [w1 [e|r]]; by cbn.
Qed.

(** Nothing to upsert: zero counts, and the store is not called. *)
Lemma upsertArticles_none articles w :
  negb (truthy articles) || isZero (length_of articles) = true ->
  upsertArticles articles w = (w, [], Ok {| upserted := 0; modified := 0 |}).
Proof. intros E. unfold upsertArticles. by rewrite E. Qed.

(** One turn of the loop, case by case. *)
Lemma pageLoop_step b key lang cat page pc tot w :
  pageLoop (S b) key lang cat page pc tot w
  = let params := paramsOf key lang cat page in
    let '(w1, r) := axios_get params w in
    match r with
    | inl e => (w1, [EvFetch params r], Throw e)
    | inr data =>
        if nullish data then
          (w1, [EvFetch params r],
           Throw (TypeError "Cannot read properties of null or undefined"))
        else if negb (isStr (prop data "status") "success") then
          (w1, [EvFetch params r; EvLog error (ApiError cat data)], Ok tot)
        else
          let articles := or (prop data "results") (Arr []) in
          let seen :=
            [EvFetch params r; EvLog debug (Fetched (length_of articles) (pc + 1))] in
          match upsertArticles articles w1 with
          | (w2, evsU, Ok counts) =>
              let tot' := {| pages := pages tot + 1;
                             totalUpserted := totalUpserted tot + upserted counts;
                             totalModified := totalModified tot + modified counts |} in
              let page' := or (prop data "nextPage") Null in
              if truthy page' && (pc + 1 <? MAX_PAGES)%Z then
                let '(w3, evs3, o) := pageLoop b key lang cat page' (pc + 1)%Z tot' w2 in
                (w3, seen ++ evsU ++ EvDelay 1000 :: evs3, o)
              else (w2, seen ++ evsU, Ok tot')
          | (w2, evsU, Throw e) => (w2, seen ++ evsU, Throw e)
          | (w2, evsU, Unfinished) => (w2, seen ++ evsU, Unfinished)
          end
    end.
Proof.
  cbn [pageLoop].
  unfold bind at 1. unfold fetchNewsPage.
  destruct (axios_get (paramsOf key lang cat page) w) as [w1 [e|data]]; cbn zeta;
    [reflexivity|].
  unfold bind at 1.
  destruct data; cbn [statusOf nullish throw ret]; try reflexivity.
  cbn [app].
  match goal with |- context [isStr ?a ?b] => destruct (isStr a b) end; cbn [negb];
    [|reflexivity].
  unfold bind at 1. unfold log, emit. unfold bind at 1.
  destruct (upsertArticles _ w1) as [[w2 evsU] [counts|e|]]; try reflexivity.
  unfold bind at 1, when.
  destruct (truthy _ && _); [unfold delay, emit|unfold ret; cbn [app]].
  - destruct (pageLoop _ _ _ _ _ _ _ w2) as [[w3 evs3] o]. cbn [app]. reflexivity.
  - by rewrite app_nil_r.
Qed.

(** With a budget that covers the pages left under the cap, the loop ends
    by itself; it fetches at least once and no more often than the cap
    allows; every answer but the last carried a token; and it stopped at
    the cap, by a throw, or on an answer that does not continue. *)
Lemma pageLoop_bounded b : forall key lang cat page pc tot w,
  (MAX_PAGES - pc <= Z.of_nat b)%Z -> 1 <= b ->
  let '(w', evs, o) := pageLoop b key lang cat page pc tot w in
  let rs := fetchResults evs in
  o <> Unfinished
  /\ 1 <= length rs
  /\ (Z.of_nat (length rs) <= Z.max 1 (MAX_PAGES - pc))%Z
  /\ Forall (fun r => continues r = true) (take (length rs - 1) rs)
  /\ ((MAX_PAGES <= pc + Z.of_nat (length rs))%Z
      \/ (exists e, o = Throw e)
      \/ (exists r, last rs = Some r /\ continues r = false)).
Proof.
  unfold MAX_PAGES.
  induction b as [|b IH]; intros key lang cat page pc tot w Hb Hpos; [lia|].
  rewrite pageLoop_step. cbn zeta. unfold MAX_PAGES.
  destruct (axios_get (paramsOf key lang cat page) w) as [w1 [e|data]].
  { one_fetch. right. left. eauto. }
  destruct (nullish data) eqn:Hnull.
  { one_fetch. right. left. eauto. }
  destruct (isStr (prop data "status") "success") eqn:Hst; cbn [negb].
  2:{ one_fetch. right. right. eexists. split; [reflexivity|].
      unfold continues. by rewrite Hst, andb_false_r. }
  pose proof (upsertArticles_trace (or (prop data "results") (Arr [])) w1) as HU.
  destruct (upsertArticles _ w1) as [[w2 evsU] [counts|e|]];
    destruct HU as (HUf & _ & HUo); [| |congruence]; cbv beta iota zeta.
  2:{ rewrite fetchResults_app, HUf. one_fetch. right. left. eauto. }
  rewrite truthy_or_Null.
  destruct (truthy (prop data "nextPage")) eqn:Htok; cbn [andb]; cbv beta iota zeta.
  2:{ rewrite fetchResults_app, HUf. one_fetch.
      right. right. eexists. split; [reflexivity|].
      unfold continues. by rewrite Htok, andb_false_r. }
  destruct (pc + 1 <? 3)%Z eqn:Hcap; cbv beta iota zeta.
  2:{ rewrite fetchResults_app, HUf. apply Z.ltb_ge in Hcap. one_fetch. left. lia. }
  apply Z.ltb_lt in Hcap.
  match goal with |- context [pageLoop b ?k ?l ?c ?p ?n ?t ?w] =>
    specialize (IH k l c p n t w ltac:(lia) ltac:(lia));
    destruct (pageLoop b k l c p n t w) as [[w3 evs3] o] end.
  cbv beta iota zeta in IH |- *. destruct IH as (I1 & I2 & I3 & I4 & I5).
  rewrite !fetchResults_app, HUf. cbn [fetchResults app length].
  set (rs := fetchResults evs3) in *.
  split; [exact I1|]. split; [lia|]. split; [lia|]. split.
  - replace (S (length rs) - 1) with (S (length rs - 1)) by lia. cbn [take].
    constructor; [|exact I4].
    unfold continues. by rewrite Hnull, Hst, Htok.
  - destruct I5 as [I5|[I5|(r & Hr & Hc)]].
    + left. lia.
    + right. by left.
    + right. right. exists r. split; [|exact Hc].
      destruct rs; [discriminate|]. exact Hr.
Qed.

End WithWorld.

End PageLoopFacts.

(** ** The batch loop and the run *)

Module IngestFacts.

Import Js Service Observe PageLoopFacts.

Section WithWorld.
Context `{JsDate.Host} `{World}.

(** One batch, then the rest. *)
Lemma batchLoop_step key lang batch rest index count tot w :
  batchLoop key lang (batch :: rest) index count tot w
  = let cat := JsString.join "," batch in
    match pageLoop (Z.to_nat MAX_PAGES) key lang cat Null 0 tot w with
    | (w1, evs1, Ok tot') =>
        let '(w2, evs2, o) := batchLoop key lang rest (S index) count tot' w1 in
        (w2, EvLog debug (FetchingBatch cat) :: evs1 ++ batchGap index count ++ evs2, o)
    | (w1, evs1, Throw e) => (w1, EvLog debug (FetchingBatch cat) :: evs1, Throw e)
    | (w1, evs1, Unfinished) => (w1, EvLog debug (FetchingBatch cat) :: evs1, Unfinished)
    end.
Proof.
  cbn [batchLoop]. cbv zeta.
  unfold bind at 1. unfold log, emit. unfold bind at 1.
  destruct (pageLoop _ _ _ _ _ _ _ w) as [[w1 evs1] [tot'|e|]]; try reflexivity.
  unfold bind at 1. unfold when, batchGap, delay, emit, ret.
  destruct (Nat.ltb index (count - 1));
    destruct (batchLoop key lang rest (S index) count tot' w1) as [[w2 evs2] o];
    reflexivity.
Qed.

(** The run with a key, by the outcome of its batch loop. *)
Lemma ingestNews_step env key w :
  NEWSDATA_API_KEY env = Some key -> key <> "" ->
  ingestNews env w
  = let all := Batching.allCategories (NEWS_FETCH_CATEGORIES env) in
    let batches := Batching.categoryBatches all in
    let lang := Batching.envOr (NEWS_FETCH_LANGUAGE env) "en" in
    let starting := EvLog info (Starting (length all) (length batches)) in
    match batchLoop key lang batches 0 (length batches) zeroTotals w with
    | (w1, evs, Ok tot) =>
        (w1,
         starting :: evs
           ++ [EvLog info (Complete (pages tot) (totalUpserted tot) (totalModified tot))],
         Ok (Some tot))
    | (w1, evs, Throw e) => (w1, starting :: evs ++ [EvLog error (catchLine e)], Throw e)
    | (w1, evs, Unfinished) => (w1, starting :: evs, Unfinished)
    end.
Proof.
  intros Hkey Hne. unfold ingestNews. rewrite Hkey.
  destruct key as [|c key]; [congruence|].
  cbv zeta. unfold bind at 1. unfold log at 1. unfold emit.
  unfold tryCatch, ingestBody. unfold bind at 1.
  destruct (batchLoop _ _ _ _ _ _ w) as [[w1 evs] [tot|e|]].
  - unfold bind, log, emit, ret. by rewrite app_nil_r.
  - unfold ingestCatch, catchLine, bind, throw.
    destruct (response e) as [[status data]|]; unfold log, emit; by rewrite app_nil_r.
  - reflexivity.
Qed.

(** The run without a key. *)
Lemma ingestNews_no_key env w :
  NEWSDATA_API_KEY env = None \/ NEWSDATA_API_KEY env = Some "" ->
  ingestNews env w = (w, [EvLog error KeyNotSet], Ok None).
Proof.
  intros [Hk|Hk]; unfold ingestNews; rewrite Hk; reflexivity.
Qed.

(** A failed request ends the page loop with that failure. *)
Lemma pageLoop_failed_fetch b : forall key lang cat page pc tot w,
  let '(w', evs, o) := pageLoop b key lang cat page pc tot w in
  forall e, inl e ∈ fetchResults evs -> o = Throw e.
Proof.
  induction b as [|b IH]; intros key lang cat page pc tot w.
  { cbn. intros e He. by apply not_elem_of_nil in He. }
  rewrite pageLoop_step. cbv zeta.
  destruct (axios_get (paramsOf key lang cat page) w) as [w1 [e|data]].
  { cbn. intros e' He. apply list_elem_of_singleton in He. congruence. }
  assert (Hdata : forall e : Error, inl e ∈ [@inr Error Value data] -> False).
  { intros e He. apply list_elem_of_singleton in He. discriminate. }
  destruct (nullish data); [cbn; intros e He; by apply Hdata in He|].
  destruct (negb _); [cbn; intros e He; by apply Hdata in He|].
  pose proof (upsertArticles_trace (or (prop data "results") (Arr [])) w1) as HU.
  destruct (upsertArticles _ w1) as [[w2 evsU] [counts|e|]];
    destruct HU as (HUf & _ & HUo); [| |congruence]; cbv beta iota zeta.
  2:{ rewrite fetchResults_app, HUf. cbn. intros e' He. by apply Hdata in He. }
  destruct (truthy _ && _); cbv beta iota zeta.
  2:{ rewrite fetchResults_app, HUf. cbn. intros e' He. by apply Hdata in He. }
  match goal with |- context [pageLoop b ?k ?l ?c ?p ?n ?t ?w] =>
    specialize (IH k l c p n t w);
    destruct (pageLoop b k l c p n t w) as [[w3 evs3] o] end.
  cbv beta iota zeta in IH |- *.
  rewrite !fetchResults_app, HUf. cbn [fetchResults app].
  intros e He. apply elem_of_cons in He as [He|He]; [discriminate|]. by apply IH.
Qed.

Lemma batchLoop_failed_fetch batches : forall key lang index count tot w,
  let '(w', evs, o) := batchLoop key lang batches index count tot w in
  forall e, inl e ∈ fetchResults evs -> o = Throw e.
Proof.
  induction batches as [|batch rest IH]; intros key lang index count tot w.
  { cbn. intros e He. by apply not_elem_of_nil in He. }
  rewrite batchLoop_step. cbv zeta.
  pose proof (pageLoop_failed_fetch (Z.to_nat MAX_PAGES) key lang
                (JsString.join "," batch) Null 0%Z tot w) as HP.
  destruct (pageLoop _ _ _ _ _ _ _ w) as [[w1 evs1] [tot'|e|]];
    cbn [fetchResults]; try exact HP.
  specialize (IH key lang (S index) count tot' w1).
    destruct (batchLoop key lang rest (S index) count tot' w1) as [[w2 evs2] o].
    cbn [fetchResults]. rewrite !fetchResults_app.
    replace (fetchResults (batchGap index count)) with (@nil (Error + Value))
      by (unfold batchGap; by destruct (Nat.ltb _ _)).
    intros e He. apply elem_of_app in He as [He|He]; [|by apply IH].
    by apply HP in He.
Qed.

(** The batch loop ends by itself, after no more than three requests a
    batch. *)
Lemma batchLoop_bounded batches : forall key lang index count tot w,
  let '(w', evs, o) := batchLoop key lang batches index count tot w in
  o <> Unfinished /\ length (fetchResults evs) <= 3 * length batches.
Proof.
  induction batches as [|batch rest IH]; intros key lang index count tot w.
  { cbn. split; [discriminate|lia]. }
  rewrite batchLoop_step. cbv zeta.
  pose proof (pageLoop_bounded (Z.to_nat MAX_PAGES) key lang
                (JsString.join "," batch) Null 0%Z tot w
                ltac:(unfold MAX_PAGES; lia) ltac:(unfold MAX_PAGES; lia)) as HP.
  destruct (pageLoop _ _ _ _ _ _ _ w) as [[w1 evs1] [tot'|e|]];
    cbv zeta in HP; destruct HP as (P1 & _ & P3 & _); unfold MAX_PAGES in P3;
    [| |congruence].
  - specialize (IH key lang (S index) count tot' w1).
    destruct (batchLoop key lang rest (S index) count tot' w1) as [[w2 evs2] o].
    destruct IH as [I1 I2]. split; [exact I1|].
    cbn [fetchResults]. rewrite !fetchResults_app, !length_app.
    replace (fetchResults (batchGap index count)) with (@nil (Error + Value))
      by (unfold batchGap; by destruct (Nat.ltb _ _)).
    cbn [length]. lia.
  - split; [discriminate|]. cbn [fetchResults length]. lia.
Qed.

(** A run always ends by itself. *)
Lemma ingestNews_finishes (env : Env) (w : world) :
  outcomeOf (ingestNews env w) <> Unfinished.
Proof.
  destruct (NEWSDATA_API_KEY env) as [key|] eqn:Hkey.
  2:{ by rewrite (ingestNews_no_key env w (or_introl Hkey)). }
  destruct (decide (key = "")) as [->|Hne].
  { by rewrite (ingestNews_no_key env w (or_intror Hkey)). }
  rewrite (ingestNews_step env key w Hkey Hne). cbv zeta.
  pose proof (batchLoop_bounded
    (Batching.categoryBatches (Batching.allCategories (NEWS_FETCH_CATEGORIES env)))
    key (Batching.envOr (NEWS_FETCH_LANGUAGE env) "en") 0
    (length (Batching.categoryBatches
               (Batching.allCategories (NEWS_FETCH_CATEGORIES env))))
    zeroTotals w) as HB.
  destruct (batchLoop _ _ _ _ _ _ w) as [[w1 evs] [tot|e|]]; try discriminate.
  by destruct HB.
Qed.

(** Run to completion, both entry points leave the guard free, whether the
    run succeeded or failed; and neither starts a run when the guard is
    taken. *)
Lemma entry_points_release (env : Env) (w : world) :
  fst (Cron.triggerManualIngestion env false w) = false
  /\ fst (Cron.cronTick env false w) = false
  /\ Cron.triggerManualIngestion env true w = (true, (w, [], Throw Cron.alreadyInProgress))
  /\ Cron.cronTick env true w = (true, (w, [EvLog warn CronSkipped])).
Proof.
  pose proof (ingestNews_finishes env w) as Hfin.
  unfold Cron.triggerManualIngestion, Cron.cronTick.
  destruct (ingestNews env w) as [[w1 evs] [r|e|]]; cbn in *; try done.
Qed.

(** From a free guard both entry points make the run: the manual trigger
    ends as [ingestNews] does, the cron callback logs around it. *)
Lemma entry_points_start (env : Env) (w : world) :
  Cron.triggerManualIngestion env false w = (false, ingestNews env w)
  /\ Cron.cronTick env false w
     = (false,
        (worldOf (ingestNews env w),
         EvLog info CronTriggered :: eventsOf (ingestNews env w)
         ++ match outcomeOf (ingestNews env w) with
            | Throw e => [EvLog error (CronFailed (message e))]
            | _ => []
            end)).
Proof.
  pose proof (ingestNews_finishes env w) as Hfin.
  unfold Cron.triggerManualIngestion, Cron.cronTick.
  destruct (ingestNews env w) as [[w1 evs] [r|e|]]; cbn in *; try done.
  by rewrite app_nil_r.
Qed.

End WithWorld.

End IngestFacts.

(** ** The claims about a run *)

Module IngestClaims.

Import Js Service Observe PageLoopFacts IngestFacts Scenario.

Section WithWorld.
Context `{JsDate.Host} `{World}.

(** C3. The page loop of a batch, as the batch loop starts it, ends by
    itself after one, two or three requests, whatever upstream answers:
    every answer before the last one carried a continuation token under a
    status of success, and the loop stopped because three pages were
    fetched, or a call threw, or the last answer had no token (or no
    success status).  A whole run therefore makes at most three requests a
    batch. *)
Theorem pagination_stops_at_cap_or_missing_token
    (key lang cat : string) (tot : Totals) (w : world)
    (batches : list (list string)) (index count : nat) :
  let r := pageLoop (Z.to_nat MAX_PAGES) key lang cat Null 0 tot w in
  let rs := fetchResults (eventsOf r) in
  outcomeOf r <> Unfinished
  /\ 1 <= length rs <= 3
  /\ Forall (fun a => continues a = true) (take (length rs - 1) rs)
  /\ (length rs = 3
      \/ (exists e, outcomeOf r = Throw e)
      \/ (exists a, last rs = Some a /\ continues a = false))
  /\ length (fetchResults (eventsOf (batchLoop key lang batches index count tot w)))
     <= 3 * length batches.
Proof.
  intros r rs. subst rs r.
  pose proof (pageLoop_bounded (Z.to_nat MAX_PAGES) key lang cat Null 0%Z tot w
                ltac:(unfold MAX_PAGES; lia) ltac:(unfold MAX_PAGES; lia)) as HP.
  pose proof (batchLoop_bounded batches key lang index count tot w) as HB.
  destruct (pageLoop _ _ _ _ _ _ _ w) as [[w1 evs] o].
  destruct (batchLoop _ _ _ _ _ _ w) as [[w2 evs2] o2].
  unfold eventsOf, outcomeOf. cbn [fst snd].
  cbv zeta in HP. unfold MAX_PAGES in HP.
  destruct HP as (P1 & P2 & P3 & P4 & P5). destruct HB as [_ HB].
  split; [exact P1|]. split; [lia|]. split; [exact P4|]. split; [|exact HB].
  destruct P5 as [P5|P5]; [left; lia|right; exact P5].
Qed.

(** C8. Without a credential (unset or empty) the run logs that the key is
    not set and returns at once: no request, no write, no timer, the world
    untouched, and the call completes normally. *)
Theorem missing_key_skips_the_run (env : Env) (w : world) :
  NEWSDATA_API_KEY env = None \/ NEWSDATA_API_KEY env = Some "" ->
  ingestNews env w = (w, [EvLog error KeyNotSet], Ok None)
  /\ fetchResults (eventsOf (ingestNews env w)) = []
  /\ writes (eventsOf (ingestNews env w)) = []
  /\ delays (eventsOf (ingestNews env w)) = []
  /\ worldOf (ingestNews env w) = w.
Proof.
  intros Hk.
  assert (E : ingestNews env w = (w, [EvLog error KeyNotSet], Ok None)).
  { destruct Hk as [Hk|Hk]; unfold ingestNews; rewrite Hk; reflexivity. }
  rewrite E. repeat split.
Qed.

(** C9. With a credential, when a request to upstream fails during a run,
    the run ends with that very failure thrown to its caller, the last thing
    it does being the error log line (status and body when the failure has
    a response, the message otherwise); no totals are returned. *)
Theorem transport_failure_ends_the_run (env : Env) (key : string) (w : world) :
  NEWSDATA_API_KEY env = Some key -> key <> "" ->
  forall e, inl e ∈ fetchResults (eventsOf (ingestNews env w)) ->
    outcomeOf (ingestNews env w) = Throw e
    /\ last (eventsOf (ingestNews env w)) = Some (EvLog error (catchLine e)).
Proof.
  intros Hkey Hne e. rewrite (ingestNews_step env key w Hkey Hne). cbv zeta.
  pose proof (batchLoop_failed_fetch
                (Batching.categoryBatches (Batching.allCategories (NEWS_FETCH_CATEGORIES env)))
                key (Batching.envOr (NEWS_FETCH_LANGUAGE env) "en") 0
                (length (Batching.categoryBatches
                           (Batching.allCategories (NEWS_FETCH_CATEGORIES env))))
                zeroTotals w) as HB.
  destruct (batchLoop _ _ _ _ _ _ w) as [[w1 evs] [tot|e'|]];
    unfold eventsOf, outcomeOf; cbn [fst snd fetchResults];
    rewrite ?fetchResults_app; cbn [fetchResults]; rewrite ?app_nil_r; intros He;
    specialize (HB e He); try discriminate.
  injection HB as ->. split; [reflexivity|].
  change (EvLog info ?x :: evs ++ ?l) with ((EvLog info x :: evs) ++ l).
  apply last_snoc.
Qed.

(** When upstream only ever refuses, every batch ends on its first answer
    and the totals stay as they were. *)
Lemma batchLoop_all_refused batches : forall key lang index count tot w,
  alwaysRefuses ->
  outcomeOf (batchLoop key lang batches index count tot w) = Ok tot.
Proof.
  induction batches as [|batch rest IH]; intros key lang index count tot w Hall;
    [reflexivity|].
  rewrite batchLoop_step. cbv zeta.
  change (Z.to_nat MAX_PAGES) with 3. rewrite pageLoop_step. cbv zeta.
  destruct (Hall (paramsOf key lang (JsString.join "," batch) Null) w)
    as (w1 & data & -> & -> & ->).
  cbn [negb].
  specialize (IH key lang (S index) count tot w1 Hall).
  destruct (batchLoop key lang rest (S index) count tot w1) as [[w2 evs2] o].
  exact IH.
Qed.

(** C6, amended. When the payload of a request reports a status other than
    ['success'], at any turn of the page loop, the loop logs the whole
    payload at error level and ends normally with the totals it had before
    that request: nothing is thrown, nothing is written, no timer is set,
    and what earlier pages of the batch added stays.  When this happens on
    the first request of a batch, the batch adds nothing and the remaining
    batches run from the same totals, after the inter-batch delay if there
    is a next batch. *)
Theorem non_success_payload_ends_only_the_batch
    (key lang : string) (batch : list string) (rest : list (list string))
    (index count b : nat) (page : Value) (pc : Z) (tot : Totals)
    (w w1 : world) (data : Value) :
  let cat := JsString.join "," batch in
  axios_get (paramsOf key lang cat page) w = (w1, inr data) ->
  nullish data = false ->
  isStr (prop data "status") "success" = false ->
  pageLoop (S b) key lang cat page pc tot w
  = (w1,
     [EvFetch (paramsOf key lang cat page) (inr data); EvLog error (ApiError cat data)],
     Ok tot)
  /\ (page = Null ->
      let r := batchLoop key lang rest (S index) count tot w1 in
      batchLoop key lang (batch :: rest) index count tot w
      = (worldOf r,
         [EvLog debug (FetchingBatch cat);
          EvFetch (paramsOf key lang cat Null) (inr data);
          EvLog error (ApiError cat data)]
         ++ (if Nat.ltb index (count - 1) then [EvDelay 1500] else [])
         ++ eventsOf r,
         outcomeOf r)).
Proof.
  intros cat Hfetch Hnull Hst.
  assert (Hloop : forall b' page' pc',
    axios_get (paramsOf key lang cat page') w = (w1, inr data) ->
    pageLoop (S b') key lang cat page' pc' tot w
    = (w1,
       [EvFetch (paramsOf key lang cat page') (inr data); EvLog error (ApiError cat data)],
       Ok tot)).
  { intros b' page' pc' Hf. rewrite pageLoop_step. cbv zeta.
    rewrite Hf, Hnull, Hst. reflexivity. }
  split; [by apply Hloop|].
  intros ->. cbv zeta. rewrite batchLoop_step. cbv zeta. fold cat.
  change (Z.to_nat MAX_PAGES) with 3. rewrite (Hloop 2 Null 0%Z Hfetch).
  destruct (batchLoop key lang rest (S index) count tot w1) as [[w2 evs2] o].
  reflexivity.
Qed.

(** C7, amended. When the first request of a batch is answered by
    [{status: "success", results: [], nextPage: null}], the batch adds one
    page and nothing else to the totals; its page loop makes that single
    request, logs it, and neither writes to the store nor waits.  The batch
    loop then goes on to the remaining batches, waiting the inter-batch
    1500 ms first exactly when the batch is not the last one. *)
Theorem empty_first_page_counts_one_page
    (key lang : string) (batch : list string) (rest : list (list string))
    (index count : nat) (tot : Totals) (w w1 : world) :
  let cat := JsString.join "," batch in
  let tot' := {| pages := pages tot + 1;
                 totalUpserted := totalUpserted tot;
                 totalModified := totalModified tot |} in
  let seen := [EvFetch (paramsOf key lang cat Null) (inr emptyPage);
               EvLog debug (Fetched (Num 0) 1)] in
  axios_get (paramsOf key lang cat Null) w = (w1, inr emptyPage) ->
  pageLoop (Z.to_nat MAX_PAGES) key lang cat Null 0 tot w = (w1, seen, Ok tot')
  /\ writes seen = [] /\ delays seen = []
  /\ (let r := batchLoop key lang rest (S index) count tot' w1 in
      batchLoop key lang (batch :: rest) index count tot w
      = (worldOf r,
         EvLog debug (FetchingBatch cat) :: seen
         ++ (if Nat.ltb index (count - 1) then [EvDelay 1500] else [])
         ++ eventsOf r,
         outcomeOf r)).
Proof.
  intros cat tot' seen Hfetch.
  assert (Hloop : pageLoop (Z.to_nat MAX_PAGES) key lang cat Null 0 tot w
                  = (w1, seen, Ok tot')).
  { change (Z.to_nat MAX_PAGES) with 3. rewrite pageLoop_step. cbv zeta.
    rewrite Hfetch. cbn.
    rewrite upsertArticles_none by reflexivity. cbn. subst tot' seen.
    by rewrite !Z.add_0_r. }
  split; [exact Hloop|]. split; [reflexivity|]. split; [reflexivity|].
  cbv zeta. rewrite batchLoop_step. cbv zeta. fold cat. rewrite Hloop.
  destruct (batchLoop key lang rest (S index) count tot' w1) as [[w2 evs2] o].
  reflexivity.
Qed.

(** C10. Without a credential a manual trigger that finds the guard free
    completes normally, leaves the guard free, and its result is [undefined]:
    no totals object at all.  With a credential a run never completes with
    [undefined]: it throws or returns a totals object, and when upstream
    answers every request with a non-success payload that object is the
    explicit [{pages: 0, upserted: 0, modified: 0}]. *)
Theorem missing_key_result_carries_no_counts (env : Env) (w : world) :
  NEWSDATA_API_KEY env = None \/ NEWSDATA_API_KEY env = Some "" ->
  Cron.triggerManualIngestion env false w = (false, (w, [EvLog error KeyNotSet], Ok None))
  /\ (forall key, key <> "" ->
        (exists tot, outcomeOf (ingestNews (withKey env key) w) = Ok (Some tot))
        \/ (exists e, outcomeOf (ingestNews (withKey env key) w) = Throw e))
  /\ (forall key, key <> "" -> alwaysRefuses ->
        outcomeOf (ingestNews (withKey env key) w) = Ok (Some zeroTotals)).
Proof.
  intros Hk. split; [|split].
  - unfold Cron.triggerManualIngestion.
    by rewrite (ingestNews_no_key env w Hk).
  - intros key Hne.
    rewrite (ingestNews_step (withKey env key) key w eq_refl Hne). cbv zeta.
    pose proof (batchLoop_bounded
      (Batching.categoryBatches
         (Batching.allCategories (NEWS_FETCH_CATEGORIES (withKey env key))))
      key (Batching.envOr (NEWS_FETCH_LANGUAGE (withKey env key)) "en") 0
      (length (Batching.categoryBatches
                 (Batching.allCategories (NEWS_FETCH_CATEGORIES (withKey env key)))))
      zeroTotals w) as HB.
    destruct (batchLoop _ _ _ _ _ _ w) as [[w1 evs] [tot|e|]].
    + left. eauto.
    + right. eauto.
    + by destruct HB.
  - intros key Hne Hall.
    rewrite (ingestNews_step (withKey env key) key w eq_refl Hne). cbv zeta.
    pose proof (batchLoop_all_refused
      (Batching.categoryBatches
         (Batching.allCategories (NEWS_FETCH_CATEGORIES (withKey env key))))
      key (Batching.envOr (NEWS_FETCH_LANGUAGE (withKey env key)) "en") 0
      (length (Batching.categoryBatches
                 (Batching.allCategories (NEWS_FETCH_CATEGORIES (withKey env key)))))
      zeroTotals w Hall) as HB.
    destruct (batchLoop _ _ _ _ _ _ w) as [[w1 evs] o].
    unfold outcomeOf in *. cbn [snd] in *. by subst o.
Qed.

End WithWorld.

(** C6 as stated fails: with one batch whose first page brings one new
    article and a token and whose second page reports status ['error'], the
    payload is logged and nothing is thrown, but the batch has added one page
    and one upserted article to the totals of the run. *)
Lemma error_on_second_page_keeps_first_page_totals :
  fetchResults (eventsOf errorOnSecondPage)
  = [inr (success (Arr [story "a1" "First"]) (Str "p2")); inr errorPayload]
  /\ isStr (prop errorPayload "status") "success" = false
  /\ last (removelast (eventsOf errorOnSecondPage))
     = Some (EvLog error (ApiError "technology" errorPayload))
  /\ outcomeOf errorOnSecondPage
     = Ok (Some {| pages := 1; totalUpserted := 1; totalModified := 0 |}).
Proof. vm_compute. repeat split. Qed.

(** At a concrete input: upstream refuses the first request of the first of
    two batches. *)
Lemma non_success_payload_witness :
  @pageLoop strictHost (constant errorPayload) 3 "k" "en" "technology" Null 0 zeroTotals tt
  = (tt,
     [EvFetch (paramsOf "k" "en" "technology" Null) (inr errorPayload);
      EvLog error (ApiError "technology" errorPayload)],
     Ok zeroTotals).
Proof.
  exact (proj1 (@non_success_payload_ends_only_the_batch strictHost (constant errorPayload)
                  "k" "en" ["technology"] [["sports"]] 0 2 2 Null 0%Z zeroTotals tt tt
                  errorPayload eq_refl eq_refl eq_refl)).
Defined.

(** C7 as stated fails: with two batches each answered by the empty page,
    the run waits 1500 ms after the first batch before it moves to the
    second. *)
Lemma empty_page_is_followed_by_the_batch_delay :
  eventsOf twoEmptyBatches
  = [EvLog info (Starting 6 2);
     EvLog debug (FetchingBatch "technology,business,science,health,sports");
     EvFetch (paramsOf "k" "en" "technology,business,science,health,sports" Null)
       (inr emptyPage);
     EvLog debug (Fetched (Num 0) 1);
     EvDelay 1500;
     EvLog debug (FetchingBatch "entertainment");
     EvFetch (paramsOf "k" "en" "entertainment" Null) (inr emptyPage);
     EvLog debug (Fetched (Num 0) 1);
     EvLog info (Complete 2 0 0)].
Proof. vm_compute. reflexivity. Qed.

(** At a concrete input: the first of two batches gets the empty page. *)
Lemma empty_first_page_witness :
  @pageLoop strictHost (constant emptyPage) 3 "k" "en" "technology" Null 0 zeroTotals tt
  = (tt,
     [EvFetch (paramsOf "k" "en" "technology" Null) (inr emptyPage);
      EvLog debug (Fetched (Num 0) 1)],
     Ok {| pages := 1; totalUpserted := 0; totalModified := 0 |}).
Proof.
  exact (proj1 (@empty_first_page_counts_one_page strictHost (constant emptyPage)
                  "k" "en" ["technology"] [["sports"]] 0 2 zeroTotals tt tt eq_refl)).
Defined.

(** At a concrete input: no key in the environment. *)
Lemma missing_key_witness :
  @ingestNews strictHost (scripted Store.StripUndefined) noKey (start [inr emptyPage])
  = (start [inr emptyPage], [EvLog error KeyNotSet], Ok None).
Proof.
  exact (proj1 (@missing_key_skips_the_run strictHost (scripted Store.StripUndefined) noKey
                  (start [inr emptyPage]) (or_introl eq_refl))).
Defined.

(** At a concrete input: the second request of a batch gets a 502, after
    the first page was written to the store. *)
Lemma transport_failure_witness :
  length (writes (eventsOf failureOnSecondPage)) = 1
  /\ outcomeOf failureOnSecondPage = Throw badGateway
  /\ last (eventsOf failureOnSecondPage)
     = Some (EvLog error (HttpError (Num 502) (Str "Bad Gateway"))).
Proof.
  split; [reflexivity|].
  apply (@transport_failure_ends_the_run strictHost (scripted Store.StripUndefined)
           oneCategory "k"
           (start [inr (success (Arr [story "a1" "First"]) (Str "p2")); inl badGateway])
           eq_refl).
  - discriminate.
  - apply list_elem_of_In. vm_compute. right. left. reflexivity.
Defined.

Lemma constant_error_refuses : @alwaysRefuses (constant errorPayload).
Proof. intros params []. exists tt, errorPayload. repeat split. Defined.

(** At a concrete input: no key, and, with a key, an upstream that refuses
    every request. *)
Lemma missing_key_result_witness :
  @Cron.triggerManualIngestion strictHost (constant errorPayload) noKey false tt
  = (false, (tt, [EvLog error KeyNotSet], Ok None))
  /\ outcomeOf (@ingestNews strictHost (constant errorPayload) (withKey noKey "k") tt)
     = Ok (Some zeroTotals).
Proof.
  pose proof (@missing_key_result_carries_no_counts strictHost (constant errorPayload)
                noKey tt (or_introl eq_refl)) as (A & _ & C).
  split; [exact A|]. apply C; [discriminate|exact constant_error_refuses].
Defined.

End IngestClaims.

(** ** Upserts *)

Module UpsertFacts.

Import Js Service Fields Schema Store Typing.

Lemma assign_other policy doc doc' k v k' :
  assign policy doc (k, v) = Some doc' -> k' <> k -> doc' !! k' = doc !! k'.
Proof.
  intros Ha Hne. unfold assign in Ha.
  assert (Hins : forall x, <[k := x]> doc !! k' = doc !! k').
  { intros x. by rewrite lookup_insert_ne. }
  destruct v as [x|tv].
  - destruct x; try (destruct policy; injection Ha as <-; by rewrite ?Hins);
      destruct (typeOf k) as [t|]; try discriminate;
      destruct (cast t _) as [x'|]; try discriminate; injection Ha as <-; apply Hins.
  - destruct (typeOf k) as [t|]; [|discriminate].
    destruct (cast t _) as [x'|]; [|discriminate]. injection Ha as <-. apply Hins.
Qed.


Lemma assign_undefined policy doc k :
  assign policy doc (k, FVal Undefined)
  = Some match policy with
         | StripUndefined => doc
         | UndefinedAsNull => <[k := FVal Null]> doc
         end.
Proof. by destruct policy. Qed.

(** A key outside the [$set] document keeps its stored value. *)
Lemma applySet_untouched policy assignments : forall doc doc' k,
  applySet policy assignments doc = Some doc' ->
  k ∉ map fst assignments ->
  doc' !! k = doc !! k.
Proof.
  induction assignments as [|[k0 v0] rest IH]; intros doc doc' k Ha Hk.
  { by injection Ha as <-. }
  cbn [map fst] in Hk. apply not_elem_of_cons in Hk as [Hne Hk].
  cbn [applySet] in Ha. destruct (assign policy doc (k0, v0)) as [doc1|] eqn:E1; [|done].
  rewrite (IH _ _ _ Ha Hk). by eapply assign_other.
Qed.


(** An [undefined] in the [$set] document leaves the field, or makes it
    [null]. *)
Lemma applySet_undefined policy assignments : forall doc doc' k,
  applySet policy assignments doc = Some doc' ->
  NoDup (map fst assignments) ->
  assigned assignments k = Some (FVal Undefined) ->
  doc' !! k = match policy with
              | StripUndefined => doc !! k
              | UndefinedAsNull => Some (FVal Null)
              end.
Proof.
  induction assignments as [|[k0 v0] rest IH]; intros doc doc' k Ha Hnd Hk; [discriminate|].
  cbn [map fst] in Hnd. apply NoDup_cons in Hnd as [Hfresh Hnd].
  cbn [assigned] in Hk. cbn [applySet] in Ha.
  destruct (assign policy doc (k0, v0)) as [doc1|] eqn:E1; [|done].
  destruct (String.eqb_spec k k0) as [->|Hne].
  - injection Hk as ->. rewrite (applySet_untouched _ _ _ _ _ Ha Hfresh).
    rewrite assign_undefined in E1. injection E1 as <-.
    destruct policy; [reflexivity|by rewrite lookup_insert_eq].
  - rewrite (IH _ _ _ Ha Hnd Hk). destruct policy; [|reflexivity].
    by eapply assign_other.
Qed.






Section WithHost.
Context `{JsDate.Host}.




End WithHost.



End UpsertFacts.

(** ** Dates *)

Module DateFacts.

Import Js Service.

Local Open Scope Z_scope.

Ltac euclid := Z.to_euclidean_division_equations; lia.

(** A decimal digit is one of ten naturals. *)
Lemma digit_nat (n : Z) :
  0 <= n <= 9 -> exists k : nat, (k < 10)%nat /\ n = Z.of_nat k.
Proof. intros Hn. exists (Z.to_nat n). lia. Qed.

Ltac each_digit H :=
  let k := fresh "k" in
  let Hk := fresh "Hk" in
  destruct (digit_nat _ H) as (k & Hk & ->);
  do 10 (destruct k as [|k]; [reflexivity|]); lia.

Lemma digitVal_digit n : 0 <= n <= 9 -> JsDate.digitVal (Civil.digit n) = Some n.
Proof. intros Hn. each_digit Hn. Qed.

Lemma digits_digit k acc n s :
  0 <= n <= 9 ->
  JsDate.digits (S k) acc (String (Civil.digit n) s) = JsDate.digits k (10 * acc + n) s.
Proof. intros Hn. cbn [JsDate.digits]. by rewrite digitVal_digit. Qed.

Lemma parseYear_digit n s :
  0 <= n <= 9 ->
  JsDate.parseYear (String (Civil.digit n) s) = JsDate.digits 4 0 (String (Civil.digit n) s).
Proof. intros Hn. each_digit Hn. Qed.

Lemma replace_digit n s :
  0 <= n <= 9 ->
  JsString.replace " " "T" (String (Civil.digit n) s)
  = String (Civil.digit n) (JsString.replace " " "T" s).
Proof. intros Hn. each_digit Hn. Qed.

Lemma pad2_digits n rest acc :
  0 <= n <= 99 ->
  JsDate.digits 2 acc (Civil.pad2 n rest) = Some (100 * acc + n, rest).
Proof.
  intros Hn. unfold Civil.pad2.
  rewrite !digits_digit by euclid. cbn [JsDate.digits]. do 2 f_equal. euclid.
Qed.

Lemma pad4_digits n rest :
  0 <= n <= 9999 ->
  JsDate.digits 4 0 (Civil.pad4 n rest) = Some (n, rest).
Proof.
  intros Hn. unfold Civil.pad4.
  rewrite !digits_digit by euclid. rewrite pad2_digits by euclid.
  do 2 f_equal. euclid.
Qed.

Lemma replace_pad2 n rest :
  0 <= n <= 99 ->
  JsString.replace " " "T" (Civil.pad2 n rest)
  = Civil.pad2 n (JsString.replace " " "T" rest).
Proof.
  intros Hn. unfold Civil.pad2. by rewrite !replace_digit by euclid.
Qed.

Lemma replace_pad4 n rest :
  0 <= n <= 9999 ->
  JsString.replace " " "T" (Civil.pad4 n rest)
  = Civil.pad4 n (JsString.replace " " "T" rest).
Proof.
  intros Hn. unfold Civil.pad4.
  rewrite !replace_digit by euclid. by rewrite replace_pad2 by euclid.
Qed.

Lemma append_pad2 n rest tail :
  (Civil.pad2 n rest +:+ tail)%string = Civil.pad2 n (rest +:+ tail).
Proof. reflexivity. Qed.

Lemma append_pad4 n rest tail :
  (Civil.pad4 n rest +:+ tail)%string = Civil.pad4 n (rest +:+ tail).
Proof. reflexivity. Qed.

(** The bounds that [valid] packs. *)
Lemma valid_bounds t :
  Civil.valid t = true ->
  0 <= Civil.year t <= 9999
  /\ 1 <= Civil.month t <= 12
  /\ 1 <= Civil.day t <= Civil.daysInMonth (Civil.year t) (Civil.month t)
  /\ 0 <= Civil.hour t <= 23
  /\ 0 <= Civil.minute t <= 59
  /\ 0 <= Civil.second t <= 59.
Proof.
  unfold Civil.valid. rewrite !andb_true_iff, !Z.leb_le. tauto.
Qed.

Lemma daysInMonth_le_31 y m : Civil.daysInMonth y m <= 31.
Proof.
  unfold Civil.daysInMonth. destruct (Civil.leap y);
    repeat match goal with |- context [match ?x with _ => _ end] => destruct x end; lia.
Qed.

(** The text the service hands to [Date]: the same digits with [T] for the
    space and [Z] at the end. *)
Lemma isoOf_format t :
  Civil.valid t = true ->
  isoOf (Str (Civil.format t)) = inr (Day.stamp t).
Proof.
  intros Hv. apply valid_bounds in Hv as (Hy & Hmo & Hd & Hh & Hmi & Hs).
  pose proof (daysInMonth_le_31 (Civil.year t) (Civil.month t)) as H31.
  unfold isoOf, Civil.format, Day.stamp. cbn [ToString]. f_equal.
  rewrite replace_pad4 by lia. cbn [JsString.replace Ascii.eqb Bool.eqb].
  rewrite replace_pad2 by lia. cbn [JsString.replace Ascii.eqb Bool.eqb].
  rewrite replace_pad2 by lia. cbn [JsString.replace Ascii.eqb Bool.eqb].
  reflexivity.
Qed.

Lemma parseYear_pad4 n rest :
  0 <= n <= 9999 -> JsDate.parseYear (Civil.pad4 n rest) = Some (n, rest).
Proof.
  intros Hn. unfold Civil.pad4 at 1. rewrite parseYear_digit by euclid.
  exact (pad4_digits n rest Hn).
Qed.

Lemma parseMonthDay_pad mo d rest :
  0 <= mo <= 99 -> 0 <= d <= 99 ->
  JsDate.parseMonthDay (String "-" (Civil.pad2 mo (String "-" (Civil.pad2 d rest))))
  = Some (mo, d, rest).
Proof.
  intros Hmo Hd. unfold JsDate.parseMonthDay.
  cbn [JsDate.lit Ascii.eqb Bool.eqb]. rewrite pad2_digits by lia.
  cbn [JsDate.lit Ascii.eqb Bool.eqb]. rewrite pad2_digits by lia.
  reflexivity.
Qed.

Lemma parseTime_pad h mi sec :
  0 <= h <= 99 -> 0 <= mi <= 99 -> 0 <= sec <= 99 ->
  JsDate.parseTime
    (Civil.pad2 h (String ":" (Civil.pad2 mi (String ":" (Civil.pad2 sec "Z")))))
  = Some (h, mi, sec, 0, "Z"%string).
Proof.
  intros Hh Hmi Hs. unfold JsDate.parseTime.
  rewrite pad2_digits by lia. cbn [JsDate.lit Ascii.eqb Bool.eqb].
  rewrite pad2_digits by lia. cbn [JsDate.lit Ascii.eqb Bool.eqb].
  rewrite pad2_digits by lia. reflexivity.
Qed.

(** The two calendars agree. *)
Lemma InLeapYear_leap y : JsDate.InLeapYear y = if Civil.leap y then 1 else 0.
Proof.
  unfold JsDate.InLeapYear, JsDate.DaysInYear, Civil.leap.
  destruct (y mod 4 =? 0), (y mod 100 =? 0), (y mod 400 =? 0); reflexivity.
Qed.

Lemma DayFromYear_next y :
  JsDate.DayFromYear (y + 1) = JsDate.DayFromYear y + Civil.yearLength y.
Proof.
  unfold JsDate.DayFromYear, Civil.yearLength, Civil.leap.
  destruct (Z.eqb_spec (y mod 4) 0), (Z.eqb_spec (y mod 100) 0),
    (Z.eqb_spec (y mod 400) 0); cbn [andb orb negb]; euclid.
Qed.

Lemma daysOfYears_DayFromYear n : forall from,
  Civil.daysOfYears from n
  = JsDate.DayFromYear (from + Z.of_nat n) - JsDate.DayFromYear from.
Proof.
  induction n as [|n IH]; intros from.
  - cbn [Civil.daysOfYears]. rewrite Z.add_0_r. lia.
  - cbn [Civil.daysOfYears]. rewrite IH, DayFromYear_next.
    replace (from + 1 + Z.of_nat n) with (from + Z.of_nat (S n)) by lia. lia.
Qed.

Lemma dayOfYearStart_DayFromYear y : Civil.dayOfYearStart y = JsDate.DayFromYear y.
Proof.
  assert (E : JsDate.DayFromYear 1970 = 0) by reflexivity.
  unfold Civil.dayOfYearStart. destruct (Z.leb_spec 1970 y).
  - rewrite daysOfYears_DayFromYear, E.
    replace (1970 + Z.of_nat (Z.to_nat (y - 1970))) with y by lia. lia.
  - rewrite daysOfYears_DayFromYear.
    replace (y + Z.of_nat (Z.to_nat (1970 - y))) with 1970 by lia. lia.
Qed.

(** A month number is one of twelve naturals. *)
Lemma month_nat (m : Z) :
  1 <= m <= 12 -> exists k : nat, (k < 12)%nat /\ m = Z.of_nat (S k).
Proof. intros Hm. exists (Z.to_nat (m - 1)). lia. Qed.

Ltac each_month H y tac :=
  let k := fresh "k" in
  let Hk := fresh "Hk" in
  destruct (month_nat _ H) as (k & Hk & ->);
  do 12 (destruct k as [|k]; [cbv -[Civil.leap]; destruct (Civil.leap y); tac ()|]);
  lia.

Lemma monthStart_daysOfMonths y m :
  1 <= m <= 12 ->
  JsDate.monthStart (m - 1) (JsDate.InLeapYear y)
  = Civil.daysOfMonths y (Z.to_nat (m - 1)).
Proof.
  intros Hm. rewrite InLeapYear_leap. each_month Hm y ltac:(fun _ => reflexivity).
Qed.

Lemma daysInMonth_agree y m :
  1 <= m <= 12 ->
  JsDate.monthLength (m - 1) (JsDate.InLeapYear y) = Civil.daysInMonth y m.
Proof.
  intros Hm. rewrite InLeapYear_leap. each_month Hm y ltac:(fun _ => reflexivity).
Qed.

Lemma DayFromYear_bounds y :
  0 <= y <= 9999 -> -800000 <= JsDate.DayFromYear y <= 3000000.
Proof. intros Hy. unfold JsDate.DayFromYear. euclid. Qed.

Lemma daysOfMonths_bounds y m :
  1 <= m <= 12 -> 0 <= Civil.daysOfMonths y (Z.to_nat (m - 1)) <= 335.
Proof.
  intros Hm. each_month Hm y ltac:(fun _ => split; discriminate).
Qed.

(** The time value of the parsed fields is the instant of the date-time. *)
Lemma timeValue_valid t :
  Civil.valid t = true ->
  JsDate.timeValue
    (JsDate.mkFields (Civil.year t) (Civil.month t) (Civil.day t)
       (Civil.hour t) (Civil.minute t) (Civil.second t) 0)
  = Some (Civil.instant t).
Proof.
  intros Hv. apply valid_bounds in Hv as (Hy & Hmo & Hd & Hh & Hmi & Hs).
  pose proof (daysInMonth_le_31 (Civil.year t) (Civil.month t)) as H31.
  pose proof (DayFromYear_bounds _ Hy) as HB.
  pose proof (daysOfMonths_bounds (Civil.year t) _ Hmo) as HM.
  unfold JsDate.timeValue. cbn [JsDate.year JsDate.month JsDate.day JsDate.hour
    JsDate.minute JsDate.second JsDate.millis].
  assert (E : JsDate.MakeDate
                (JsDate.MakeDay (Civil.year t) (Civil.month t - 1) (Civil.day t))
                (JsDate.MakeTime (Civil.hour t) (Civil.minute t) (Civil.second t) 0)
              = Civil.instant t).
  { unfold JsDate.MakeDate, JsDate.MakeDay, JsDate.MakeTime, Civil.instant, Civil.epochDay.
    replace ((Civil.month t - 1) / 12) with 0 by euclid.
    replace ((Civil.month t - 1) mod 12) with (Civil.month t - 1) by euclid.
    rewrite Z.add_0_r, monthStart_daysOfMonths, dayOfYearStart_DayFromYear by lia.
    unfold JsDate.msPerDay, JsDate.msPerHour, JsDate.msPerMinute, JsDate.msPerSecond.
    lia. }
  rewrite E. unfold JsDate.TimeClip.
  destruct (Z.leb_spec (Z.abs (Civil.instant t)) 8640000000000000) as [_|Hbig];
    [reflexivity|].
  exfalso. revert Hbig. unfold Civil.instant, Civil.epochDay.
  rewrite dayOfYearStart_DayFromYear. lia.
Qed.

Lemma parseUtcDateTime_format t :
  Civil.valid t = true ->
  JsDate.parseUtcDateTime (Day.stamp t)
  = Some (JsDate.mkFields (Civil.year t) (Civil.month t) (Civil.day t)
            (Civil.hour t) (Civil.minute t) (Civil.second t) 0).
Proof.
  intros Hv. unfold Day.stamp.
  apply valid_bounds in Hv as (Hy & Hmo & Hd & Hh & Hmi & Hs).
  pose proof (daysInMonth_le_31 (Civil.year t) (Civil.month t)) as H31.
  unfold JsDate.parseUtcDateTime.
  rewrite parseYear_pad4 by lia. rewrite parseMonthDay_pad by lia.
  cbn [JsDate.lit Ascii.eqb Bool.eqb]. rewrite parseTime_pad by lia.
  unfold JsDate.inRange. cbn [JsDate.year JsDate.month JsDate.day JsDate.hour
    JsDate.minute JsDate.second JsDate.millis].
  rewrite daysInMonth_agree by lia.
  replace (1 <=? Civil.month t) with true by (symmetry; apply Z.leb_le; lia).
  replace (Civil.month t <=? 12) with true by (symmetry; apply Z.leb_le; lia).
  replace (1 <=? Civil.day t) with true by (symmetry; apply Z.leb_le; lia).
  replace (Civil.day t <=? Civil.daysInMonth (Civil.year t) (Civil.month t))
    with true by (symmetry; apply Z.leb_le; lia).
  replace (Civil.hour t <=? 23) with true by (symmetry; apply Z.leb_le; lia).
  replace (Civil.minute t <=? 59) with true by (symmetry; apply Z.leb_le; lia).
  replace (Civil.second t <=? 59) with true by (symmetry; apply Z.leb_le; lia).
  reflexivity.
Qed.

Lemma format_length t : String.length (Civil.format t) = 19%nat.
Proof. reflexivity. Qed.

Lemma format_truthy t : truthy (Str (Civil.format t)) = true.
Proof. reflexivity. Qed.

(** A well-formed date field gives the [Date] of its instant. *)
Lemma parsedDate_format `{JsDate.Host} t :
  Civil.valid t = true ->
  parsedDate (Str (Civil.format t)) = inr (FDate (Civil.instant t)).
Proof.
  intros Hv. unfold parsedDate. rewrite format_truthy, isoOf_format by exact Hv.
  unfold JsDate.parse. rewrite parseUtcDateTime_format by exact Hv.
  by rewrite timeValue_valid.
Qed.

End DateFacts.

Module DateClaims.

Import Js Service Fields DateFacts.

Section WithHost.
Context `{JsDate.Host}.

(** The update built for a record whose date field is a string. *)
Lemma updateOneOf_text article s :
  nullish article = false -> prop article "pubDate" = Str s -> s <> EmptyString ->
  exists op,
    updateOneOf article = inr op
    /\ assigned (set op) "pubDate"
       = Some match JsDate.parse (JsString.replace " " "T" s +:+ "Z") with
              | Some tv => FDate tv
              | None => FVal Null
              end.
Proof.
  intros Hn Hs Hne. unfold updateOneOf. rewrite Hs. unfold parsedDate, isoOf.
  cbn [truthy ToString]. destruct s as [|c s]; [done|]. cbn [JsString.nonEmpty].
  destruct (JsDate.parse _) as [tv|]; destruct article; try done; eexists; by split.
Qed.

Lemma updateOneOf_absent article :
  nullish article = false -> truthy (prop article "pubDate") = false ->
  exists op,
    updateOneOf article = inr op /\ assigned (set op) "pubDate" = Some (FVal Null).
Proof.
  intros Hn Hf. unfold updateOneOf, parsedDate. rewrite Hf.
  destruct article; try done; eexists; by split.
Qed.

(** C4, amended. A record whose date field reads [YYYY-MM-DD HH:mm:ss]
    with the fields of a real date and time is written with the [Date] of
    that instant in UTC.  A record whose date field is absent or falsy is
    written with [null].  A record whose date field is any other string is
    written with the [Date] the engine's parser gives for the rewritten text
    (first space replaced by [T], [Z] appended), and with [null] when the
    parser refuses it; building the update does not throw, so a page of
    records whose date fields are strings or absent gives one update per
    record.  A date field that is an object with a [toString] of its own is
    not absorbed: the conversion throws. *)
Theorem valid_date_is_parsed_and_bad_date_is_absorbed (t : Civil.DateTime) :
  Civil.valid t = true ->
  parsedDate (Str (Civil.format t)) = inr (FDate (Civil.instant t))
  /\ (forall article,
        nullish article = false -> prop article "pubDate" = Str (Civil.format t) ->
        exists op, updateOneOf article = inr op
                   /\ assigned (set op) "pubDate" = Some (FDate (Civil.instant t)))
  /\ (forall article,
        nullish article = false -> truthy (prop article "pubDate") = false ->
        exists op, updateOneOf article = inr op
                   /\ assigned (set op) "pubDate" = Some (FVal Null))
  /\ (forall article s,
        nullish article = false -> prop article "pubDate" = Str s -> s <> EmptyString ->
        exists op,
          updateOneOf article = inr op
          /\ assigned (set op) "pubDate"
             = Some match JsDate.parse (JsString.replace " " "T" s +:+ "Z") with
                    | Some tv => FDate tv
                    | None => FVal Null
                    end)
  /\ (forall items,
        Forall (fun article =>
                  nullish article = false
                  /\ (truthy (prop article "pubDate") = false
                      \/ exists s, prop article "pubDate" = Str s)) items ->
        exists ops, mapOps items = inr ops /\ length ops = length items)
  /\ (forall article fields own,
        nullish article = false -> prop article "pubDate" = Obj fields ->
        assoc fields "toString" = Some own ->
        updateOneOf article = inl cannotConvert).
Proof.
  intros Hv. split; [by apply parsedDate_format|].
  split; [|split; [exact updateOneOf_absent|split; [exact updateOneOf_text|split]]].
  - intros article Hn Hs. unfold updateOneOf. rewrite Hs, (parsedDate_format t Hv).
    destruct article; try done; eexists; by split.
  - induction 1 as [|article items [Hn Hd] _ (ops & Hops & Hlen)]; [by exists []|].
    assert (Hop : exists op, updateOneOf article = inr op).
    { destruct Hd as [Hf|[s Hs]].
      - destruct (updateOneOf_absent article Hn Hf) as (op & Hop & _). eauto.
      - destruct s as [|c s].
        + destruct (updateOneOf_absent article Hn) as (op & Hop & _); [by rewrite Hs|eauto].
        + destruct (updateOneOf_text article _ Hn Hs) as (op & Hop & _); [done|eauto]. }
    destruct Hop as [op Hop]. exists (op :: ops). cbn [mapOps length].
    by rewrite Hop, Hops, Hlen.
  - intros article fields own Hn Hs Hown. unfold updateOneOf, parsedDate, isoOf.
    rewrite Hs. cbn [truthy ToString]. rewrite Hown. by destruct article.
Qed.

End WithHost.

(** C4 as stated fails: a date without seconds, or one already written
    with [T], is not of the form [YYYY-MM-DD HH:mm:ss], yet after the
    rewriting it is a date-time of the standard format, which every engine
    parses: [pubDate] is present. *)
Lemma date_without_seconds_is_still_parsed :
  ~ Civil.wellFormed "2026-02-20 17:45"
  /\ ~ Civil.wellFormed "2026-02-20T17:45:00"
  /\ forall host : JsDate.Host,
       @parsedDate host (Str "2026-02-20 17:45") = inr (FDate 1771609500000)
       /\ @parsedDate host (Str "2026-02-20T17:45:00") = inr (FDate 1771609500000).
Proof.
  split; [|split].
  - intros (t & _ & E). apply (f_equal String.length) in E.
    rewrite format_length in E. discriminate.
  - intros (t & _ & E). injection E as _ _ _ _ _ _ _ _ _ _ E _. discriminate.
  - intros host. split; reflexivity.
Qed.

(** At a concrete input: the date of the comment in the source. *)
Lemma valid_date_witness :
  @parsedDate Scenario.strictHost (Str "2026-02-20 17:45:00") = inr (FDate 1771609500000).
Proof.
  exact (proj1 (@valid_date_is_parsed_and_bad_date_is_absorbed Scenario.strictHost
                  (Civil.mkDateTime 2026 2 20 17 45 0) eq_refl)).
Defined.

End DateClaims.

(** ** The claim about the run guard *)

Module GuardClaims.

Import Js Service Observe Guard GuardInv GuardFacts.

Section WithWorld.
Context `{JsDate.Host} `{World}.

(** C1. In every state the process can reach (after start-up, with or
    without the immediate first run, and any sequence of ticks, manual
    requests and run ends) at most one run is in flight and the single flag
    is set exactly then.  A tick or a manual request gets the guard exactly
    when no run is in flight, and is otherwise turned away with the "already
    running" answer, the state unchanged.  The end of the run in flight,
    failed or not, clears the flag, after which either kind of request gets
    the guard.

    The steps are those of the code: a request changes the flag as the
    head of the two entry points does and starts a run exactly when that
    head goes on, and the end of the run in flight changes it as their
    [finally] does.  Run to completion from any value of the flag, the cron
    callback and [triggerManualIngestion] are that head, the run and that
    [finally]: with the flag set they do not start a run (a warning, or the
    thrown "already in progress" error) and leave the flag set; from a free
    guard they make the run of [ingestNews] (the manual trigger ending as it
    does, the callback logging the trigger before it and the failure after
    it) and leave the guard free however the run ended.  In a reachable
    state a request is answered as the entry point of the code behaves on
    that state's flag. *)
Theorem run_guard_single_flight
    (fetchOnStart : bool) (inputs : list Input) (env : Env) (w : world) :
  let s := run (boot fetchOnStart) inputs in
  let ran := ingestNews env w in
  let logged :=
    EvLog info CronTriggered :: eventsOf ran
    ++ match outcomeOf ran with
       | Throw e => [EvLog error (CronFailed (message e))]
       | _ => []
       end in
  length (running s) <= 1
  /\ isRunning s = negb (bool_decide (running s = []))
  /\ (forall t,
        step s (Ask t)
        = if bool_decide (running s = [])
          then ({| isRunning := true; running := [callerOf t] |}, Started)
          else (s, rejection t))
  /\ (forall c failed,
        let s' := fst (step s (RunEnds c failed)) in
        if bool_decide (c ∈ running s)
        then isRunning s' = false /\ running s' = []
             /\ forall t, snd (step s' (Ask t)) = Started
        else step s (RunEnds c failed) = (s, Ignored))
  /\ Cron.triggerManualIngestion env true w = (true, (w, [], Throw Cron.alreadyInProgress))
  /\ Cron.cronTick env true w = (true, (w, [EvLog warn CronSkipped]))
  /\ fst (Cron.triggerManualIngestion env false w) = false
  /\ fst (Cron.cronTick env false w) = false
  /\ Cron.triggerManualIngestion env false w = (false, ran)
  /\ Cron.cronTick env false w = (false, (worldOf ran, logged))
  /\ outcomeOf ran <> Unfinished
  /\ (forall t,
        isRunning (fst (step s (Ask t))) = fst (Entry.acquire (isRunning s))
        /\ (snd (step s (Ask t)) = Started <-> snd (Entry.acquire (isRunning s)) = true)
        /\ (snd (step s (Ask t)) = rejection t
            <-> snd (Entry.acquire (isRunning s)) = false))
  /\ (forall c failed,
        c ∈ running s ->
        isRunning (fst (step s (RunEnds c failed))) = Entry.release (isRunning s))
  /\ (forall flag,
        Cron.triggerManualIngestion env flag w
        = if snd (Entry.acquire flag)
          then (Entry.release (fst (Entry.acquire flag)), ran)
          else (fst (Entry.acquire flag), (w, [], Throw Cron.alreadyInProgress)))
  /\ (forall flag,
        Cron.cronTick env flag w
        = if snd (Entry.acquire flag)
          then (Entry.release (fst (Entry.acquire flag)), (worldOf ran, logged))
          else (fst (Entry.acquire flag), (w, [EvLog warn CronSkipped])))
  /\ (snd (step s (Ask ManualRequest)) = Started
      <-> Cron.triggerManualIngestion env (isRunning s) w = (false, ran))
  /\ (snd (step s (Ask ManualRequest)) = Thrown Cron.alreadyInProgress
      <-> Cron.triggerManualIngestion env (isRunning s) w
          = (true, (w, [], Throw Cron.alreadyInProgress)))
  /\ (snd (step s (Ask Tick)) = Started
      <-> Cron.cronTick env (isRunning s) w = (false, (worldOf ran, logged)))
  /\ (snd (step s (Ask Tick)) = Skipped
      <-> Cron.cronTick env (isRunning s) w = (true, (w, [EvLog warn CronSkipped]))).
Proof.
  intros s ran logged.
  assert (Hs : coherent s) by (apply run_coherent, boot_coherent).
  pose proof (IngestFacts.entry_points_release env w) as (E1 & E2 & E3 & E4).
  pose proof (IngestFacts.entry_points_start env w) as [S1 S2].
  pose proof (IngestFacts.ingestNews_finishes env w) as Hfin.
  fold ran in S1, S2, Hfin. fold logged in S2.
  assert (Hrun : forall c failed,
            c ∈ running s ->
            isRunning (fst (step s (RunEnds c failed))) = Entry.release (isRunning s)).
  { intros c failed Hin. unfold step. by rewrite bool_decide_eq_true_2. }
  assert (Hmanual : forall flag,
            Cron.triggerManualIngestion env flag w
            = if snd (Entry.acquire flag)
              then (Entry.release (fst (Entry.acquire flag)), ran)
              else (fst (Entry.acquire flag), (w, [], Throw Cron.alreadyInProgress))).
  { intros []; [exact E3|exact S1]. }
  assert (Htick : forall flag,
            Cron.cronTick env flag w
            = if snd (Entry.acquire flag)
              then (Entry.release (fst (Entry.acquire flag)), (worldOf ran, logged))
              else (fst (Entry.acquire flag), (w, [EvLog warn CronSkipped]))).
  { intros []; [exact E4|exact S2]. }
  clearbody ran logged.
  destruct s as [flag rs].
  destruct Hs as [[Hf Hr]|[Ht [c Hr]]]; cbn [isRunning running] in *; subst.
  - split; [simpl; lia|]. split; [reflexivity|].
    split; [intros []; reflexivity|].
    split. { intros c failed. rewrite bool_decide_eq_false_2 by (apply not_elem_of_nil).
             reflexivity. }
    do 7 (split; [done|]).
    split; [intros []; by repeat split|].
    split; [exact Hrun|]. split; [exact Hmanual|]. split; [exact Htick|].
    cbn [step isRunning running fst snd]. rewrite S1, S2. by repeat split.
  - split; [simpl; lia|]. split; [reflexivity|].
    split; [intros []; reflexivity|].
    split. { intros c' failed. unfold step. cbn [isRunning running].
             case_bool_decide as Hin; cbn [fst snd isRunning running]; [|reflexivity].
             apply list_elem_of_singleton in Hin as ->. rewrite remove_only.
             split; [reflexivity|split; [reflexivity|]]. intros []; reflexivity. }
    do 7 (split; [done|]).
    split; [intros []; by repeat split|].
    split; [exact Hrun|]. split; [exact Hmanual|]. split; [exact Htick|].
    cbn [step isRunning running fst snd]. rewrite E3, E4. by repeat split.
Qed.

End WithWorld.

End GuardClaims.

(** ** Induction along the loops of a run *)

Module LoopInduction.

Import Js Service Observe Trace PageLoopFacts IngestFacts.

Section WithWorld.
Context `{JsDate.Host} `{World}.

Lemma mapOps_shape items : forall ops,
  mapOps items = inr ops ->
  length ops = length items
  /\ Forall (fun op => upsert op = true) ops
  /\ Forall2 (fun article op => filter_article_id op = prop article "article_id"
                                /\ (exists date,
                                       parsedDate (prop article "pubDate") = inr date
                                       /\ set op = setOf article date)) items ops.
Proof.
  induction items as [|article rest IH]; intros ops; cbn [mapOps].
  - intros [= <-]. repeat split; constructor.
  - destruct (updateOneOf article) as [e|op] eqn:Eop; [discriminate|].
    destruct (mapOps rest) as [e|ops'] eqn:Erest; [discriminate|].
    intros [= <-]. destruct (IH ops' eq_refl) as (L & U & F).
    assert (Hop : upsert op = true /\ filter_article_id op = prop article "article_id"
                  /\ (exists date,
                         parsedDate (prop article "pubDate") = inr date
                         /\ set op = setOf article date)).
    { unfold updateOneOf in Eop.
      destruct (parsedDate (prop article "pubDate")) as [e|date] eqn:Ed.
      - destruct article; discriminate.
      - destruct article; try discriminate; injection Eop as <-; repeat split; by exists date. }
    destruct Hop as (Hu & Hf & Hs).
    split; [cbn; lia|]. split; constructor; auto.
Qed.

Lemma upsertArticles_case articles w : UpsertCase articles w (upsertArticles articles w).
Proof.
  unfold upsertArticles.
  destruct (negb (truthy articles) || isZero (length_of articles)) eqn:E.
  { by apply nothing_to_write. }
  destruct articles; try apply map_throws.
  destruct (mapOps items) as [e|ops] eqn:Eops; [apply map_throws|].
  assert (Hne : items <> []).
  { intros ->. cbn in E. discriminate. }
  unfold bind, bulkWrite.
  destruct (Article_bulkWrite ops w) as [w1 [e|r]] eqn:Ew.
  - by eapply write_fails.
  - by eapply written.
Qed.

(** Induction on the page loop of one batch: a property of the loop state
    and of what the loop does from it holds for every run of the loop if it
    holds for each way one turn can end and is carried from the rest of the
    loop to the turn before it. *)
Section PageLoop.
Variables (key lang cat : string).
Variable P : Value -> Z -> Totals -> world -> world * list Event * Outcome Totals -> Prop.

Let params (page : Value) : Params := paramsOf key lang cat page.
Let seen (page : Value) (pc : Z) (data : Value) : list Event :=
  [EvFetch (params page) (inr data);
   EvLog debug (Fetched (length_of (articlesOf data)) (pc + 1))].
Let plus (tot : Totals) (counts : Counts) : Totals :=
  {| pages := pages tot + 1;
     totalUpserted := totalUpserted tot + upserted counts;
     totalModified := totalModified tot + modified counts |}.
Let again (pc : Z) (data : Value) : bool :=
  truthy (or (prop data "nextPage") Null) && (pc + 1 <? MAX_PAGES)%Z.

Hypothesis out_of_budget : forall page pc tot w, P page pc tot w (w, [], Unfinished).
Hypothesis fetch_fails : forall page pc tot w w1 e,
  axios_get (params page) w = (w1, inl e) ->
  P page pc tot w (w1, [EvFetch (params page) (inl e)], Throw e).
Hypothesis no_payload : forall page pc tot w w1 data,
  axios_get (params page) w = (w1, inr data) -> nullish data = true ->
  P page pc tot w
    (w1, [EvFetch (params page) (inr data)],
     Throw (TypeError "Cannot read properties of null or undefined")).
Hypothesis refused : forall page pc tot w w1 data,
  axios_get (params page) w = (w1, inr data) -> isPage (inr data) = false ->
  nullish data = false ->
  P page pc tot w
    (w1, [EvFetch (params page) (inr data); EvLog error (ApiError cat data)], Ok tot).
Hypothesis upsert_fails : forall page pc tot w w1 data w2 evsU e,
  axios_get (params page) w = (w1, inr data) -> isPage (inr data) = true ->
  upsertArticles (articlesOf data) w1 = (w2, evsU, Throw e) ->
  P page pc tot w (w2, seen page pc data ++ evsU, Throw e).
Hypothesis last_page : forall page pc tot w w1 data w2 evsU counts,
  axios_get (params page) w = (w1, inr data) -> isPage (inr data) = true ->
  upsertArticles (articlesOf data) w1 = (w2, evsU, Ok counts) ->
  again pc data = false ->
  P page pc tot w (w2, seen page pc data ++ evsU, Ok (plus tot counts)).
Hypothesis more_pages : forall page pc tot w w1 data w2 evsU counts w3 evs3 o,
  axios_get (params page) w = (w1, inr data) -> isPage (inr data) = true ->
  upsertArticles (articlesOf data) w1 = (w2, evsU, Ok counts) ->
  again pc data = true ->
  P (or (prop data "nextPage") Null) (pc + 1)%Z (plus tot counts) w2 (w3, evs3, o) ->
  P page pc tot w (w3, seen page pc data ++ evsU ++ EvDelay 1000 :: evs3, o).

Lemma pageLoop_cases b : forall page pc tot w,
  P page pc tot w (pageLoop b key lang cat page pc tot w).
Proof.
  induction b as [|b IH]; intros page pc tot w; [apply out_of_budget|].
  rewrite pageLoop_step. cbv zeta. fold (params page).
  destruct (axios_get (params page) w) as [w1 [e|data]] eqn:Ef; [by apply fetch_fails|].
  destruct (nullish data) eqn:Hn; [by apply no_payload|].
  destruct (isStr (prop data "status") "success") eqn:Hs; cbn [negb].
  2:{ apply refused; try done. cbn. by rewrite Hn, Hs. }
  assert (Hp : isPage (inr data) = true) by (cbn; by rewrite Hn, Hs).
  fold (articlesOf data).
  pose proof (upsertArticles_trace (articlesOf data) w1) as HU.
  destruct (upsertArticles (articlesOf data) w1) as [[w2 evsU] [counts|e|]] eqn:Eu;
    destruct HU as (_ & _ & HUo); [| |congruence].
  2:{ by eapply upsert_fails. }
  fold (again pc data). fold (plus tot counts).
  destruct (again pc data) eqn:Ea.
  - specialize (IH (or (prop data "nextPage") Null) (pc + 1)%Z (plus tot counts) w2).
    destruct (pageLoop b key lang cat _ _ _ w2) as [[w3 evs3] o].
    by eapply more_pages.
  - by eapply last_page.
Qed.

End PageLoop.

(** Induction on the batch loop. *)
Section BatchLoop.
Variables (key lang : string) (count : nat).
Variable P : list (list string) -> nat -> Totals -> world
             -> world * list Event * Outcome Totals -> Prop.

Let loopOf (batch : list string) (tot : Totals) (w : world) :=
  pageLoop (Z.to_nat MAX_PAGES) key lang (JsString.join "," batch) Null 0 tot w.

Hypothesis no_batch_left : forall index tot w, P [] index tot w (w, [], Ok tot).
Hypothesis batch_throws : forall batch rest index tot w w1 evs1 e,
  loopOf batch tot w = (w1, evs1, Throw e) ->
  P (batch :: rest) index tot w
    (w1, EvLog debug (FetchingBatch (JsString.join "," batch)) :: evs1, Throw e).
Hypothesis batch_done : forall batch rest index tot w w1 evs1 tot' w2 evs2 o,
  loopOf batch tot w = (w1, evs1, Ok tot') ->
  P rest (S index) tot' w1 (w2, evs2, o) ->
  P (batch :: rest) index tot w
    (w2,
     EvLog debug (FetchingBatch (JsString.join "," batch))
     :: evs1 ++ batchGap index count ++ evs2,
     o).

Lemma batchLoop_cases batches : forall index tot w,
  P batches index tot w (batchLoop key lang batches index count tot w).
Proof.
  induction batches as [|batch rest IH]; intros index tot w; [apply no_batch_left|].
  rewrite batchLoop_step. cbv zeta.
  pose proof (pageLoop_bounded (Z.to_nat MAX_PAGES) key lang
                (JsString.join "," batch) Null 0%Z tot w
                ltac:(unfold MAX_PAGES; lia) ltac:(unfold MAX_PAGES; lia)) as HP.
  fold (loopOf batch tot w) in HP |- *.
  destruct (loopOf batch tot w) as [[w1 evs1] [tot'|e|]] eqn:El.
  - specialize (IH (S index) tot' w1).
    destruct (batchLoop key lang rest (S index) count tot' w1) as [[w2 evs2] o].
    by eapply batch_done.
  - by eapply batch_throws.
  - cbv zeta in HP. by destruct HP.
Qed.

End BatchLoop.

End WithWorld.

End LoopInduction.

(** ** What a run does, read off its trace *)

Module RunFacts.

Import Js Service Observe Trace PageLoopFacts IngestFacts LoopInduction.

Lemma fetches_app evs1 evs2 : fetches (evs1 ++ evs2) = fetches evs1 ++ fetches evs2.
Proof. induction evs1 as [|[] evs1 IH]; simpl; rewrite ?IH; reflexivity. Qed.

Lemma upsertedSum_app evs1 evs2 :
  upsertedSum (evs1 ++ evs2) = (upsertedSum evs1 + upsertedSum evs2)%Z.
Proof.
  induction evs1 as [|[? ?|? [?|?]|?|? ?] evs1 IH]; cbn [app upsertedSum];
    rewrite ?IH; lia.
Qed.

Lemma modifiedSum_app evs1 evs2 :
  modifiedSum (evs1 ++ evs2) = (modifiedSum evs1 + modifiedSum evs2)%Z.
Proof.
  induction evs1 as [|[? ?|? [?|?]|?|? ?] evs1 IH]; cbn [app modifiedSum];
    rewrite ?IH; lia.
Qed.

Lemma pagesProcessed_app evs1 evs2 :
  pagesProcessed (evs1 ++ evs2) = (pagesProcessed evs1 + pagesProcessed evs2)%Z.
Proof.
  unfold pagesProcessed. rewrite fetchResults_app, List.filter_app, length_app. lia.
Qed.

Lemma waits_app ms evs1 evs2 : waits ms (evs1 ++ evs2) = waits ms evs1 + waits ms evs2.
Proof. unfold waits. by rewrite delays_app, List.filter_app, length_app. Qed.

Lemma fetches_length evs : length (fetches evs) = length (fetchResults evs).
Proof. induction evs as [|[] evs IH]; simpl; rewrite ?IH; reflexivity. Qed.

Section WithWorld.
Context `{JsDate.Host} `{World}.

(** What [upsertArticles] leaves in the trace. *)
Lemma upsert_trace articles w w2 evsU o :
  upsertArticles articles w = (w2, evsU, o) ->
  fetches evsU = [] /\ fetchResults evsU = [] /\ delays evsU = []
  /\ (forall counts, o = Ok counts ->
        upserted counts = upsertedSum evsU /\ modified counts = modifiedSum evsU)
  /\ Forall (fun ops =>
       ops <> []
       /\ Forall (fun op => upsert op = true
                   /\ exists article, filter_article_id op = prop article "article_id"
                                      /\ (exists date,
                                             parsedDate (prop article "pubDate") = inr date
                                             /\ set op = setOf article date)) ops)
       (writes evsU).
Proof.
  intros E. pose proof (upsertArticles_case articles w) as C. rewrite E in C.
  assert (Hops : forall items ops, items <> [] -> mapOps items = inr ops ->
            ops <> []
            /\ Forall (fun op => upsert op = true
                        /\ exists article, filter_article_id op = prop article "article_id"
                                           /\ (exists date,
                                                  parsedDate (prop article "pubDate") = inr date
                                                  /\ set op = setOf article date)) ops).
  { intros items ops Hne Hm. destruct (mapOps_shape items ops Hm) as (L & U & F).
    split; [intros ->; destruct items; [done|discriminate L]|].
    clear L Hne Hm. induction F as [|a op items' ops' [Hf Hs] F IH]; constructor.
    - split; [by inversion U|eauto].
    - apply IH. by inversion U. }
  inversion C as [Hn|e|items ops w1 e Ha Hne Hm Hw|items ops w1 r Ha Hne Hm Hw]; subst;
    cbn [fetches fetchResults delays writes upsertedSum modifiedSum];
    (split; [reflexivity|split; [reflexivity|split; [reflexivity|split]]]).
  - intros counts [= <-]. by cbn.
  - constructor.
  - intros counts [=].
  - constructor.
  - intros counts [=].
  - constructor; [by eapply Hops|constructor].
  - intros counts [= <-]. cbn. lia.
  - constructor; [by eapply Hops|constructor].
Qed.

End WithWorld.

End RunFacts.

(** ** Accounting, threading, writes and waits of a run *)

Module RunExtras.

Import Js Service Observe Trace PageLoopFacts IngestFacts LoopInduction RunFacts.

Lemma pagesProcessed_seen p r level line :
  pagesProcessed [EvFetch p r; EvLog level line] = if isPage r then 1%Z else 0%Z.
Proof. unfold pagesProcessed. cbn. by destruct (isPage r). Qed.

Section WithWorld.
Context `{JsDate.Host} `{World}.

(** The totals a page loop returns are the totals it was given plus what
    its own trace shows. *)
Lemma pageLoop_accounts b key lang cat : forall page pc tot w,
  forall tot', outcomeOf (pageLoop b key lang cat page pc tot w) = Ok tot' ->
  let evs := eventsOf (pageLoop b key lang cat page pc tot w) in
  pages tot' = (pages tot + pagesProcessed evs)%Z
  /\ totalUpserted tot' = (totalUpserted tot + upsertedSum evs)%Z
  /\ totalModified tot' = (totalModified tot + modifiedSum evs)%Z.
Proof.
  apply (pageLoop_cases key lang cat
    (fun page pc tot w r => forall tot', outcomeOf r = Ok tot' ->
       pages tot' = (pages tot + pagesProcessed (eventsOf r))%Z
       /\ totalUpserted tot' = (totalUpserted tot + upsertedSum (eventsOf r))%Z
       /\ totalModified tot' = (totalModified tot + modifiedSum (eventsOf r))%Z));
    unfold outcomeOf, eventsOf; cbn [fst snd]; try (intros; discriminate).
  - intros page pc tot w w1 data _ Hp _ tot' [= <-].
    rewrite pagesProcessed_seen, Hp. cbn. lia.
  - intros page pc tot w w1 data w2 evsU counts _ Hp Eu _ tot' [= <-].
    destruct (upsert_trace _ _ _ _ _ Eu) as (_ & Hf & _ & Hc & _).
    destruct (Hc counts eq_refl) as [-> ->].
    rewrite pagesProcessed_app, upsertedSum_app, modifiedSum_app, pagesProcessed_seen, Hp.
    unfold pagesProcessed at 1. rewrite Hf. cbn. lia.
  - intros page pc tot w w1 data w2 evsU counts w3 evs3 o _ Hp Eu _ IH tot' Ho.
    destruct (upsert_trace _ _ _ _ _ Eu) as (_ & Hf & _ & Hc & _).
    destruct (Hc counts eq_refl) as [Hu Hm].
    destruct (IH tot' Ho) as (I1 & I2 & I3). cbn [pages totalUpserted totalModified] in *.
    rewrite !pagesProcessed_app, !upsertedSum_app, !modifiedSum_app, pagesProcessed_seen, Hp.
    change (EvDelay 1000 :: evs3) with ([EvDelay 1000] ++ evs3).
    rewrite !pagesProcessed_app, !upsertedSum_app, !modifiedSum_app.
    unfold pagesProcessed at 1 2. rewrite Hf. cbn. lia.
Qed.

Lemma batchLoop_accounts key lang count batches : forall index tot w,
  forall tot', outcomeOf (batchLoop key lang batches index count tot w) = Ok tot' ->
  let evs := eventsOf (batchLoop key lang batches index count tot w) in
  pages tot' = (pages tot + pagesProcessed evs)%Z
  /\ totalUpserted tot' = (totalUpserted tot + upsertedSum evs)%Z
  /\ totalModified tot' = (totalModified tot + modifiedSum evs)%Z.
Proof.
  apply (batchLoop_cases key lang count
    (fun batches index tot w r => forall tot', outcomeOf r = Ok tot' ->
       pages tot' = (pages tot + pagesProcessed (eventsOf r))%Z
       /\ totalUpserted tot' = (totalUpserted tot + upsertedSum (eventsOf r))%Z
       /\ totalModified tot' = (totalModified tot + modifiedSum (eventsOf r))%Z));
    unfold outcomeOf, eventsOf; cbn [fst snd]; try (intros; discriminate).
  - intros index tot w tot' [= <-]. unfold pagesProcessed. cbn. lia.
  - intros batch rest index tot w w1 evs1 tot1 w2 evs2 o El IH tot' Ho.
    pose proof (pageLoop_accounts (Z.to_nat MAX_PAGES) key lang (JsString.join "," batch)
                  Null 0%Z tot w tot1) as HP.
    rewrite El in HP. destruct (HP eq_refl) as (P1 & P2 & P3).
    destruct (IH tot' Ho) as (I1 & I2 & I3).
    unfold eventsOf in *. cbn [fst snd] in *.
    change (EvLog debug ?l :: evs1 ++ ?g ++ evs2)
      with ([EvLog debug l] ++ evs1 ++ g ++ evs2).
    rewrite !pagesProcessed_app, !upsertedSum_app, !modifiedSum_app.
    assert (G : pagesProcessed (batchGap index count) = 0%Z
                /\ upsertedSum (batchGap index count) = 0%Z
                /\ modifiedSum (batchGap index count) = 0%Z).
    { unfold batchGap. by destruct (Nat.ltb _ _). }
    destruct G as (-> & -> & ->). unfold pagesProcessed in *. cbn in *. lia.
Qed.

(** X1. The totals a completed run returns are what its trace shows: the
    number of upstream answers processed as pages, and the sums of the
    inserted and modified counts the store reported for its bulk writes. *)
Theorem totals_are_the_sums_over_the_trace (env : Env) (key : string) (w : world)
    (tot : Totals) :
  NEWSDATA_API_KEY env = Some key -> key <> "" ->
  outcomeOf (ingestNews env w) = Ok (Some tot) ->
  pages tot = pagesProcessed (eventsOf (ingestNews env w))
  /\ totalUpserted tot = upsertedSum (eventsOf (ingestNews env w))
  /\ totalModified tot = modifiedSum (eventsOf (ingestNews env w)).
Proof.
  intros Hkey Hne. rewrite (ingestNews_step env key w Hkey Hne). cbv zeta.
  pose proof (batchLoop_accounts key (Batching.envOr (NEWS_FETCH_LANGUAGE env) "en")
    (length (Batching.categoryBatches (Batching.allCategories (NEWS_FETCH_CATEGORIES env))))
    (Batching.categoryBatches (Batching.allCategories (NEWS_FETCH_CATEGORIES env)))
    0 zeroTotals w) as HB.
  destruct (batchLoop _ _ _ _ _ _ w) as [[w1 evs] [t|e|]];
    unfold outcomeOf, eventsOf in *; cbn [fst snd] in *; try discriminate.
  intros [= <-]. destruct (HB t eq_refl) as (B1 & B2 & B3). cbn in B1, B2, B3.
  change (EvLog info ?l :: evs ++ ?c) with ([EvLog info l] ++ evs ++ c).
  rewrite !pagesProcessed_app, !upsertedSum_app, !modifiedSum_app.
  unfold pagesProcessed in *. cbn in *. lia.
Qed.

(** The first request of a page loop asks for the page the loop starts
    from, and the requests that follow are threaded. *)
Lemma pageLoop_threads b key lang cat : forall page pc tot w,
  let fs := fetches (eventsOf (pageLoop b key lang cat page pc tot w)) in
  match fs with
  | [] => True
  | (p, _) :: _ => p = paramsOf key lang cat page
  end
  /\ threaded fs.
Proof.
  apply (pageLoop_cases key lang cat
    (fun page pc tot w r =>
       match fetches (eventsOf r) with
       | [] => True
       | (p, _) :: _ => p = paramsOf key lang cat page
       end
       /\ threaded (fetches (eventsOf r))));
    unfold eventsOf; cbn [fst snd]; try (intros; by cbn).
  - intros page pc tot w w1 data w2 evsU e _ _ Eu.
    destruct (upsert_trace _ _ _ _ _ Eu) as (Hf & _).
    rewrite fetches_app, Hf. by cbn.
  - intros page pc tot w w1 data w2 evsU counts _ _ Eu _.
    destruct (upsert_trace _ _ _ _ _ Eu) as (Hf & _).
    rewrite fetches_app, Hf. by cbn.
  - intros page pc tot w w1 data w2 evsU counts w3 evs3 o _ _ Eu Ha [Hhd Hth].
    destruct (upsert_trace _ _ _ _ _ Eu) as (Hf & _).
    rewrite !fetches_app, Hf. cbn [fetches app threaded].
    split; [reflexivity|]. split; [|exact Hth].
    destruct (fetches evs3) as [|[p2 r2] rest]; [exact I|]. subst p2.
    apply andb_true_iff in Ha as [Ht _]. rewrite truthy_or_Null in Ht.
    unfold paramsOf. cbn [apikey language category Service.page].
    rewrite truthy_or_Null, Ht. unfold or. rewrite Ht.
    split; [by exists data|done].
Qed.

(** X2. Within a batch, pagination follows upstream's tokens: the first
    request carries the key, the language and the comma-joined categories and
    no [page]; every later request carries the same three and, as [page],
    the [nextPage] of the answer just before it. *)
Theorem pagination_follows_the_tokens (key lang cat : string) (tot : Totals) (w : world) :
  let fs := fetches (eventsOf (pageLoop (Z.to_nat MAX_PAGES) key lang cat Null 0 tot w)) in
  (exists r rest,
     fs = ({| apikey := key; language := lang; category := cat; page := None |}, r) :: rest)
  /\ threaded fs.
Proof.
  cbv zeta.
  pose proof (pageLoop_threads (Z.to_nat MAX_PAGES) key lang cat Null 0%Z tot w) as [Hhd Hth].
  pose proof (pageLoop_bounded (Z.to_nat MAX_PAGES) key lang cat Null 0%Z tot w
                ltac:(unfold MAX_PAGES; lia) ltac:(unfold MAX_PAGES; lia)) as HB.
  destruct (pageLoop _ _ _ _ _ _ _ w) as [[w1 evs] o].
  unfold eventsOf in *. cbn [fst snd] in *.
  destruct HB as (_ & Hlen & _). rewrite <- fetches_length in Hlen.
  split; [|exact Hth].
  destruct (fetches evs) as [|[p r] rest]; [cbn in Hlen; lia|].
  subst p. by exists r, rest.
Qed.

Lemma pageLoop_writes b key lang cat : forall page pc tot w,
  Forall (fun ops =>
    ops <> []
    /\ Forall (fun op => upsert op = true
                /\ exists article, filter_article_id op = prop article "article_id"
                                   /\ (exists date,
                                          parsedDate (prop article "pubDate") = inr date
                                          /\ set op = setOf article date)) ops)
    (writes (eventsOf (pageLoop b key lang cat page pc tot w))).
Proof.
  apply (pageLoop_cases key lang cat (fun page pc tot w r =>
    Forall (fun ops =>
      ops <> []
      /\ Forall (fun op => upsert op = true
                  /\ exists article, filter_article_id op = prop article "article_id"
                                     /\ (exists date,
                                            parsedDate (prop article "pubDate") = inr date
                                            /\ set op = setOf article date)) ops)
      (writes (eventsOf r))));
    unfold eventsOf; cbn [fst snd]; try (intros; by constructor).
  - intros page pc tot w w1 data w2 evsU e _ _ Eu.
    destruct (upsert_trace _ _ _ _ _ Eu) as (_ & _ & _ & _ & Hw).
    by rewrite writes_app.
  - intros page pc tot w w1 data w2 evsU counts _ _ Eu _.
    destruct (upsert_trace _ _ _ _ _ Eu) as (_ & _ & _ & _ & Hw).
    by rewrite writes_app.
  - intros page pc tot w w1 data w2 evsU counts w3 evs3 o _ _ Eu _ IH.
    destruct (upsert_trace _ _ _ _ _ Eu) as (_ & _ & _ & _ & Hw).
    rewrite !writes_app. cbn [writes app]. by apply Forall_app.
Qed.

(** X3. A run never sends the store an empty bulk write, and every
    operation it sends is an upsert that filters on the [article_id] of one
    article and sets the full list of fields built from that article and its
    parsed date. *)
Theorem bulk_writes_are_nonempty_upserts (env : Env) (w : world) :
  Forall (fun ops =>
    ops <> []
    /\ Forall (fun op => upsert op = true
                /\ exists article, filter_article_id op = prop article "article_id"
                                   /\ (exists date,
                                          parsedDate (prop article "pubDate") = inr date
                                          /\ set op = setOf article date)
                                   /\ map fst (set op) = Fields.fieldNames) ops)
    (writes (eventsOf (ingestNews env w))).
Proof.
  assert (Hrun : Forall (fun ops =>
    ops <> []
    /\ Forall (fun op => upsert op = true
                /\ exists article, filter_article_id op = prop article "article_id"
                                   /\ (exists date,
                                          parsedDate (prop article "pubDate") = inr date
                                          /\ set op = setOf article date)) ops)
    (writes (eventsOf (ingestNews env w)))).
  { destruct (NEWSDATA_API_KEY env) as [key|] eqn:Hkey.
    2:{ rewrite (ingestNews_no_key env w (or_introl Hkey)). constructor. }
    destruct (decide (key = "")) as [->|Hne].
    { rewrite (ingestNews_no_key env w (or_intror Hkey)). constructor. }
    rewrite (ingestNews_step env key w Hkey Hne). cbv zeta.
    pose proof (batchLoop_cases key (Batching.envOr (NEWS_FETCH_LANGUAGE env) "en")
      (length (Batching.categoryBatches
                 (Batching.allCategories (NEWS_FETCH_CATEGORIES env))))
      (fun _ _ _ _ r => Forall (fun ops =>
         ops <> []
         /\ Forall (fun op => upsert op = true
                     /\ exists article, filter_article_id op = prop article "article_id"
                                        /\ (exists date,
                                               parsedDate (prop article "pubDate") = inr date
                                               /\ set op = setOf article date)) ops)
         (writes (eventsOf r)))) as HB.
    assert (Hgap : forall i c, writes (batchGap i c) = []).
    { intros i c. unfold batchGap. by destruct (Nat.ltb _ _). }
    specialize (HB ltac:(intros; constructor)).
    specialize (HB ltac:(intros batch rest index tot w0 w1 evs1 e El;
      pose proof (pageLoop_writes (Z.to_nat MAX_PAGES) key
        (Batching.envOr (NEWS_FETCH_LANGUAGE env) "en") (JsString.join "," batch)
        Null 0%Z tot w0) as HP; rewrite El in HP; exact HP)).
    specialize (HB ltac:(intros batch rest index tot w0 w1 evs1 tot' w2 evs2 o El IH;
      pose proof (pageLoop_writes (Z.to_nat MAX_PAGES) key
        (Batching.envOr (NEWS_FETCH_LANGUAGE env) "en") (JsString.join "," batch)
        Null 0%Z tot w0) as HP; rewrite El in HP;
      unfold eventsOf in *; cbn [fst snd writes] in *;
      rewrite !writes_app, Hgap; cbn [app]; by apply Forall_app)).
    specialize (HB (Batching.categoryBatches
                      (Batching.allCategories (NEWS_FETCH_CATEGORIES env))) 0 zeroTotals w).
    destruct (batchLoop _ _ _ _ _ _ w) as [[w1 evs] [t|e|]];
      unfold eventsOf in *; cbn [fst snd writes] in *;
      rewrite ?writes_app; cbn [writes]; rewrite ?app_nil_r; exact HB. }
  eapply Forall_impl; [exact Hrun|]. intros ops [Hne Hops]. split; [exact Hne|].
  eapply Forall_impl; [exact Hops|]. intros op (Hu & article & Hf & date & Hd & Hs).
  split; [exact Hu|]. exists article. split; [exact Hf|]. split; [by exists date|].
  by rewrite Hs.
Qed.

(** Between the pages of a batch the loop waits 1000 ms, once before every
    request but the first, and sets no other timer. *)
Lemma pageLoop_waits b key lang cat : forall page pc tot w,
  outcomeOf (pageLoop b key lang cat page pc tot w) <> Unfinished ->
  let evs := eventsOf (pageLoop b key lang cat page pc tot w) in
  1 <= length (fetches evs)
  /\ delays evs = repeat 1000%Z (length (fetches evs) - 1).
Proof.
  apply (pageLoop_cases key lang cat (fun page pc tot w r =>
    outcomeOf r <> Unfinished ->
    1 <= length (fetches (eventsOf r))
    /\ delays (eventsOf r) = repeat 1000%Z (length (fetches (eventsOf r)) - 1)));
    unfold eventsOf, outcomeOf; cbn [fst snd]; try (intros; by cbn).
  - intros page pc tot w w1 data w2 evsU e _ _ Eu _.
    destruct (upsert_trace _ _ _ _ _ Eu) as (Hf & _ & Hd & _).
    rewrite fetches_app, delays_app, Hf, Hd. by cbn.
  - intros page pc tot w w1 data w2 evsU counts _ _ Eu _ _.
    destruct (upsert_trace _ _ _ _ _ Eu) as (Hf & _ & Hd & _).
    rewrite fetches_app, delays_app, Hf, Hd. by cbn.
  - intros page pc tot w w1 data w2 evsU counts w3 evs3 o _ _ Eu _ IH Ho.
    destruct (upsert_trace _ _ _ _ _ Eu) as (Hf & _ & Hd & _).
    destruct (IH Ho) as [I1 I2].
    rewrite !fetches_app, !delays_app, Hf, Hd. cbn [fetches delays app length].
    split; [lia|]. rewrite I2.
    replace (S (length (fetches evs3)) - 1) with (S (length (fetches evs3) - 1)) by lia.
    reflexivity.
Qed.

Lemma waits_of_repeat k :
  length (List.filter (Z.eqb 1000) (repeat 1000%Z k)) = k
  /\ length (List.filter (Z.eqb 1500) (repeat 1000%Z k)) = 0.
Proof. induction k as [|k [I1 I2]]; [done|]. cbn. split; [by rewrite I1|exact I2]. Qed.

Lemma batchLoop_waits key lang count batches : forall index tot w,
  index + length batches = count ->
  forall tot', outcomeOf (batchLoop key lang batches index count tot w) = Ok tot' ->
  let evs := eventsOf (batchLoop key lang batches index count tot w) in
  waits 1500 evs = length batches - 1
  /\ waits 1000 evs + length batches = length (fetches evs)
  /\ length (delays evs) = waits 1000 evs + waits 1500 evs.
Proof.
  apply (batchLoop_cases key lang count (fun batches index tot w r =>
    index + length batches = count ->
    forall tot', outcomeOf r = Ok tot' ->
    waits 1500 (eventsOf r) = length batches - 1
    /\ waits 1000 (eventsOf r) + length batches = length (fetches (eventsOf r))
    /\ length (delays (eventsOf r)) = waits 1000 (eventsOf r) + waits 1500 (eventsOf r)));
    unfold eventsOf, outcomeOf; cbn [fst snd]; try (intros; discriminate).
  - intros index tot w _ tot' _. by cbn.
  - intros batch rest index tot w w1 evs1 tot1 w2 evs2 o El IH Hc tot' Ho.
    cbn [length] in Hc.
    destruct (IH ltac:(lia) tot' Ho) as (I1 & I2 & I3).
    pose proof (pageLoop_waits (Z.to_nat MAX_PAGES) key lang (JsString.join "," batch)
                  Null 0%Z tot w) as HP.
    rewrite El in HP. destruct (HP ltac:(discriminate)) as [P1 P2].
    unfold eventsOf in P1, P2. cbn [fst snd] in P1, P2.
    destruct (waits_of_repeat (length (fetches evs1) - 1)) as [R1 R2].
    change (EvLog debug ?l :: evs1 ++ ?g ++ evs2)
      with ([EvLog debug l] ++ evs1 ++ g ++ evs2).
    rewrite !waits_app, !fetches_app, !delays_app, !length_app.
    unfold waits in *. rewrite P2, R1, R2, List.repeat_length.
    unfold batchGap. cbn [length].
    destruct (Nat.ltb_spec index (count - 1)); cbn; lia.
Qed.

Lemma marks_app evs1 evs2 : marks (evs1 ++ evs2) = marks evs1 ++ marks evs2.
Proof.
  induction evs1 as [|ev evs1 IH]; [done|].
  destruct ev as [p r|ops r|ms|level line]; cbn [app marks]; rewrite ?IH; try done.
  destruct level; try done. destruct line; by rewrite ?IH.
Qed.

Lemma upsert_marks articles w w2 evsU o :
  upsertArticles articles w = (w2, evsU, o) -> marks evsU = [].
Proof.
  intros E. pose proof (upsertArticles_case articles w) as C. rewrite E in C.
  by inversion C.
Qed.

(** The page loop of a batch: a request, then 1000 ms and a request for
    every further page. *)
Lemma pageLoop_marks b key lang cat : forall page pc tot w,
  outcomeOf (pageLoop b key lang cat page pc tot w) <> Unfinished ->
  exists more,
    marks (eventsOf (pageLoop b key lang cat page pc tot w))
    = Request :: concat (repeat [Wait 1000; Request] more)
    /\ S more = length (fetches (eventsOf (pageLoop b key lang cat page pc tot w))).
Proof.
  apply (pageLoop_cases key lang cat (fun page pc tot w r =>
    outcomeOf r <> Unfinished ->
    exists more,
      marks (eventsOf r) = Request :: concat (repeat [Wait 1000; Request] more)
      /\ S more = length (fetches (eventsOf r))));
    unfold eventsOf, outcomeOf; cbn [fst snd].
  - intros page pc tot w Ho. done.
  - intros page pc tot w w1 e _ _. by exists 0.
  - intros page pc tot w w1 data _ _ _. by exists 0.
  - intros page pc tot w w1 data _ _ _ _. by exists 0.
  - intros page pc tot w w1 data w2 evsU e _ _ Eu _.
    destruct (upsert_trace _ _ _ _ _ Eu) as (Hf & _).
    exists 0. rewrite marks_app, fetches_app, (upsert_marks _ _ _ _ _ Eu), Hf. by cbn.
  - intros page pc tot w w1 data w2 evsU counts _ _ Eu _ _.
    destruct (upsert_trace _ _ _ _ _ Eu) as (Hf & _).
    exists 0. rewrite marks_app, fetches_app, (upsert_marks _ _ _ _ _ Eu), Hf. by cbn.
  - intros page pc tot w w1 data w2 evsU counts w3 evs3 o _ _ Eu _ IH Ho.
    destruct (upsert_trace _ _ _ _ _ Eu) as (Hf & _).
    destruct (IH Ho) as (more & Hm & Hl). exists (S more).
    rewrite !marks_app, !fetches_app, (upsert_marks _ _ _ _ _ Eu), Hf.
    cbn [marks fetches app length repeat concat]. rewrite Hm, <- Hl. by cbn.
Qed.

(** The batches of a run that completes: each a page loop, 1500 ms
    between each two. *)
Lemma batchLoop_marks key lang count batches : forall index tot w,
  index + length batches = count ->
  forall tot', outcomeOf (batchLoop key lang batches index count tot w) = Ok tot' ->
  exists mores,
    length mores = length batches
    /\ Forall (fun more => more <= 2) mores
    /\ marks (eventsOf (batchLoop key lang batches index count tot w)) = runMarks mores.
Proof.
  apply (batchLoop_cases key lang count (fun batches index tot w r =>
    index + length batches = count ->
    forall tot', outcomeOf r = Ok tot' ->
    exists mores,
      length mores = length batches
      /\ Forall (fun more => more <= 2) mores
      /\ marks (eventsOf r) = runMarks mores));
    unfold eventsOf, outcomeOf; cbn [fst snd]; try (intros; discriminate).
  - intros index tot w _ tot' _. by exists [].
  - intros batch rest index tot w w1 evs1 tot1 w2 evs2 o El IH Hc tot' Ho.
    cbn [length] in Hc.
    destruct (IH ltac:(lia) tot' Ho) as (mores & Hlen & Hall & Hmarks).
    pose proof (pageLoop_marks (Z.to_nat MAX_PAGES) key lang (JsString.join "," batch)
                  Null 0%Z tot w) as HP.
    pose proof (pageLoop_bounded (Z.to_nat MAX_PAGES) key lang (JsString.join "," batch)
                  Null 0%Z tot w ltac:(unfold MAX_PAGES; lia) ltac:(unfold MAX_PAGES; lia))
      as HB.
    rewrite El in HP, HB. cbv zeta in HB. destruct HB as (_ & _ & Hmax & _).
    destruct (HP ltac:(discriminate)) as (more & Hm & Hl).
    unfold eventsOf in Hm, Hl. cbn [fst snd] in Hm, Hl.
    rewrite fetches_length in Hl. unfold MAX_PAGES in Hmax.
    exists (more :: mores). split; [cbn; lia|]. split; [constructor; [lia|exact Hall]|].
    change (EvLog debug ?l :: evs1 ++ ?g ++ evs2)
      with ([EvLog debug l] ++ evs1 ++ g ++ evs2).
    rewrite !marks_app, Hm, Hmarks. unfold batchGap.
    destruct rest as [|next rest], mores as [|m mores]; try discriminate Hlen.
    + replace (Nat.ltb index (count - 1)) with false by (symmetry; apply Nat.ltb_ge; cbn in Hc; lia).
      cbn [marks runMarks app batchMarks]. by rewrite app_nil_r.
    + replace (Nat.ltb index (count - 1)) with true by (symmetry; apply Nat.ltb_lt; cbn in Hc; lia).
      reflexivity.
Qed.

(** X4. The pace of a run that completes is that of its batches in a row:
    each batch is the line that announces it, one request, and then 1000 ms
    and a request for every further page, two at most; between each two
    consecutive batches, and nowhere else, the run waits 1500 ms.  So it has
    waited 1500 ms once between each two consecutive batches, 1000 ms once
    before every request that is not the first of its batch, and has set no
    other timer. *)
Theorem a_completed_run_waits_between_pages_and_batches
    (env : Env) (key : string) (w : world) (tot : Totals) :
  NEWSDATA_API_KEY env = Some key -> key <> "" ->
  outcomeOf (ingestNews env w) = Ok (Some tot) ->
  let batches := Batching.categoryBatches
                   (Batching.allCategories (NEWS_FETCH_CATEGORIES env)) in
  let evs := eventsOf (ingestNews env w) in
  (exists mores,
     length mores = length batches
     /\ Forall (fun more => more <= 2) mores
     /\ marks evs = runMarks mores)
  /\ waits 1500 evs = length batches - 1
  /\ waits 1000 evs + length batches = length (fetches evs)
  /\ length (delays evs) = waits 1000 evs + waits 1500 evs.
Proof.
  intros Hkey Hne. rewrite (ingestNews_step env key w Hkey Hne). cbv zeta.
  pose proof (batchLoop_waits key (Batching.envOr (NEWS_FETCH_LANGUAGE env) "en")
    (length (Batching.categoryBatches (Batching.allCategories (NEWS_FETCH_CATEGORIES env))))
    (Batching.categoryBatches (Batching.allCategories (NEWS_FETCH_CATEGORIES env)))
    0 zeroTotals w ltac:(lia)) as HB.
  pose proof (batchLoop_marks key (Batching.envOr (NEWS_FETCH_LANGUAGE env) "en")
    (length (Batching.categoryBatches (Batching.allCategories (NEWS_FETCH_CATEGORIES env))))
    (Batching.categoryBatches (Batching.allCategories (NEWS_FETCH_CATEGORIES env)))
    0 zeroTotals w ltac:(lia)) as HM.
  destruct (batchLoop _ _ _ _ _ _ w) as [[w1 evs] [t|e|]];
    unfold outcomeOf, eventsOf in *; cbn [fst snd] in *; try discriminate.
  intros _. destruct (HB t eq_refl) as (B1 & B2 & B3).
  destruct (HM t eq_refl) as (mores & M1 & M2 & M3).
  change (EvLog info ?l :: evs ++ ?c) with ([EvLog info l] ++ evs ++ c).
  split.
  { exists mores. split; [exact M1|]. split; [exact M2|].
    rewrite !marks_app, M3. cbn [marks app]. by rewrite app_nil_r. }
  rewrite !waits_app, !fetches_app, !delays_app, !length_app. cbn. unfold waits in *. cbn.
  lia.
Qed.

End WithWorld.

(** At a concrete input: one batch, a first page with one new article and a
    second page that upstream refuses. *)
Lemma totals_witness :
  Scenario.errorOnSecondPage
  = @ingestNews Scenario.strictHost (Scenario.scripted Store.StripUndefined)
      Scenario.oneCategory
      (Scenario.start [inr (Scenario.success (Arr [Scenario.story "a1" "First"]) (Str "p2"));
                       inr Scenario.errorPayload])
  /\ 1%Z = pagesProcessed (eventsOf Scenario.errorOnSecondPage)
  /\ 1%Z = upsertedSum (eventsOf Scenario.errorOnSecondPage)
  /\ 0%Z = modifiedSum (eventsOf Scenario.errorOnSecondPage).
Proof.
  split; [reflexivity|].
  exact (@totals_are_the_sums_over_the_trace Scenario.strictHost
           (Scenario.scripted Store.StripUndefined) Scenario.oneCategory "k"
           (Scenario.start [inr (Scenario.success (Arr [Scenario.story "a1" "First"]) (Str "p2"));
                            inr Scenario.errorPayload])
           {| pages := 1; totalUpserted := 1; totalModified := 0 |}
           eq_refl ltac:(discriminate) ltac:(vm_compute; reflexivity)).
Defined.

(** At a concrete input: two batches, each answered by an empty page. *)
Lemma waits_witness :
  marks (eventsOf Scenario.twoEmptyBatches)
  = [BatchStarts; Request; Wait 1500; BatchStarts; Request]
  /\ waits 1500 (eventsOf Scenario.twoEmptyBatches) = 1
  /\ waits 1000 (eventsOf Scenario.twoEmptyBatches) + 2
     = length (fetches (eventsOf Scenario.twoEmptyBatches))
  /\ length (delays (eventsOf Scenario.twoEmptyBatches))
     = waits 1000 (eventsOf Scenario.twoEmptyBatches)
       + waits 1500 (eventsOf Scenario.twoEmptyBatches).
Proof.
  split; [reflexivity|].
  exact (proj2 (@a_completed_run_waits_between_pages_and_batches Scenario.strictHost
           (Scenario.scripted Store.StripUndefined) Scenario.sixCategories "k"
           (Scenario.start [inr Scenario.emptyPage; inr Scenario.emptyPage])
           {| pages := 2; totalUpserted := 0; totalModified := 0 |}
           eq_refl ltac:(discriminate) ltac:(vm_compute; reflexivity))).
Defined.

End RunExtras.

(** ** Splitting, joining and trimming *)

Module TextFacts.

Import JsString Text.

Lemma split_not_nil sep s : split sep s <> [].
Proof.
  destruct s as [|c s]; cbn; [done|].
  destruct (Ascii.eqb c sep); [done|]. by destruct (split sep s).
Qed.

Lemma split_pieces sep s : Forall (fun p => hasChar sep p = false) (split sep s).
Proof.
  induction s as [|c s IH]; cbn [split]; [by repeat constructor|].
  destruct (Ascii.eqb c sep) eqn:E; [by constructor|].
  destruct (split sep s) as [|h t]; [by repeat constructor; cbn; rewrite E|].
  inversion IH as [|? ? Hh Ht]; subst. constructor; [|exact Ht].
  cbn. by rewrite E, Hh.
Qed.

Lemma split_without_sep sep p : hasChar sep p = false -> split sep p = [p].
Proof.
  induction p as [|c p IH]; cbn; [done|].
  intros E. apply orb_false_iff in E as [Ec Ep]. rewrite Ec, (IH Ep). reflexivity.
Qed.

Lemma split_app sep p t :
  hasChar sep p = false ->
  split sep (p +:+ String sep t) = p :: split sep t.
Proof.
  induction p as [|c p IH]; cbn [hasChar]; intros E.
  - change (EmptyString +:+ String sep t) with (String sep t).
    cbn [split]. by rewrite Ascii.eqb_refl.
  - apply orb_false_iff in E as [Ec Ep].
    change (String c p +:+ String sep t) with (String c (p +:+ String sep t)).
    cbn [split]. rewrite Ec, (IH Ep). reflexivity.
Qed.

(** Joining names that hold no separator and splitting again gives the
    names back. *)
Lemma split_join sep l :
  l <> [] -> Forall (fun p => hasChar sep p = false) l ->
  split sep (join (String sep EmptyString) l) = l.
Proof.
  induction l as [|p rest IH]; [done|]. intros _ Hl.
  inversion Hl as [|? ? Hp Hrest]; subst.
  destruct rest as [|q rest]; [by apply split_without_sep|].
  change (join (String sep "") (p :: q :: rest))
    with (p +:+ String sep (join (String sep "") (q :: rest))).
  rewrite split_app by exact Hp. f_equal. by apply IH.
Qed.

Lemma hasChar_trimStart c s : hasChar c s = false -> hasChar c (trimStart s) = false.
Proof.
  induction s as [|c' s IH]; [done|]. intros E. cbn [trimStart].
  destruct (isWhiteSpace c'); [|exact E].
  apply IH. cbn in E. by apply orb_false_iff in E as [_ E].
Qed.

Lemma hasChar_trimEnd c s : hasChar c s = false -> hasChar c (trimEnd s) = false.
Proof.
  induction s as [|c' s IH]; [done|]. intros E. cbn in E.
  apply orb_false_iff in E as [Ec Es]. specialize (IH Es). cbn [trimEnd].
  destruct (trimEnd s) as [|d t].
  - destruct (isWhiteSpace c'); [done|]. cbn. by rewrite Ec.
  - cbn [hasChar]. rewrite Ec. exact IH.
Qed.

Lemma hasChar_trim c s : hasChar c s = false -> hasChar c (trim s) = false.
Proof. intros E. by apply hasChar_trimEnd, hasChar_trimStart. Qed.

Lemma trimStart_head s :
  trimStart s = EmptyString
  \/ exists c t, trimStart s = String c t /\ isWhiteSpace c = false.
Proof.
  induction s as [|c s IH]; [by left|]. cbn [trimStart].
  destruct (isWhiteSpace c) eqn:E; [exact IH|]. right. eauto.
Qed.

Lemma trimEnd_idem s : trimEnd (trimEnd s) = trimEnd s.
Proof.
  induction s as [|c s IH]; [done|]. cbn [trimEnd].
  destruct (trimEnd s) as [|d t] eqn:E.
  - destruct (isWhiteSpace c) eqn:Ec; [done|]. cbn. by rewrite Ec.
  - cbn [trimEnd]. cbn [trimEnd] in IH. by rewrite IH.
Qed.

Lemma trimEnd_keeps_head c t :
  isWhiteSpace c = false -> exists t', trimEnd (String c t) = String c t'.
Proof.
  intros Ec. cbn [trimEnd]. destruct (trimEnd t); [rewrite Ec|]; eauto.
Qed.

(** [trim] leaves nothing to trim. *)
Lemma trim_idem s : trim (trim s) = trim s.
Proof.
  unfold trim. destruct (trimStart_head s) as [E|(c & t & E & Ec)]; rewrite E.
  - reflexivity.
  - destruct (trimEnd_keeps_head c t Ec) as [t' E']. rewrite E'.
    cbn [trimStart]. rewrite Ec, <- E'. apply trimEnd_idem.
Qed.

Lemma trim_allWhite s : allWhite s = true -> trim s = EmptyString.
Proof.
  unfold trim. induction s as [|c s IH]; [done|]. cbn.
  intros E. apply andb_true_iff in E as [Ec Es]. rewrite Ec. by apply IH.
Qed.

Lemma split_blank s :
  blankList s = true -> Forall (fun p => allWhite p = true) (split "," s).
Proof.
  induction s as [|c s IH]; cbn [split blankList]; [by repeat constructor|].
  intros E. apply andb_true_iff in E as [Ec Es]. specialize (IH Es).
  destruct (Ascii.eqb c ",") eqn:Ecomma; [by constructor|].
  cbn [orb] in Ec.
  destruct (split "," s) as [|h t]; [by repeat constructor; cbn; rewrite Ec|].
  inversion IH as [|? ? Hh Ht]; subst. constructor; [|exact Ht].
  cbn. by rewrite Ec, Hh.
Qed.

(** The configured categories are clean names. *)
Lemma allCategories_clean configured :
  Forall cleanName (Batching.allCategories configured).
Proof.
  unfold Batching.allCategories.
  pose proof (split_pieces "," (Batching.envOr configured "technology,business,science"))
    as Hs.
  induction Hs as [|p l Hp Hl IH]; cbn [List.map List.filter]; [constructor|].
  destruct (nonEmpty (trim p)) eqn:E; [|exact IH].
  constructor; [|exact IH]. repeat split.
  - intros E'. by rewrite E' in E.
  - by apply hasChar_trim.
  - apply trim_idem.
Qed.

(** A list of commas and blanks configures no category. *)
Lemma allCategories_blank s :
  s <> EmptyString -> blankList s = true -> Batching.allCategories (Some s) = [].
Proof.
  intros Hne Hb. unfold Batching.allCategories, Batching.envOr.
  destruct s as [|c s]; [done|]. cbn [nonEmpty].
  pose proof (split_blank _ Hb) as Hs.
  induction Hs as [|p l Hp Hl IH]; cbn [List.map List.filter]; [done|].
  by rewrite (trim_allWhite p Hp).
Qed.

End TextFacts.

(** ** What a run asks upstream *)

Module RequestExtras.

Import Js Service Observe Trace Text PageLoopFacts IngestFacts LoopInduction RunFacts
  TextFacts.

Section WithWorld.
Context `{JsDate.Host} `{World}.

Lemma pageLoop_params b key lang cat : forall page pc tot w,
  Forall (fun pr => apikey (fst pr) = key /\ language (fst pr) = lang
                    /\ category (fst pr) = cat)
    (fetches (eventsOf (pageLoop b key lang cat page pc tot w))).
Proof.
  apply (pageLoop_cases key lang cat (fun page pc tot w r =>
    Forall (fun pr => apikey (fst pr) = key /\ language (fst pr) = lang
                      /\ category (fst pr) = cat)
      (fetches (eventsOf r))));
    unfold eventsOf; cbn [fst snd]; try (intros; by repeat constructor).
  - intros page pc tot w w1 data w2 evsU e _ _ Eu.
    destruct (upsert_trace _ _ _ _ _ Eu) as (Hf & _).
    rewrite fetches_app, Hf. by repeat constructor.
  - intros page pc tot w w1 data w2 evsU counts _ _ Eu _.
    destruct (upsert_trace _ _ _ _ _ Eu) as (Hf & _).
    rewrite fetches_app, Hf. by repeat constructor.
  - intros page pc tot w w1 data w2 evsU counts w3 evs3 o _ _ Eu _ IH.
    destruct (upsert_trace _ _ _ _ _ Eu) as (Hf & _).
    rewrite !fetches_app, Hf. cbn [fetches app]. constructor; [done|exact IH].
Qed.

Lemma batchLoop_params key lang count batches : forall index tot w,
  Forall (fun pr => apikey (fst pr) = key /\ language (fst pr) = lang
                    /\ exists b, b ∈ batches /\ category (fst pr) = JsString.join "," b)
    (fetches (eventsOf (batchLoop key lang batches index count tot w))).
Proof.
  assert (Hgap : forall i c, fetches (batchGap i c) = []).
  { intros i c. unfold batchGap. by destruct (Nat.ltb _ _). }
  apply (batchLoop_cases key lang count (fun batches index tot w r =>
    Forall (fun pr => apikey (fst pr) = key /\ language (fst pr) = lang
                      /\ exists b, b ∈ batches /\ category (fst pr) = JsString.join "," b)
      (fetches (eventsOf r))));
    unfold eventsOf; cbn [fst snd].
  - intros. constructor.
  - intros batch rest index tot w w1 evs1 e El.
    pose proof (pageLoop_params (Z.to_nat MAX_PAGES) key lang (JsString.join "," batch)
                  Null 0%Z tot w) as HP.
    rewrite El in HP. unfold eventsOf in HP. cbn [fst snd fetches] in *.
    eapply Forall_impl; [exact HP|]. intros pr (A & B & C).
    repeat split; try done. exists batch. split; [apply elem_of_cons; by left|done].
  - intros batch rest index tot w w1 evs1 tot' w2 evs2 o El IH.
    pose proof (pageLoop_params (Z.to_nat MAX_PAGES) key lang (JsString.join "," batch)
                  Null 0%Z tot w) as HP.
    rewrite El in HP. unfold eventsOf in HP. cbn [fst snd fetches] in *.
    rewrite !fetches_app, Hgap. cbn [app]. apply Forall_app. split.
    + eapply Forall_impl; [exact HP|]. intros pr (A & B & C).
      repeat split; try done. exists batch. split; [apply elem_of_cons; by left|done].
    + eapply Forall_impl; [exact IH|]. intros pr (A & B & b & Hb & C).
      repeat split; try done. exists b. split; [apply elem_of_cons; by right|done].
Qed.

(** Every batch is a short list of clean names. *)
Lemma categoryBatches_clean configured :
  Forall (fun b => Forall cleanName b /\ 1 <= length b <= 5)
    (Batching.categoryBatches (Batching.allCategories configured)).
Proof.
  apply Forall_lookup_2. intros k b Hb.
  apply BatchingFacts.categoryBatches_lookup in Hb as [-> Hk].
  split.
  - unfold Batching.slice. apply Forall_take, Forall_drop, allCategories_clean.
  - rewrite BatchingFacts.slice_length. lia.
Qed.

(** X5. A configured category list that is not empty but holds only commas
    and white space configures no category: the run asks upstream nothing,
    writes nothing, waits for nothing and completes with zero totals. *)
Theorem blank_category_list_means_no_request
    (env : Env) (key s : string) (w : world) :
  NEWSDATA_API_KEY env = Some key -> key <> "" ->
  NEWS_FETCH_CATEGORIES env = Some s -> s <> "" -> blankList s = true ->
  ingestNews env w
  = (w, [EvLog info (Starting 0 0); EvLog info (Complete 0 0 0)], Ok (Some zeroTotals)).
Proof.
  intros Hkey Hne Hs Hs' Hb.
  rewrite (ingestNews_step env key w Hkey Hne). cbv zeta.
  rewrite Hs, (allCategories_blank s Hs' Hb). reflexivity.
Qed.

(** X6. Every request of a run carries the configured key, the configured
    language (['en'] when unset or empty) and a [category] parameter that,
    split at its commas, is exactly one of the batches; and every batch is a
    list of one to five names that are not empty, hold no comma and have no
    white space around them. *)
Theorem every_request_names_one_batch (env : Env) (key : string) (w : world) :
  NEWSDATA_API_KEY env = Some key -> key <> "" ->
  let batches := Batching.categoryBatches
                   (Batching.allCategories (NEWS_FETCH_CATEGORIES env)) in
  Forall (fun pr =>
            apikey (fst pr) = key
            /\ language (fst pr) = Batching.envOr (NEWS_FETCH_LANGUAGE env) "en"
            /\ JsString.split "," (category (fst pr)) ∈ batches)
    (fetches (eventsOf (ingestNews env w)))
  /\ Forall (fun b => Forall cleanName b /\ 1 <= length b <= 5) batches.
Proof.
  intros Hkey Hne batches. split; [|apply categoryBatches_clean].
  rewrite (ingestNews_step env key w Hkey Hne). cbv zeta. fold batches.
  pose proof (batchLoop_params key (Batching.envOr (NEWS_FETCH_LANGUAGE env) "en")
                (length batches) batches 0 zeroTotals w) as HB.
  assert (Hfs : fetches (eventsOf (batchLoop key
                  (Batching.envOr (NEWS_FETCH_LANGUAGE env) "en") batches 0
                  (length batches) zeroTotals w))
                = fetches (eventsOf
                    match batchLoop key (Batching.envOr (NEWS_FETCH_LANGUAGE env) "en")
                            batches 0 (length batches) zeroTotals w with
                    | (w1, evs, Ok tot) =>
                        (w1,
                         EvLog info (Starting
                           (length (Batching.allCategories (NEWS_FETCH_CATEGORIES env)))
                           (length batches))
                         :: evs ++ [EvLog info (Complete (pages tot) (totalUpserted tot)
                                                  (totalModified tot))],
                         Ok (Some tot))
                    | (w1, evs, Throw e) =>
                        (w1,
                         EvLog info (Starting
                           (length (Batching.allCategories (NEWS_FETCH_CATEGORIES env)))
                           (length batches))
                         :: evs ++ [EvLog error (catchLine e)], Throw e)
                    | (w1, evs, Unfinished) =>
                        (w1,
                         EvLog info (Starting
                           (length (Batching.allCategories (NEWS_FETCH_CATEGORIES env)))
                           (length batches)) :: evs, Unfinished)
                    end)).
  { destruct (batchLoop _ _ _ _ _ _ w) as [[w1 evs] [t|e|]];
      unfold eventsOf; cbn [fst snd fetches]; rewrite ?fetches_app; cbn [fetches];
      by rewrite ?app_nil_r. }
  rewrite <- Hfs. eapply Forall_impl; [exact HB|].
  intros pr (A & B & b & Hb & C). repeat split; try done. rewrite C.
  pose proof (categoryBatches_clean (NEWS_FETCH_CATEGORIES env)) as Hclean.
  fold batches in Hclean. rewrite Forall_forall in Hclean.
  destruct (Hclean b Hb) as [Hnames Hlen].
  rewrite split_join; [exact Hb|by destruct b; [cbn in Hlen; lia|]|].
  eapply Forall_impl; [exact Hnames|]. by intros c (_ & Hc & _).
Qed.

End WithWorld.

(** At a concrete input: the category list [" , ,"]. *)
Lemma blank_category_witness :
  @ingestNews Scenario.strictHost (Scenario.constant Scenario.emptyPage)
    Scenario2.blankCategories tt
  = (tt, [EvLog info (Starting 0 0); EvLog info (Complete 0 0 0)], Ok (Some zeroTotals)).
Proof.
  exact (@blank_category_list_means_no_request Scenario.strictHost
           (Scenario.constant Scenario.emptyPage) Scenario2.blankCategories "k" " , ," tt
           eq_refl ltac:(discriminate) eq_refl ltac:(discriminate) eq_refl).
Defined.

(** At a concrete input: six categories, two batches. *)
Lemma request_witness :
  map (fun pr => JsString.split "," (category (fst pr)))
    (fetches (eventsOf Scenario.twoEmptyBatches))
  = [["technology"; "business"; "science"; "health"; "sports"]; ["entertainment"]]
  /\ Forall (fun pr =>
            apikey (fst pr) = "k" /\ language (fst pr) = "en"
            /\ JsString.split "," (category (fst pr))
               ∈ Batching.categoryBatches
                   (Batching.allCategories
                      (NEWS_FETCH_CATEGORIES Scenario.sixCategories)))
       (fetches (eventsOf Scenario.twoEmptyBatches)).
Proof.
  split; [reflexivity|].
  exact (proj1 (@every_request_names_one_batch Scenario.strictHost
                  (Scenario.scripted Store.StripUndefined) Scenario.sixCategories "k"
                  (Scenario.start [inr Scenario.emptyPage; inr Scenario.emptyPage])
                  eq_refl ltac:(discriminate))).
Defined.

End RequestExtras.

(** ** Doubles that hold integers *)

Module NumberFacts.

Import JsNumber.

Local Open Scope Z_scope.

Lemma nearestInteger_whole a : nearestInteger a 1 = a.
Proof.
  unfold nearestInteger. rewrite Z.div_1_r, Z.mod_1_r. reflexivity.
Qed.

(** The integer chosen is within half of the quotient. *)
Lemma nearestInteger_near a b :
  0 <= a -> 0 < b ->
  2 * (nearestInteger a b * b - a) <= b /\ 2 * (a - nearestInteger a b * b) <= b.
Proof.
  intros Ha Hb. unfold nearestInteger.
  pose proof (Z.div_mod a b ltac:(lia)) as E.
  pose proof (Z.mod_pos_bound a b Hb) as B.
  destruct (Z.ltb_spec (2 * (a mod b)) b); [nia|].
  destruct (Z.ltb_spec b (2 * (a mod b))); [nia|].
  destruct (Z.even (a / b)); nia.
Qed.

(** [floorLog2 a b] is the integer part of the logarithm of [a / b]. *)
Lemma floorLog2_spec a b :
  0 < a -> 0 < b ->
  (0 <= floorLog2 a b ->
     b * 2 ^ floorLog2 a b <= a < b * 2 ^ (floorLog2 a b + 1))
  /\ (floorLog2 a b < 0 ->
        b <= a * 2 ^ (- floorLog2 a b) /\ a * 2 ^ (- floorLog2 a b - 1) < b).
Proof.
  intros Ha Hb. unfold floorLog2.
  pose proof (Z.log2_spec a Ha) as [La Ua]. pose proof (Z.log2_spec b Hb) as [Lb Ub].
  pose proof (Z.log2_nonneg a) as Na. pose proof (Z.log2_nonneg b) as Nb.
  set (la := Z.log2 a) in *. set (lb := Z.log2 b) in *.
  rewrite <- !Z.add_1_r in Ua, Ub.
  assert (P : forall x y, 0 <= x -> 0 <= y -> 2 ^ (x + y) = 2 ^ x * 2 ^ y).
  { intros x y Hx Hy. by apply Z.pow_add_r. }
  assert (Q : forall x, 0 <= x -> 0 < 2 ^ x).
  { intros x Hx. by apply Z.pow_pos_nonneg. }
  assert (S1 : forall x, 0 <= x -> 2 ^ (x + 1) = 2 * 2 ^ x).
  { intros x Hx. rewrite P by lia. change (2 ^ 1) with 2. lia. }
  destruct (Z.leb_spec 0 (la - lb)) as [Hk|Hk].
  - set (K := la - lb) in *.
    pose proof (Q K Hk) as QK. pose proof (Q lb Nb) as Qlb.
    assert (Ela : 2 ^ la = 2 ^ lb * 2 ^ K).
    { rewrite <- P by lia. f_equal. lia. }
    rewrite (S1 la Na) in Ua. rewrite (S1 lb Nb) in Ub.
    destruct (Z.leb_spec (b * 2 ^ K) a) as [Hc|Hc].
    + split; [|lia]. intros _. split; [exact Hc|]. rewrite (S1 K Hk). nia.
    + destruct (Z.eq_dec K 0) as [E0|E0].
      * rewrite E0 in *. change (2 ^ 0) with 1 in *.
        split; [lia|]. intros _. change (- (0 - 1)) with 1. change (1 - 1) with 0.
        change (2 ^ 1) with 2. change (2 ^ 0) with 1. nia.
      * split; [|lia]. intros _.
        replace (K - 1 + 1) with K by lia. split; [|exact Hc].
        pose proof (S1 (K - 1) ltac:(lia)) as E. replace (K - 1 + 1) with K in E by lia.
        pose proof (Q (K - 1) ltac:(lia)). nia.
  - set (J := - (la - lb)) in *. replace (la - lb) with (- J) by lia.
    assert (HJ : 0 < J) by lia.
    pose proof (Q J ltac:(lia)) as QJ. pose proof (Q la Na) as Qla.
    assert (Elb : 2 ^ lb = 2 ^ la * 2 ^ J).
    { rewrite <- P by lia. f_equal. lia. }
    rewrite (S1 la Na) in Ua. rewrite (S1 lb Nb) in Ub.
    pose proof (S1 (J - 1) ltac:(lia)) as EJ. replace (J - 1 + 1) with J in EJ by lia.
    pose proof (Q (J - 1) ltac:(lia)) as QJ1.
    destruct (Z.leb_spec b (a * 2 ^ J)) as [Hc|Hc].
    + split; [lia|]. intros _. rewrite ?Z.opp_involutive. split; [exact Hc|]. nia.
    + split; [lia|]. intros _.
      replace (- (- J - 1)) with (J + 1) by lia. replace (J + 1 - 1) with J by lia.
      rewrite (S1 J ltac:(lia)). split; [nia|exact Hc].
Qed.

Lemma floorLog2_le a b : 0 < a -> 0 < b -> floorLog2 a b <= Z.log2 a.
Proof.
  intros Ha Hb. unfold floorLog2. pose proof (Z.log2_nonneg b).
  repeat match goal with |- context [if ?c then _ else _] => destruct c end; lia.
Qed.

Lemma floorLog2_whole a : 0 < a -> floorLog2 a 1 = Z.log2 a.
Proof.
  intros Ha. unfold floorLog2. change (Z.log2 1) with 0. rewrite Z.sub_0_r.
  pose proof (Z.log2_nonneg a). pose proof (Z.log2_spec a Ha) as [L _].
  destruct (Z.leb_spec 0 (Z.log2 a)); [|lia].
  destruct (Z.leb_spec (1 * 2 ^ Z.log2 a) a); [reflexivity|lia].
Qed.

(** An integer below [2 ^ 53] is a double. *)
Lemma ofZ_exact n : Z.abs n < 2 ^ 53 -> ofZ n = Int n.
Proof.
  intros Hn. unfold ofZ. destruct (Z.eqb_spec n 0) as [->|Hne]; [reflexivity|].
  assert (Ha : 0 < Z.abs n) by lia.
  assert (Hlog : Z.log2 (Z.abs n) < 53) by (by apply Z.log2_lt_pow2).
  assert (Hv : ceilOf (nearestDouble (Z.abs n) 1) = Z.abs n).
  { unfold nearestDouble. rewrite (floorLog2_whole _ Ha).
    destruct (Z.leb_spec 0 (Z.log2 (Z.abs n) - 52)) as [He|He].
    - replace (Z.log2 (Z.abs n) - 52) with 0 by lia. cbn [ceilOf Z.leb].
      change (2 ^ 0) with 1. rewrite Z.mul_1_l, nearestInteger_whole.
      change (0 <=? 0) with true. cbv iota. lia.
    - rewrite nearestInteger_whole. unfold ceilOf.
      destruct (Z.leb_spec 0 (Z.log2 (Z.abs n) - 52)); [lia|].
      assert (Hs : 0 < 2 ^ (- (Z.log2 (Z.abs n) - 52))) by (apply Z.pow_pos_nonneg; lia).
      rewrite <- Z.mul_opp_l, Z.div_mul by lia. lia. }
  rewrite Hv.
  assert (Hbig : 2 ^ 53 < 2 ^ 1024) by (apply Z.pow_lt_mono_r; lia).
  destruct (Z.leb_spec (2 ^ 1024) (Z.abs n)); [lia|]. f_equal. lia.
Qed.

(** [Math.ceil] of the rounded quotient of a count below [2 ^ 47] by a
    page size is the ceiling of the quotient. *)
Lemma ceilOfQuotient_exact (total : N) l :
  Z.of_N total < 2 ^ 47 -> 1 <= l <= 100 ->
  ceilOfQuotient total (Int l) = Int (- ((- Z.of_N total) / l)).
Proof.
  intros Ht Hl. unfold ceilOfQuotient.
  assert (H47 : 2 ^ 47 < 2 ^ 53) by (apply Z.pow_lt_mono_r; lia).
  rewrite ofZ_exact by lia.
  destruct (Z.eqb_spec l 0) as [|_]; [lia|].
  destruct (Z.eqb_spec (Z.of_N total) 0) as [->|Hne]; [by rewrite Z.div_0_l by lia|].
  destruct (Z.ltb_spec 0 l); [|lia]. f_equal.
  set (a := Z.of_N total) in *. assert (Ha : 0 < a) by lia.
  unfold nearestDouble.
  pose proof (floorLog2_le a l Ha ltac:(lia)) as HL.
  assert (Hlog : Z.log2 a < 47) by (by apply Z.log2_lt_pow2).
  destruct (Z.leb_spec 0 (floorLog2 a l - 52)) as [He|He]; [lia|].
  unfold ceilOf. destruct (Z.leb_spec 0 (floorLog2 a l - 52)); [lia|].
  set (s := 2 ^ (- (floorLog2 a l - 52))).
  assert (Hs : 64 <= s).
  { change 64 with (2 ^ 6). apply Z.pow_le_mono_r; lia. }
  set (m := nearestInteger (a * s) l).
  destruct (nearestInteger_near (a * s) l ltac:(nia) ltac:(lia)) as [N1 N2].
  fold m in N1, N2.
  set (c := - (- a / l)).
  assert (Hc : (c - 1) * l < a <= c * l).
  { subst c. pose proof (Z.div_mod (- a) l ltac:(lia)) as E.
    pose proof (Z.mod_pos_bound (- a) l ltac:(lia)) as B. nia. }
  assert (Hm : (c - 1) * s < m <= c * s) by nia.
  pose proof (Z.div_mod (- m) s ltac:(lia)) as E.
  pose proof (Z.mod_pos_bound (- m) s ltac:(lia)) as B. nia.
Qed.

End NumberFacts.

(** ** Paging of the list route *)

Module PagingExtras.

Import Js JsNumber Routes NumberFacts.

Local Open Scope Z_scope.

Lemma orDefault_given v d : v <> Undefined -> orDefault v d = v.
Proof. intros Hv. by destruct v. Qed.

Lemma pagingOf_inr page limit paging :
  pagingOf page limit = inr paging ->
  exists readPage readLimit,
    parseInt (orDefault page (Num 1)) = inr readPage
    /\ parseInt (orDefault limit (Num 20)) = inr readLimit
    /\ pageNum paging = Math_max (Int 1) readPage
    /\ limitNum paging = Math_min (Int 100) (Math_max (Int 1) readLimit)
    /\ skip paging = mul (sub (pageNum paging) (Int 1)) (limitNum paging).
Proof.
  unfold pagingOf.
  destruct (parseInt (orDefault page _)) as [e|readPage]; [done|].
  destruct (parseInt (orDefault limit _)) as [e|readLimit]; [done|].
  intros [= <-]. by exists readPage, readLimit.
Qed.

(** X7. When [page] and [limit] read as numbers, the page number is at
    least 1 and the page size lies between 1 and 100.  As long as the number
    of documents to skip is below [2 ^ 53] and the count of matching
    documents below [2 ^ 47], where doubles hold the results exactly: [skip]
    is the page size times the number of pages before this one, [totalPages]
    is the least number of pages that holds all the documents, [hasNextPage]
    says exactly that documents remain after this page, and [hasPrevPage]
    that some were skipped. *)
Theorem paging_is_clamped_and_consistent
    (page limit : Value) (paging : Paging) (p l : Z) (total : N) :
  pagingOf page limit = inr paging ->
  pageNum paging = Int p ->
  limitNum paging = Int l ->
  (p - 1) * l < 2 ^ 53 ->
  Z.of_N total < 2 ^ 47 ->
  1 <= p /\ 1 <= l <= 100
  /\ skip paging = Int ((p - 1) * l) /\ 0 <= (p - 1) * l
  /\ (exists n, totalPages (pageInfoOf paging total) = Int n
                /\ (n - 1) * l < Z.of_N total <= n * l /\ 0 <= n)
  /\ (hasNextPage (pageInfoOf paging total) = true <-> (p - 1) * l + l < Z.of_N total)
  /\ (hasPrevPage (pageInfoOf paging total) = true <-> 0 < (p - 1) * l).
Proof.
  intros Hpaging Hp Hl Hskip Htotal.
  destruct (pagingOf_inr _ _ _ Hpaging) as (readPage & readLimit & _ & _ & Ep & El & Es).
  assert (Bp : 1 <= p).
  { rewrite Hp in Ep. destruct readPage as [|[]|n]; try discriminate;
      cbn in Ep; [by injection Ep as ->|].
    destruct (Z.ltb_spec 1 n); injection Ep as ->; lia. }
  assert (Bl : 1 <= l <= 100).
  { rewrite Hl in El. destruct readLimit as [|[]|n]; try discriminate; cbn in El;
      try (injection El as ->; lia).
    destruct (Z.ltb_spec 1 n); cbn in El.
    - destruct (Z.ltb_spec n 100); injection El as ->; lia.
    - injection El as ->; lia. }
  assert (Hs : skip paging = Int ((p - 1) * l)).
  { rewrite Es, Hp, Hl. cbn [sub mul]. rewrite ofZ_exact by nia. cbn [mul].
    apply ofZ_exact. nia. }
  split; [exact Bp|]. split; [exact Bl|]. split; [exact Hs|]. split; [nia|].
  unfold pageInfoOf. cbn [totalPages hasNextPage hasPrevPage].
  rewrite Hp, Hl, (ceilOfQuotient_exact total l Htotal Bl). cbn [lt].
  assert (Hceil : (- (- Z.of_N total / l) - 1) * l < Z.of_N total
                  <= - (- Z.of_N total / l) * l).
  { pose proof (Z.div_mod (- Z.of_N total) l ltac:(lia)) as E.
    pose proof (Z.mod_pos_bound (- Z.of_N total) l ltac:(lia)) as B. nia. }
  split; [|split].
  - exists (- (- Z.of_N total / l)). repeat split; nia.
  - rewrite Z.ltb_lt. split; intros Hn; nia.
  - rewrite Z.ltb_lt. split; intros Hn; nia.
Qed.

(** At a concrete input: the third page of ten, thirty-five documents. *)
Lemma paging_witness :
  skip (mkPaging (Int 3) (Int 10) (Int 20)) = Int ((3 - 1) * 10)
  /\ (hasNextPage (pageInfoOf (mkPaging (Int 3) (Int 10) (Int 20)) 35) = true
      <-> (3 - 1) * 10 + 10 < 35).
Proof.
  assert (Hpaging : pagingOf (Str "3") (Str "10") = inr (mkPaging (Int 3) (Int 10) (Int 20)))
    by (vm_compute; reflexivity).
  assert (Hskip : (3 - 1) * 10 < 2 ^ 53) by (vm_compute; reflexivity).
  assert (Htotal : Z.of_N 35 < 2 ^ 47) by (vm_compute; reflexivity).
  pose proof (paging_is_clamped_and_consistent (Str "3") (Str "10")
                (mkPaging (Int 3) (Int 10) (Int 20)) 3 10 35
                Hpaging eq_refl eq_refl Hskip Htotal)
    as (_ & _ & Hs & _ & _ & Hn & _).
  split; [exact Hs|exact Hn].
Defined.

(** Beyond [2 ^ 53] the page number read and [skip] are the nearest doubles,
    not the integers written. *)
Lemma paging_beyond_exact_integers :
  pagingOf (Str "9007199254740993") (Str "100")
  = inr {| pageNum := Int 9007199254740992;
           limitNum := Int 100;
           skip := Int 900719925474099072 |}
  /\ totalPages (pageInfoOf (mkPaging (Int 1) (Int 10) (Int 0)) 10) = Int 1
  /\ totalPages (pageInfoOf (mkPaging (Int 1) (Int 3) (Int 0)) 10) = Int 4.
Proof. vm_compute. repeat split. Qed.

(** X8. A [page] or [limit] that is given but does not start, after white
    space and a sign, with a digit is not replaced by the default: the number
    read is NaN, and so are [skip] and, for [limit], [totalPages]; the two
    flags of the answer are then false whatever the count. *)
Theorem unreadable_page_or_limit_gives_NaN
    (page limit : Value) (paging : Paging) (total : N) :
  pagingOf page limit = inr paging ->
  (page <> Undefined /\ parseInt page = inr NaN)
  \/ (limit <> Undefined /\ parseInt limit = inr NaN) ->
  skip paging = NaN
  /\ hasNextPage (pageInfoOf paging total) = false
  /\ (parseInt page = inr NaN -> page <> Undefined ->
        pageNum paging = NaN
        /\ hasPrevPage (pageInfoOf paging total) = false)
  /\ (parseInt limit = inr NaN -> limit <> Undefined ->
        limitNum paging = NaN
        /\ totalPages (pageInfoOf paging total) = NaN).
Proof.
  intros Hpaging Hcase.
  destruct (pagingOf_inr _ _ _ Hpaging) as (readPage & readLimit & Rp & Rl & Ep & El & Es).
  assert (Hpage : parseInt page = inr NaN -> page <> Undefined -> pageNum paging = NaN).
  { intros Hn Hv. rewrite (orDefault_given _ _ Hv), Hn in Rp. injection Rp as <-.
    by rewrite Ep. }
  assert (Hlimit : parseInt limit = inr NaN -> limit <> Undefined -> limitNum paging = NaN).
  { intros Hn Hv. rewrite (orDefault_given _ _ Hv), Hn in Rl. injection Rl as <-.
    by rewrite El. }
  assert (Hnan : pageNum paging = NaN \/ limitNum paging = NaN).
  { destruct Hcase as [[Hv Hn]|[Hv Hn]]; [left|right]; eauto. }
  assert (Hquot : limitNum paging = NaN -> ceilOfQuotient total (limitNum paging) = NaN).
  { intros ->. unfold ceilOfQuotient. by destruct (ofZ (Z.of_N total)) as [|[]|]. }
  split; [|split; [|split]].
  - rewrite Es. destruct Hnan as [->| ->]; [reflexivity|].
    by destruct (sub (pageNum paging) (Int 1)) as [|[]|].
  - unfold pageInfoOf. cbn [hasNextPage].
    destruct Hnan as [->|E]; [reflexivity|]. rewrite (Hquot E).
    by destruct (pageNum paging) as [|[]|].
  - intros Hn Hv. unfold pageInfoOf. cbn [hasPrevPage]. by rewrite (Hpage Hn Hv).
  - intros Hn Hv. unfold pageInfoOf. cbn [totalPages].
    split; [by apply Hlimit|]. by apply Hquot, Hlimit.
Qed.

(** At a concrete input: [?page=abc]. *)
Lemma unreadable_page_witness :
  skip (mkPaging NaN (Int 20) NaN) = NaN
  /\ hasNextPage (pageInfoOf (mkPaging NaN (Int 20) NaN) 35) = false.
Proof.
  assert (Hpaging : pagingOf (Str "abc") Undefined = inr (mkPaging NaN (Int 20) NaN))
    by (vm_compute; reflexivity).
  assert (Hv : Str "abc" <> Undefined) by discriminate.
  assert (Hn : parseInt (Str "abc") = inr NaN) by (vm_compute; reflexivity).
  pose proof (unreadable_page_or_limit_gives_NaN (Str "abc") Undefined
                (mkPaging NaN (Int 20) NaN) 35 Hpaging (or_introl (conj Hv Hn)))
    as (A & B & _).
  split; [exact A|exact B].
Defined.

End PagingExtras.

(** ** The filter built from a request *)

Module QueryFacts.

Import Js JsString Text Routes Params.

Lemma onlyCommas_split s :
  onlyCommas s = true -> List.filter nonEmpty (split "," s) = [].
Proof.
  induction s as [|c s IH]; [done|]. cbn [onlyCommas split].
  intros E. apply andb_true_iff in E as [Ec Es]. rewrite Ec.
  cbn [List.filter nonEmpty]. by apply IH.
Qed.

Lemma filter_entries l :
  Forall entry l -> List.filter nonEmpty l = l.
Proof.
  induction 1 as [|c l [Hc _] _ IH]; [done|]. cbn [List.filter].
  destruct c; [done|]. cbn [nonEmpty]. by rewrite IH.
Qed.

Lemma filter_truthy_strings l :
  Forall entry l -> List.filter truthy (List.map Str l) = List.map Str l.
Proof.
  induction 1 as [|c l [Hc _] _ IH]; [done|]. cbn [List.map List.filter truthy].
  destruct c; [done|]. cbn [nonEmpty]. by rewrite IH.
Qed.

Lemma join_nonEmpty l :
  l <> [] -> Forall entry l -> nonEmpty (join "," l) = true.
Proof.
  intros Hl Hall. destruct Hall as [|c l [Hc _] _]; [done|].
  destruct c as [|a c]; [done|]. by destruct l.
Qed.

Lemma filter_truthy_all (items : list Value) :
  Forall (fun v => truthy v = true) (List.filter truthy items).
Proof.
  induction items as [|v items IH]; cbn [List.filter]; [constructor|].
  destruct (truthy v) eqn:E; [by constructor|exact IH].
Qed.

Lemma strings_truthy l :
  Forall (fun v => truthy v = true) (List.map Str (List.filter nonEmpty l)).
Proof.
  induction l as [|c l IH]; cbn [List.filter List.map]; [constructor|].
  destruct (nonEmpty c) eqn:E; [by constructor|exact IH].
Qed.

Lemma trimStart_empty s : trimStart s = EmptyString -> allWhite s = true.
Proof.
  induction s as [|c s IH]; [done|]. cbn [trimStart allWhite].
  destruct (isWhiteSpace c); [exact IH|discriminate].
Qed.

Lemma trimEnd_empty s : trimEnd s = EmptyString -> allWhite s = true.
Proof.
  induction s as [|c s IH]; [done|]. cbn [trimEnd allWhite].
  destruct (trimEnd s); [|discriminate].
  destruct (isWhiteSpace c); [intros _; by apply IH|discriminate].
Qed.

Lemma allWhite_trimStart s : allWhite (trimStart s) = true -> allWhite s = true.
Proof.
  induction s as [|c s IH]; [done|]. cbn [trimStart allWhite].
  destruct (isWhiteSpace c) eqn:E; [exact IH|]. cbn [allWhite]. by rewrite E.
Qed.

(** [trim] gives the empty string for white space only. *)
Lemma trim_empty s : trim s = EmptyString <-> allWhite s = true.
Proof.
  split; [|apply TextFacts.trim_allWhite].
  unfold trim. intros E. by apply allWhite_trimStart, trimEnd_empty.
Qed.

Section WithHost.
Context `{JsDate.Host}.

Lemma listOf_name n n' v x : listOf n v = inr x -> listOf n' v = inr x.
Proof. unfold listOf. destruct (truthy v); [|done]. by destruct v. Qed.

Lemma listOf_listable n v : (exists x, listOf n v = inr x) <-> listable v = true.
Proof.
  unfold listOf, listable. destruct (truthy v) eqn:E; cbn [negb orb].
  - destruct v; cbn; split; (try by intros [? ?]); eauto; done.
  - split; eauto.
Qed.

Lemma trimmedOf_textual n v : (exists x, trimmedOf n v = inr x) <-> textual v = true.
Proof.
  unfold trimmedOf, textual. destruct (truthy v) eqn:E; cbn [negb orb].
  - destruct v; cbn; split; (try by intros [? ?]); eauto; done.
  - split; eauto.
Qed.

Lemma dateRangeOf_datable from to :
  (exists range, dateRangeOf from to = inr range)
  <-> datable from = true /\ datable to = true.
Proof.
  unfold dateRangeOf, datable, convertible, dateOf.
  destruct (truthy from), (truthy to), (ToString from), (ToString to);
    cbn [negb orb]; split; try (by intros [? ?]); try (intros [? ?]; done); eauto.
Qed.

Lemma dateRangeOf_inl from to e :
  dateRangeOf from to = inl e ->
  (truthy from = true /\ ToString from = inl e)
  \/ (truthy to = true /\ ToString to = inl e).
Proof.
  unfold dateRangeOf, dateOf.
  destruct (truthy from), (truthy to); cbn [orb]; try done;
    destruct (ToString from) as [e1|] eqn:E1, (ToString to) as [e2|] eqn:E2;
    try done; intros [= <-]; eauto.
Qed.

(** What a built filter says of the parameters. *)
Lemma buildQuery_inr q r :
  buildQuery q = inr r ->
  dateRangeOf (startDate q) (endDate q) = inr (pubDate r)
  /\ trimmedOf "author" (author q) = inr (creator r)
  /\ listOf "language" (qlanguage q) = inr (inLanguage r)
  /\ listOf "country" (country q) = inr (inCountry r)
  /\ (exists categories,
        listOf "category" (qcategory q) = inr categories
        /\ inCategory r = match categories with
                          | Some ((_ :: _) as filtered) => Some filtered
                          | _ => None
                          end)
  /\ listOf "datatype" (datatype q) = inr (inDatatype r)
  /\ trimmedOf "search" (search q) = inr (text r).
Proof.
  unfold buildQuery.
  destruct (dateRangeOf _ _) as [|range]; [done|].
  destruct (trimmedOf "author" _) as [|a]; [done|].
  destruct (listOf "language" _) as [|l]; [done|].
  destruct (listOf "country" _) as [|c]; [done|].
  destruct (listOf "category" _) as [|g]; [done|].
  destruct (listOf "datatype" _) as [|d]; [done|].
  destruct (trimmedOf "search" _) as [|t]; [done|].
  intros [= <-]. cbn. repeat split; try reflexivity.
  exists g. split; [reflexivity|]. by destruct g as [[|? ?]|].
Qed.

Lemma listOf_filter f q r :
  buildQuery q = inr r ->
  exists n listed,
    listOf n (paramOf f q) = inr listed
    /\ filterOf f r = match f, listed with
                      | Category, Some [] => None
                      | _, _ => listed
                      end.
Proof.
  intros Hb. apply buildQuery_inr in Hb as (_ & _ & Hl & Hc & (g & Hg & Eg) & Hd & _).
  destruct f; cbn [paramOf filterOf]; eauto.
  exists "category", g. split; [exact Hg|]. rewrite Eg. by destruct g as [[|? ?]|].
Qed.

Lemma buildQuery_withParam f q v v' :
  (forall n, listOf n v = listOf n v') ->
  buildQuery (withParam f v q) = buildQuery (withParam f v' q).
Proof.
  intros E. destruct f; unfold buildQuery;
    cbn [withParam startDate endDate author qlanguage country qcategory datatype search];
    by rewrite E.
Qed.

Lemma paramOf_withParam f v q : paramOf f (withParam f v q) = v.
Proof. by destruct f. Qed.

End WithHost.

End QueryFacts.

Module QueryExtras.

Import Js JsString Text Routes Params QueryFacts.

Section WithHost.
Context `{JsDate.Host}.

(** X9. A list parameter may be sent as one comma-separated string or as an
    array (a repeated parameter): for entries that are not empty and hold no
    comma, both forms build the same filter, whatever the other parameters
    are, and its [$in] list is the entries in their order. *)
Theorem comma_string_and_array_build_the_same_filter
    (f : ListParam) (q : QueryParams) (entries : list string) :
  entries <> [] -> Forall entry entries ->
  buildQuery (withParam f (Str (join "," entries)) q)
  = buildQuery (withParam f (Arr (List.map Str entries)) q)
  /\ forall r, buildQuery (withParam f (Arr (List.map Str entries)) q) = inr r ->
       filterOf f r = Some (List.map Str entries).
Proof.
  intros Hne Hall.
  assert (Hs : forall n, listOf n (Str (join "," entries))
                         = inr (Some (List.map Str entries))).
  { intros n. unfold listOf. cbn [truthy]. rewrite (join_nonEmpty _ Hne Hall).
    rewrite TextFacts.split_join; [|exact Hne|].
    - by rewrite (filter_entries _ Hall).
    - eapply Forall_impl; [exact Hall|]. by intros c [_ Hc]. }
  assert (Ha : forall n, listOf n (Arr (List.map Str entries))
                         = inr (Some (List.map Str entries))).
  { intros n. unfold listOf. cbn [truthy]. by rewrite (filter_truthy_strings _ Hall). }
  split.
  - apply buildQuery_withParam. intros n. by rewrite Hs, Ha.
  - intros r Hr. destruct (listOf_filter f _ _ Hr) as (n & listed & Hl & Hf).
    rewrite paramOf_withParam, Ha in Hl. injection Hl as <-. rewrite Hf.
    destruct f; try reflexivity. destruct entries; [done|reflexivity].
Qed.

(** X10. A list parameter made of commas only names nothing.  For
    [category] the filter is then left out, so every article matches; for
    [language], [country] and [datatype] the filter is kept with an empty
    [$in] list, which no article matches. *)
Theorem comma_only_parameter_empties_or_drops_the_filter
    (f : ListParam) (q : QueryParams) (s : string) (r : Query) :
  s <> EmptyString -> onlyCommas s = true ->
  paramOf f q = Str s ->
  buildQuery q = inr r ->
  filterOf f r = match f with Category => None | _ => Some [] end.
Proof.
  intros Hne Hs Hp Hr. destruct (listOf_filter f _ _ Hr) as (n & listed & Hl & Hf).
  rewrite Hp in Hl. unfold listOf in Hl. cbn [truthy] in Hl.
  destruct s as [|c s]; [done|]. cbn [nonEmpty] in Hl.
  rewrite (onlyCommas_split _ Hs) in Hl. cbn [List.map] in Hl. injection Hl as <-.
  rewrite Hf. by destruct f.
Qed.

(** X11. A list filter is built only for a parameter that is given and
    truthy; its [$in] list never holds an empty string or another falsy
    value, and the list of the [category] filter is never empty.  A parameter
    that is absent or falsy builds no filter. *)
Theorem list_filters_hold_no_empty_entry
    (f : ListParam) (q : QueryParams) (r : Query) :
  buildQuery q = inr r ->
  (forall listed, filterOf f r = Some listed ->
     truthy (paramOf f q) = true
     /\ Forall (fun v => truthy v = true) listed
     /\ (f = Category -> listed <> []))
  /\ (truthy (paramOf f q) = false -> filterOf f r = None).
Proof.
  intros Hr. destruct (listOf_filter f _ _ Hr) as (n & listed & Hl & Hf).
  unfold listOf in Hl. destruct (truthy (paramOf f q)) eqn:Et.
  - split; [|done]. intros l Hfl. split; [reflexivity|].
    assert (Hall : forall l', listed = Some l' -> Forall (fun v => truthy v = true) l').
    { intros l' ->. destruct (paramOf f q); try discriminate; injection Hl as <-.
      - apply strings_truthy.
      - apply filter_truthy_all. }
    rewrite Hf in Hfl.
    destruct f; try (subst listed; split; [by apply Hall|done]).
    destruct listed as [[|v l']|]; [done| |done]. injection Hfl as <-.
    split; [by apply Hall|done].
  - split; [|intros _]; injection Hl as <-; rewrite Hf; by destruct f.
Qed.

(** X12. An [author] or [search] made of white space only is ignored like
    an absent one; otherwise the filter holds the text with the white space
    around it removed, which is never empty. *)
Theorem blank_text_parameters_are_ignored (q : QueryParams) (r : Query) :
  buildQuery q = inr r ->
  (forall s, author q = Str s ->
     creator r = if allWhite s then None else Some (trim s))
  /\ (forall s, search q = Str s ->
        text r = if allWhite s then None else Some (trim s))
  /\ (forall t, creator r = Some t \/ text r = Some t ->
        t <> EmptyString /\ trim t = t)
  /\ (truthy (author q) = false -> creator r = None)
  /\ (truthy (search q) = false -> text r = None).
Proof.
  intros Hr. apply buildQuery_inr in Hr as (_ & Ha & _ & _ & _ & _ & Hs).
  assert (Hstr : forall n s x, trimmedOf n (Str s) = inr x ->
            x = if allWhite s then None else Some (trim s)).
  { intros n s x. unfold trimmedOf. cbn [truthy].
    destruct (allWhite s) eqn:Ew.
    - rewrite (TextFacts.trim_allWhite _ Ew).
      destruct (nonEmpty s); cbn [nonEmpty]; congruence.
    - assert (Hne : nonEmpty s = true).
      { destruct s; [discriminate Ew|reflexivity]. }
      rewrite Hne. destruct (trim s) eqn:Et; [|cbn [nonEmpty]; congruence].
      apply trim_empty in Et. congruence. }
  assert (Hsome : forall n v t, trimmedOf n v = inr (Some t) ->
            t <> EmptyString /\ trim t = t).
  { intros n v t. unfold trimmedOf. destruct (truthy v); [|done].
    destruct v; try done. destruct (nonEmpty (trim s)) eqn:En; [|done].
    intros [= <-]. split; [by destruct (trim s)|apply TextFacts.trim_idem]. }
  assert (Hfalsy : forall n v x, truthy v = false -> trimmedOf n v = inr x -> x = None).
  { intros n v x Hv. unfold trimmedOf. rewrite Hv. congruence. }
  split; [|split; [|split; [|split]]].
  - intros s E. rewrite E in Ha. by eapply Hstr.
  - intros s E. rewrite E in Hs. by eapply Hstr.
  - intros t [E|E]; [rewrite E in Ha|rewrite E in Hs]; by eapply Hsome.
  - intros Hv. by eapply Hfalsy.
  - intros Hv. by eapply Hfalsy.
Qed.

(** X13. [buildQuery] returns a filter exactly when [startDate] and
    [endDate] are absent, falsy or values that convert to a string, [author]
    and [search] are absent, falsy or strings, and the four list parameters
    are absent, falsy, strings or arrays; for any other request (an object
    with a [toString] of its own as [startDate], an array as [author], an
    object as [language]) it throws, a date that does not convert first. *)
Theorem buildQuery_throws_exactly_on_a_misshaped_parameter (q : QueryParams) :
  ((exists r, buildQuery q = inr r)
   <-> (datable (startDate q) = true /\ datable (endDate q) = true
        /\ textual (author q) = true /\ textual (search q) = true
        /\ forall f, listable (paramOf f q) = true))
  /\ (datable (startDate q) && datable (endDate q) = false ->
      exists e, buildQuery q = inl e
                /\ (ToString (startDate q) = inl e \/ ToString (endDate q) = inl e)).
Proof.
  split; [split|].
  - intros [r Hr].
    apply buildQuery_inr in Hr as (Hp & Ha & Hl & Hc & (g & Hg & _) & Hd & Hs).
    destruct (proj1 (dateRangeOf_datable _ _) (ex_intro _ _ Hp)) as [D1 D2].
    split; [exact D1|]. split; [exact D2|].
    split; [apply (trimmedOf_textual "author"); eauto|].
    split; [apply (trimmedOf_textual "search"); eauto|].
    intros []; cbn [paramOf].
    + apply (listOf_listable "language"); eauto.
    + apply (listOf_listable "country"); eauto.
    + apply (listOf_listable "category"); eauto.
    + apply (listOf_listable "datatype"); eauto.
  - intros (D1 & D2 & Ha & Hs & Hf).
    destruct (proj2 (dateRangeOf_datable _ _) (conj D1 D2)) as [range Hp].
    apply (trimmedOf_textual "author") in Ha as [a Ha].
    apply (trimmedOf_textual "search") in Hs as [t Hs].
    pose proof (Hf Language) as Hl. pose proof (Hf Country) as Hc.
    pose proof (Hf Category) as Hg. pose proof (Hf Datatype) as Hd.
    cbn [paramOf] in *.
    apply (listOf_listable "language") in Hl as [l Hl].
    apply (listOf_listable "country") in Hc as [c Hc].
    apply (listOf_listable "category") in Hg as [g Hg].
    apply (listOf_listable "datatype") in Hd as [d Hd].
    unfold buildQuery. rewrite Hp, Ha, Hl, Hc, Hg, Hd, Hs. eauto.
  - intros Hd. unfold buildQuery.
    destruct (dateRangeOf (startDate q) (endDate q)) as [e|range] eqn:Hp.
    + exists e. split; [reflexivity|].
      destruct (dateRangeOf_inl _ _ _ Hp) as [[_ E]|[_ E]]; eauto.
    + destruct (proj1 (dateRangeOf_datable _ _) (ex_intro _ _ Hp)) as [D1 D2].
      rewrite D1, D2 in Hd. discriminate.
Qed.

End WithHost.

(** At a concrete input: [?language=en,fr] and [?language=en&language=fr]. *)
Lemma list_forms_witness :
  @buildQuery Scenario.strictHost (withParam Language (Str "en,fr") noParams)
  = @buildQuery Scenario.strictHost (withParam Language (Arr [Str "en"; Str "fr"]) noParams).
Proof.
  assert (Hne : ["en"; "fr"]%string <> []) by discriminate.
  assert (Hall : Forall entry ["en"; "fr"]%string).
  { repeat constructor; discriminate. }
  exact (proj1 (@comma_string_and_array_build_the_same_filter Scenario.strictHost
                  Language noParams ["en"; "fr"]%string Hne Hall)).
Defined.

(** At a concrete input: [?language=,]. *)
Lemma comma_only_witness :
  filterOf Language (mkQuery None None (Some []) None None None None) = Some [].
Proof.
  assert (Hne : ","%string <> EmptyString) by discriminate.
  assert (Hs : onlyCommas "," = true) by reflexivity.
  assert (Hp : paramOf Language (withParam Language (Str ",") noParams) = Str ",")
    by reflexivity.
  assert (Hr : @buildQuery Scenario.strictHost (withParam Language (Str ",") noParams)
               = inr (mkQuery None None (Some []) None None None None))
    by (vm_compute; reflexivity).
  exact (@comma_only_parameter_empties_or_drops_the_filter Scenario.strictHost
           Language _ _ _ Hne Hs Hp Hr).
Defined.

(** At a concrete input: [?category=a,,b]. *)
Lemma no_empty_entry_witness :
  Forall (fun v => truthy v = true) [Str "a"; Str "b"].
Proof.
  assert (Hr : @buildQuery Scenario.strictHost (withParam Category (Str "a,,b") noParams)
               = inr (mkQuery None None None None (Some [Str "a"; Str "b"]) None None))
    by (vm_compute; reflexivity).
  exact (proj1 (proj2 (proj1 (@list_filters_hold_no_empty_entry Scenario.strictHost
                  Category _ _ Hr) [Str "a"; Str "b"] eq_refl))).
Defined.

(** At a concrete input: [?author=%20%20]. *)
Lemma blank_author_witness :
  creator (mkQuery None None None None None None None) = None.
Proof.
  assert (Hr : @buildQuery Scenario.strictHost
                 (mkQueryParams Undefined Undefined (Str "  ") Undefined Undefined
                    Undefined Undefined Undefined)
               = inr (mkQuery None None None None None None None))
    by (vm_compute; reflexivity).
  exact (proj1 (@blank_text_parameters_are_ignored Scenario.strictHost _ _ Hr)
           "  "%string eq_refl).
Defined.

End QueryExtras.

(** ** The date range of a request and the dates of ingestion *)

Module DayFacts.

Import Js Service DateFacts.

Local Open Scope Z_scope.

(** The time value of fields in range, milliseconds included. *)
Lemma timeValue_millis t ms :
  Civil.valid t = true -> 0 <= ms <= 999 ->
  JsDate.timeValue
    (JsDate.mkFields (Civil.year t) (Civil.month t) (Civil.day t)
       (Civil.hour t) (Civil.minute t) (Civil.second t) ms)
  = Some (Civil.instant t + ms).
Proof.
  intros Hv Hms. apply valid_bounds in Hv as (Hy & Hmo & Hd & Hh & Hmi & Hs).
  pose proof (daysInMonth_le_31 (Civil.year t) (Civil.month t)) as H31.
  pose proof (DayFromYear_bounds _ Hy) as HB.
  pose proof (daysOfMonths_bounds (Civil.year t) _ Hmo) as HM.
  unfold JsDate.timeValue. cbn [JsDate.year JsDate.month JsDate.day JsDate.hour
    JsDate.minute JsDate.second JsDate.millis].
  assert (E : JsDate.MakeDate
                (JsDate.MakeDay (Civil.year t) (Civil.month t - 1) (Civil.day t))
                (JsDate.MakeTime (Civil.hour t) (Civil.minute t) (Civil.second t) ms)
              = Civil.instant t + ms).
  { unfold JsDate.MakeDate, JsDate.MakeDay, JsDate.MakeTime, Civil.instant, Civil.epochDay.
    replace ((Civil.month t - 1) / 12) with 0 by euclid.
    replace ((Civil.month t - 1) mod 12) with (Civil.month t - 1) by euclid.
    rewrite Z.add_0_r, monthStart_daysOfMonths, dayOfYearStart_DayFromYear by lia.
    unfold JsDate.msPerDay, JsDate.msPerHour, JsDate.msPerMinute, JsDate.msPerSecond.
    lia. }
  rewrite E. unfold JsDate.TimeClip.
  destruct (Z.leb_spec (Z.abs (Civil.instant t + ms)) 8640000000000000) as [_|Hbig];
    [reflexivity|].
  exfalso. revert Hbig. unfold Civil.instant, Civil.epochDay.
  rewrite dayOfYearStart_DayFromYear. lia.
Qed.

Lemma atTime_valid d h mi sec :
  Civil.valid d = true -> 0 <= h <= 23 -> 0 <= mi <= 59 -> 0 <= sec <= 59 ->
  Civil.valid (Day.atTime d h mi sec) = true.
Proof.
  intros Hv Hh Hmi Hs. apply valid_bounds in Hv as (Hy & Hmo & Hd & _).
  unfold Civil.valid, Day.atTime. cbn [Civil.year Civil.month Civil.day Civil.hour
    Civil.minute Civil.second].
  rewrite !andb_true_iff, !Z.leb_le. lia.
Qed.

Lemma instant_atTime d h mi sec :
  Civil.instant (Day.atTime d h mi sec)
  = Day.midnight d + ((h * 60 + mi) * 60 + sec) * 1000.
Proof. unfold Civil.instant, Day.midnight, Civil.epochDay, Day.atTime. cbn. lia. Qed.

(** The text [<day>T<time>Z] for a time of day written with two digits per
    field and three for the milliseconds. *)
Lemma parse_day_with_time d (time : string) h mi sec ms :
  Civil.valid d = true ->
  JsDate.parseTime time = Some (h, mi, sec, ms, "Z"%string) ->
  0 <= h <= 23 -> 0 <= mi <= 59 -> 0 <= sec <= 59 ->
  JsDate.parseUtcDateTime (Day.text d +:+ String "T" time)
  = Some (JsDate.mkFields (Civil.year d) (Civil.month d) (Civil.day d) h mi sec ms).
Proof.
  intros Hv Ht Hh Hmi Hs.
  apply valid_bounds in Hv as (Hy & Hmo & Hd & _).
  pose proof (daysInMonth_le_31 (Civil.year d) (Civil.month d)) as H31.
  unfold Day.text. rewrite append_pad4.
  change (String "-" ?a +:+ ?b)%string with (String "-" (a +:+ b)).
  rewrite append_pad2.
  change (String "-" ?a +:+ ?b)%string with (String "-" (a +:+ b)).
  rewrite append_pad2.
  change (EmptyString +:+ ?b)%string with b.
  unfold JsDate.parseUtcDateTime.
  rewrite parseYear_pad4 by lia. rewrite parseMonthDay_pad by lia.
  cbn [JsDate.lit Ascii.eqb Bool.eqb]. rewrite Ht.
  unfold JsDate.inRange. cbn [JsDate.year JsDate.month JsDate.day JsDate.hour
    JsDate.minute JsDate.second JsDate.millis].
  rewrite daysInMonth_agree by lia.
  replace (1 <=? Civil.month d) with true by (symmetry; apply Z.leb_le; lia).
  replace (Civil.month d <=? 12) with true by (symmetry; apply Z.leb_le; lia).
  replace (1 <=? Civil.day d) with true by (symmetry; apply Z.leb_le; lia).
  replace (Civil.day d <=? Civil.daysInMonth (Civil.year d) (Civil.month d))
    with true by (symmetry; apply Z.leb_le; lia).
  replace (h <=? 23) with true by (symmetry; apply Z.leb_le; lia).
  replace (mi <=? 59) with true by (symmetry; apply Z.leb_le; lia).
  replace (sec <=? 59) with true by (symmetry; apply Z.leb_le; lia).
  reflexivity.
Qed.

Lemma daysInMonth_nonneg y m : 0 <= Civil.daysInMonth y m.
Proof.
  unfold Civil.daysInMonth. destruct (Civil.leap y);
    repeat match goal with |- context [match ?x with _ => _ end] => destruct x end; lia.
Qed.

Lemma daysOfMonths_mono y (a b : nat) :
  (a <= b)%nat -> Civil.daysOfMonths y a <= Civil.daysOfMonths y b.
Proof.
  induction 1 as [|b _ IH]; [lia|]. cbn [Civil.daysOfMonths].
  pose proof (daysInMonth_nonneg y (Z.of_nat (S b))). lia.
Qed.

Lemma daysOfMonths_year y : Civil.daysOfMonths y 12 = Civil.yearLength y.
Proof.
  unfold Civil.yearLength. cbv -[Civil.leap]. by destruct (Civil.leap y).
Qed.

(** A day of a month lies before the first day of the next. *)
Lemma ofYear_below t :
  Civil.valid t = true ->
  0 <= Day.ofYear t
  /\ Day.ofYear t < Civil.daysOfMonths (Civil.year t) (Z.to_nat (Civil.month t)).
Proof.
  intros Hv. apply valid_bounds in Hv as (Hy & Hmo & Hd & _).
  pose proof (daysOfMonths_bounds (Civil.year t) _ Hmo) as HM.
  unfold Day.ofYear. split; [lia|].
  replace (Z.to_nat (Civil.month t)) with (S (Z.to_nat (Civil.month t - 1))) by lia.
  cbn [Civil.daysOfMonths].
  replace (Z.of_nat (S (Z.to_nat (Civil.month t - 1)))) with (Civil.month t) by lia.
  lia.
Qed.

Lemma ofYear_in_year t :
  Civil.valid t = true -> 0 <= Day.ofYear t < Civil.yearLength (Civil.year t).
Proof.
  intros Hv. destruct (ofYear_below t Hv) as [H0 H1].
  apply valid_bounds in Hv as (_ & Hmo & _).
  pose proof (daysOfMonths_mono (Civil.year t) (Z.to_nat (Civil.month t)) 12 ltac:(lia)).
  rewrite daysOfMonths_year in *. lia.
Qed.

Lemma DayFromYear_mono y y' : y <= y' -> JsDate.DayFromYear y <= JsDate.DayFromYear y'.
Proof. intros Hy. unfold JsDate.DayFromYear. euclid. Qed.

Lemma epochDay_split t :
  Civil.epochDay t = JsDate.DayFromYear (Civil.year t) + Day.ofYear t.
Proof.
  unfold Civil.epochDay, Day.ofYear. rewrite dayOfYearStart_DayFromYear. lia.
Qed.

(** Days in calendar order have day numbers in the same order. *)
Lemma epochDay_lt a b :
  Civil.valid a = true -> Civil.valid b = true ->
  Civil.year a < Civil.year b
  \/ (Civil.year a = Civil.year b
      /\ (Civil.month a < Civil.month b
          \/ (Civil.month a = Civil.month b /\ Civil.day a < Civil.day b))) ->
  Civil.epochDay a < Civil.epochDay b.
Proof.
  intros Ha Hb Hlt. rewrite !epochDay_split.
  pose proof (ofYear_in_year a Ha) as Ia. pose proof (ofYear_in_year b Hb) as Ib.
  destruct Hlt as [Hy|[Hy [Hm|[Hm Hd]]]].
  - pose proof (DayFromYear_mono (Civil.year a + 1) (Civil.year b) ltac:(lia)) as Hmono.
    rewrite DayFromYear_next in Hmono. lia.
  - rewrite Hy in *. destruct (ofYear_below a Ha) as [_ Hbelow]. rewrite Hy in Hbelow.
    apply valid_bounds in Ha as (_ & Hma & _). apply valid_bounds in Hb as (_ & Hmb & Hdb & _).
    pose proof (daysOfMonths_mono (Civil.year b) (Z.to_nat (Civil.month a))
                  (Z.to_nat (Civil.month b - 1)) ltac:(lia)) as Hmono.
    unfold Day.ofYear at 2. lia.
  - unfold Day.ofYear. rewrite Hy, Hm. lia.
Qed.

Lemma epochDay_same a b :
  Civil.valid a = true -> Civil.valid b = true ->
  Civil.epochDay a = Civil.epochDay b -> Day.same a b.
Proof.
  intros Ha Hb E. unfold Day.same.
  pose proof (epochDay_lt a b Ha Hb) as Hab. pose proof (epochDay_lt b a Hb Ha) as Hba.
  destruct (Z.lt_trichotomy (Civil.year a) (Civil.year b)) as [Hy|[Hy|Hy]];
    [specialize (Hab ltac:(lia)); lia| |specialize (Hba ltac:(lia)); lia].
  destruct (Z.lt_trichotomy (Civil.month a) (Civil.month b)) as [Hm|[Hm|Hm]];
    [specialize (Hab ltac:(lia)); lia| |specialize (Hba ltac:(lia)); lia].
  destruct (Z.lt_trichotomy (Civil.day a) (Civil.day b)) as [Hd|[Hd|Hd]];
    [specialize (Hab ltac:(lia)); lia| |specialize (Hba ltac:(lia)); lia].
  done.
Qed.

Lemma same_epochDay a b : Day.same a b -> Civil.epochDay a = Civil.epochDay b.
Proof. intros (Hy & Hm & Hd). unfold Civil.epochDay. by rewrite Hy, Hm, Hd. Qed.

(** An instant lies in the day of its date. *)
Lemma instant_in_day t :
  Civil.valid t = true ->
  Day.midnight t <= Civil.instant t <= Day.midnight t + 86399000.
Proof.
  intros Hv. apply valid_bounds in Hv as (_ & _ & _ & Hh & Hmi & Hs).
  unfold Civil.instant, Day.midnight. lia.
Qed.

End DayFacts.

Module DayExtras.

Import Js Service Routes DateFacts DayFacts.

Local Open Scope Z_scope.

Section WithHost.
Context `{JsDate.Host}.

(** X14. Asking for one day, [startDate] and [endDate] both [YYYY-MM-DD]
    of a real date, builds the range from that day's midnight in UTC to its
    last millisecond.  An article ingested with a well-formed date is stored
    with an instant inside this range exactly when its date names the same
    day. *)
Theorem one_day_range_selects_the_articles_of_that_day
    (q : QueryParams) (r : Query) (d t : Civil.DateTime) :
  Civil.valid d = true -> Civil.valid t = true ->
  startDate q = Str (Day.text d) -> endDate q = Str (Day.text d) ->
  buildQuery q = inr r ->
  pubDate r = Some {| gte := Some (Some (Day.midnight d));
                      lte := Some (Some (Day.midnight d + 86399999)) |}
  /\ parsedDate (Str (Civil.format t)) = inr (FDate (Civil.instant t))
  /\ (Day.midnight d <= Civil.instant t <= Day.midnight d + 86399999 <-> Day.same d t).
Proof.
  intros Hd Ht Hs He Hr.
  apply QueryFacts.buildQuery_inr in Hr as (Hp & _). rewrite Hs, He in Hp.
  assert (Htruthy : truthy (Str (Day.text d)) = true) by reflexivity.
  split; [|split].
  - unfold dateRangeOf in Hp. rewrite Htruthy in Hp. cbn [orb] in Hp.
    unfold dateOf, JsDate.parse in Hp. cbn [ToString] in Hp.
    rewrite (parse_day_with_time d "00:00:00.000Z" 0 0 0 0 Hd eq_refl) in Hp by lia.
    rewrite (parse_day_with_time d "23:59:59.999Z" 23 59 59 999 Hd eq_refl) in Hp by lia.
    pose proof (timeValue_millis (Day.atTime d 0 0 0) 0
                  (atTime_valid d 0 0 0 Hd ltac:(lia) ltac:(lia) ltac:(lia)) ltac:(lia))
      as Elo.
    pose proof (timeValue_millis (Day.atTime d 23 59 59) 999
                  (atTime_valid d 23 59 59 Hd ltac:(lia) ltac:(lia) ltac:(lia)) ltac:(lia))
      as Ehi.
    rewrite !instant_atTime in *.
    cbn [Day.atTime Civil.year Civil.month Civil.day Civil.hour Civil.minute Civil.second]
      in Elo, Ehi.
    rewrite Elo, Ehi in Hp. injection Hp as <-. do 4 f_equal; lia.
  - by apply parsedDate_format.
  - pose proof (instant_in_day t Ht) as Hin. unfold Day.midnight in *. split.
    + intros Hrange. apply epochDay_same; [exact Hd|exact Ht|]. lia.
    + intros Hsame. rewrite (same_epochDay _ _ Hsame). lia.
Qed.

End WithHost.

(** At a concrete input: the articles of 2026-02-20. *)
Lemma one_day_witness :
  Day.midnight (Civil.mkDateTime 2026 2 20 0 0 0) <= 1771609500000
    <= Day.midnight (Civil.mkDateTime 2026 2 20 0 0 0) + 86399999.
Proof.
  assert (Hr : @buildQuery Scenario.strictHost
                 (mkQueryParams (Str "2026-02-20") (Str "2026-02-20") Undefined Undefined
                    Undefined Undefined Undefined Undefined)
               = inr (mkQuery (Some {| gte := Some (Some 1771545600000);
                                       lte := Some (Some 1771631999999) |})
                        None None None None None None))
    by (vm_compute; reflexivity).
  assert (Hsame : Day.same (Civil.mkDateTime 2026 2 20 0 0 0)
                    (Civil.mkDateTime 2026 2 20 17 45 0)).
  { repeat split. }
  assert (Hd : Civil.valid (Civil.mkDateTime 2026 2 20 0 0 0) = true) by reflexivity.
  assert (Ht : Civil.valid (Civil.mkDateTime 2026 2 20 17 45 0) = true) by reflexivity.
  assert (Hday : Str "2026-02-20" = Str (Day.text (Civil.mkDateTime 2026 2 20 0 0 0)))
    by reflexivity.
  exact (proj2 (proj2 (proj2 (@one_day_range_selects_the_articles_of_that_day
           Scenario.strictHost
           (mkQueryParams (Str "2026-02-20") (Str "2026-02-20") Undefined Undefined
              Undefined Undefined Undefined Undefined)
           _ _ _ Hd Ht Hday Hday Hr))) Hsame).
Defined.

End DayExtras.

(** ** The handlers and the error middleware *)

Module HandlerFacts.

Import Js Service JsNumber Routes Handlers.

(** Induction on a value and the values inside it. *)
Lemma Value_nested_ind (P : Value -> Prop) :
  P Undefined -> P Null -> (forall b, P (Bool b)) -> (forall n, P (Num n)) ->
  (forall s, P (Str s)) ->
  (forall items, Forall P items -> P (Arr items)) ->
  (forall fields, Forall (fun kv => P (snd kv)) fields -> P (Obj fields)) ->
  (forall name arity, P (Native name arity)) ->
  forall v, P v.
Proof.
  intros HU HN HB HNum HS HA HO HF. fix IH 1.
  intros [| |b|n|s|items|fields|name arity];
    [exact HU|exact HN|apply HB|apply HNum|apply HS| | |apply HF].
  - apply HA. induction items as [|x items IHitems]; constructor; [apply IH|exact IHitems].
  - apply HO. induction fields as [|[k x] fields IHfields]; constructor;
      [apply IH|exact IHfields].
Qed.

(** The only error of a conversion to a string. *)
Lemma ToString_inl v : forall e, ToString v = inl e -> e = cannotConvert.
Proof.
  induction v as [| |b|n|s|items IH|fields _|name arity] using Value_nested_ind;
    intros e; cbn [ToString]; try done.
  - by destruct b.
  - induction IH as [|x items Hx _ IHitems]; [done|]. cbn [List.map joinTexts].
    assert (Hel : forall e', match x with
                             | Undefined | Null => inr EmptyString
                             | _ => ToString x
                             end = inl e' -> e' = cannotConvert).
    { intros e'. destruct x; try done; apply Hx. }
    destruct (List.map _ items) as [|y texts] eqn:Emap; [apply Hel|].
    destruct (match x with Undefined | Null => inr EmptyString | _ => ToString x end)
      as [e1|first] eqn:E1; [intros [= <-]; by apply Hel|].
    destruct (joinTexts (y :: texts)) as [e2|others] eqn:E2; [|done].
    intros [= <-]. by apply IHitems.
  - destruct (assoc fields "toString"); [by intros [= <-]|done].
Qed.

Lemma pagingOf_inl page limit e : pagingOf page limit = inl e -> e = cannotConvert.
Proof.
  unfold pagingOf, parseInt.
  destruct (ToString (orDefault page _)) as [e1|text1] eqn:E1;
    [intros [= <-]; by eapply ToString_inl|].
  destruct (ToString (orDefault limit _)) as [e2|text2] eqn:E2; [|done].
  intros [= <-]. by eapply ToString_inl.
Qed.

Lemma sortOptionsOf_inl sortBy sortOrder e :
  sortOptionsOf sortBy sortOrder = inl e -> e = cannotConvert.
Proof.
  unfold sortOptionsOf. destruct (ToString _) as [e1|key] eqn:E1; [|done].
  intros [= <-]. by eapply ToString_inl.
Qed.

Section WithHost.
Context `{JsDate.Host}.

(** The errors of [buildQuery]: a conversion that throws, or a call of
    [trim] or [split] on a value that has none. *)
Lemma buildQuery_inl q e :
  buildQuery q = inl e ->
  response e = None /\ JsString.nonEmpty (message e) = true.
Proof.
  assert (Ht : forall n v e', trimmedOf n v = inl e' ->
            e' = TypeError (n +:+ ".trim is not a function")).
  { intros n v e'. unfold trimmedOf. destruct (truthy v); [|done].
    destruct v; congruence. }
  assert (Hl : forall n v e', listOf n v = inl e' ->
            e' = TypeError (n +:+ ".split is not a function")).
  { intros n v e'. unfold listOf. destruct (truthy v); [|done].
    destruct v; congruence. }
  unfold buildQuery.
  destruct (dateRangeOf _ _) as [e0|range] eqn:E0.
  { intros [= <-].
    destruct (QueryFacts.dateRangeOf_inl _ _ _ E0) as [[_ E]|[_ E]];
      by rewrite (ToString_inl _ _ E). }
  destruct (trimmedOf "author" _) as [e1|a] eqn:E1;
    [intros [= <-]; by rewrite (Ht _ _ _ E1)|].
  destruct (listOf "language" _) as [e2|l] eqn:E2;
    [intros [= <-]; by rewrite (Hl _ _ _ E2)|].
  destruct (listOf "country" _) as [e3|c] eqn:E3;
    [intros [= <-]; by rewrite (Hl _ _ _ E3)|].
  destruct (listOf "category" _) as [e4|g] eqn:E4;
    [intros [= <-]; by rewrite (Hl _ _ _ E4)|].
  destruct (listOf "datatype" _) as [e5|d] eqn:E5;
    [intros [= <-]; by rewrite (Hl _ _ _ E5)|].
  destruct (trimmedOf "search" _) as [e6|t] eqn:E6;
    [intros [= <-]; by rewrite (Ht _ _ _ E6)|].
  done.
Qed.

(** Whatever the list route gives to [next] is an error without status
    and with a message. *)
Lemma listRequest_rejected req e :
  listRequest req = Rejected e ->
  response e = None /\ JsString.nonEmpty (message e) = true.
Proof.
  unfold listRequest.
  destruct (pagingOf _ _) as [e1|paging] eqn:E1;
    [intros [= <-]; by rewrite (pagingOf_inl _ _ _ E1)|].
  destruct (buildQuery _) as [e2|query] eqn:E2;
    [intros [= <-]; by eapply buildQuery_inl|].
  destruct (sortOptionsOf _ _) as [e3|sort] eqn:E3; [|done].
  intros [= <-]. by rewrite (sortOptionsOf_inl _ _ _ E3).
Qed.

End WithHost.

Lemma numberOr_nonzero a b : b <> 0%Z -> Middleware.numberOr a b <> 0%Z.
Proof.
  intros Hb. unfold Middleware.numberOr. destruct a as [n|]; [|exact Hb].
  destruct (Z.eqb_spec n 0); [exact Hb|done].
Qed.

End HandlerFacts.

Module HandlerExtras.

Import Js Service Observe Routes Handlers Middleware HandlerFacts.

Local Open Scope Z_scope.

Section WithWorld.
Context `{JsDate.Host} `{World}.

(** X15. [POST /ingest] while a run is in flight answers 409 at once: no
    request upstream, no write, nothing logged, the guard untouched.  With
    the guard free it runs the ingestion to its end and frees the guard
    again; it answers 200 with the totals when the run returns, and gives the
    run's error to the error middleware when it throws.  Without API key it
    still answers 200, ['Ingestion complete'], with no totals. *)
Theorem manual_ingestion_answers (env : Env) (w : world) :
  postIngest env true w
  = (true, (w, [], Some (Json 409 false "Ingestion already in progress" None)))
  /\ (exists reply,
        postIngest env false w
        = (false, (worldOf (ingestNews env w), eventsOf (ingestNews env w), Some reply))
        /\ match outcomeOf (ingestNews env w) with
           | Ok result => reply = Json 200 true "Ingestion complete" result
           | Throw e =>
               (message e <> "Ingestion already in progress"%string -> reply = Next e)
               /\ (message e = "Ingestion already in progress"%string ->
                   reply = Json 409 false (message e) None)
           | Unfinished => False
           end)
  /\ (NEWSDATA_API_KEY env = None \/ NEWSDATA_API_KEY env = Some EmptyString ->
      postIngest env false w
      = (false, (w, [EvLog error KeyNotSet],
                 Some (Json 200 true "Ingestion complete" None)))).
Proof.
  split; [reflexivity|]. split.
  - pose proof (IngestFacts.ingestNews_finishes env w) as Hfin.
    unfold postIngest, Cron.triggerManualIngestion.
    destruct (ingestNews env w) as [[w1 evs] [result|e|]];
      cbn [worldOf eventsOf outcomeOf fst snd] in *; [| |done].
    + eexists. split; reflexivity.
    + destruct (String.eqb_spec (message e) "Ingestion already in progress") as [E|E];
        eexists; (split; [reflexivity|]); split; done.
  - intros Hkey. unfold postIngest, Cron.triggerManualIngestion.
    by rewrite (IngestFacts.ingestNews_no_key env w Hkey).
Qed.

End WithWorld.

Section WithHost.
Context `{JsDate.Host}.

(** X16. A list request with a parameter of the wrong shape (an array as
    [author] or [search], an object as a list parameter) never reaches the
    store: the route gives an error to the error middleware, the error of
    [buildQuery] when [page] and [limit] could be read, and the middleware
    answers 500 and logs at level [error].  In production the answer reads
    ['Internal Server Error'] and holds no stack; elsewhere it holds the
    error's own message and stack. *)
Theorem misshaped_list_request_answers_500
    (req : ListQuery) (e : Error) (NODE_ENV : option string) (rq : Request)
    (trace : option string) :
  buildQuery (params req) = inl e ->
  exists thrown,
    listRequest req = Rejected thrown
    /\ (forall paging, pagingOf (page req) (limit req) = inr paging -> thrown = e)
    /\ code (snd (errorHandler NODE_ENV (plain thrown trace) rq)) = 500
    /\ level (fst (errorHandler NODE_ENV (plain thrown trace) rq)) = error
    /\ loggedText (fst (errorHandler NODE_ENV (plain thrown trace) rq)) = message thrown
    /\ (isProduction NODE_ENV = true ->
        shown (snd (errorHandler NODE_ENV (plain thrown trace) rq))
        = "Internal Server Error"%string
        /\ shownStack (snd (errorHandler NODE_ENV (plain thrown trace) rq)) = None)
    /\ (isProduction NODE_ENV = false ->
        shown (snd (errorHandler NODE_ENV (plain thrown trace) rq)) = message thrown
        /\ shownStack (snd (errorHandler NODE_ENV (plain thrown trace) rq)) = trace).
Proof.
  intros He.
  assert (Hrej : exists thrown,
            listRequest req = Rejected thrown
            /\ forall paging, pagingOf (page req) (limit req) = inr paging -> thrown = e).
  { unfold listRequest. destruct (pagingOf _ _) as [e1|paging]; [by exists e1|].
    rewrite He. exists e. by split. }
  destruct Hrej as (thrown & Hrej & Hsame). exists thrown.
  destruct (listRequest_rejected _ _ Hrej) as [_ Hmsg].
  split; [exact Hrej|]. split; [exact Hsame|].
  unfold errorHandler, plain. cbn [fst snd code level loggedText shown shownStack
    status statusCode text stack numberOr]. rewrite Hmsg.
  split; [reflexivity|]. split; [reflexivity|]. split; [reflexivity|].
  split; intros ->; split; reflexivity.
Qed.

End WithHost.

(** At a concrete input: [?author=a&author=b] in production. *)
Lemma misshaped_request_witness :
  exists thrown,
    @listRequest Scenario.strictHost
      (mkListQuery Undefined Undefined Undefined Undefined
         (mkQueryParams Undefined Undefined (Arr [Str "a"; Str "b"]) Undefined
            Undefined Undefined Undefined Undefined))
    = Rejected thrown
    /\ code (snd (errorHandler (Some "production"%string) (plain thrown None)
                    (mkRequest "GET" "/api/news?author=a&author=b"))) = 500.
Proof.
  assert (He : @buildQuery Scenario.strictHost
                 (mkQueryParams Undefined Undefined (Arr [Str "a"; Str "b"]) Undefined
                    Undefined Undefined Undefined Undefined)
               = inl (TypeError "author.trim is not a function"))
    by (vm_compute; reflexivity).
  destruct (@misshaped_list_request_answers_500 Scenario.strictHost
           (mkListQuery Undefined Undefined Undefined Undefined
              (mkQueryParams Undefined Undefined (Arr [Str "a"; Str "b"]) Undefined
                 Undefined Undefined Undefined Undefined))
           _ (Some "production"%string)
           (mkRequest "GET" "/api/news?author=a&author=b") None He)
    as (thrown & Hrej & _ & Hcode & _).
  exists thrown. split; [exact Hrej|exact Hcode].
Defined.

(** X17. The error middleware never answers with status 0: it takes
    [err.status], else [err.statusCode], else 500, skipping an absent or zero
    one.  It logs at level [error] exactly for a status of 500 or more.  The
    message it sends is never empty.  In production the stack is never sent,
    and the message is replaced only for status 500: an error with another
    status, 502 or 503 included, is sent with its own message.  An unknown
    route is answered 404 with its method and URL in the message, in every
    environment. *)
Theorem error_answers_by_status
    (NODE_ENV : option string) (err : Raised) (rq : Request) :
  code (snd (errorHandler NODE_ENV err rq)) <> 0
  /\ (forall n, status err = Some n -> n <> 0 -> code (snd (errorHandler NODE_ENV err rq)) = n)
  /\ (forall n, (status err = None \/ status err = Some 0) -> statusCode err = Some n ->
        n <> 0 -> code (snd (errorHandler NODE_ENV err rq)) = n)
  /\ (level (fst (errorHandler NODE_ENV err rq)) = error
      <-> 500 <= code (snd (errorHandler NODE_ENV err rq)))
  /\ shown (snd (errorHandler NODE_ENV err rq)) <> EmptyString
  /\ (isProduction NODE_ENV = true ->
      shownStack (snd (errorHandler NODE_ENV err rq)) = None)
  /\ (code (snd (errorHandler NODE_ENV err rq)) <> 500 -> text err <> EmptyString ->
      shown (snd (errorHandler NODE_ENV err rq)) = text err)
  /\ (forall trace,
        code (snd (errorHandler NODE_ENV (notFound rq trace) rq)) = 404
        /\ level (fst (errorHandler NODE_ENV (notFound rq trace) rq)) = warn
        /\ shown (snd (errorHandler NODE_ENV (notFound rq trace) rq))
           = ("Route not found: " +:+ method rq +:+ " " +:+ originalUrl rq)%string).
Proof.
  unfold errorHandler. cbn [fst snd code level shown shownStack].
  set (c := numberOr (status err) (numberOr (statusCode err) 500)).
  assert (Hc : c <> 0) by (apply numberOr_nonzero, numberOr_nonzero; lia).
  split; [exact Hc|]. split; [|split; [|split; [|split; [|split; [|split]]]]].
  - intros n Hs Hn. subst c. rewrite Hs. cbn [numberOr].
    by destruct (Z.eqb_spec n 0).
  - intros n Hs Hsc Hn. subst c. rewrite Hsc.
    destruct Hs as [-> | ->]; cbn [numberOr Z.eqb]; by destruct (Z.eqb_spec n 0).
  - destruct (Z.leb_spec 500 c); split; try done; lia.
  - destruct (isProduction NODE_ENV && (c =? 500)); [done|].
    by destruct (text err).
  - by intros ->.
  - intros Hne Ht. destruct (Z.eqb_spec c 500) as [E|_]; [done|].
    rewrite andb_false_r. by destruct (text err).
  - intros trace. unfold notFound. cbn [status statusCode text numberOr Z.eqb].
    rewrite andb_false_r. done.
Qed.

End HandlerExtras.

(** ** The CORS policy *)

Module CorsExtras.

Import JsString Text Cors.

Lemma includes_elem l o : includes l o = true <-> o ∈ l.
Proof.
  unfold includes. rewrite List.existsb_exists. split.
  - intros (x & Hx & E). apply String.eqb_eq in E as ->. by apply list_elem_of_In.
  - intros Ho. exists o. split; [by apply list_elem_of_In|apply String.eqb_refl].
Qed.

(** X18. Origins are matched exactly against the configured entries.  When
    [ALLOWED_ORIGINS] lists origins that are not empty and hold no comma or
    white space around them, an origin is allowed exactly when it is one of
    them, or is absent or empty.  Whatever is configured, a non-empty origin
    that is allowed holds no comma and no white space at either end. *)
Theorem origins_are_matched_exactly
    (origins : list string) (configured : option string) (o : string) :
  origins <> [] -> Forall cleanName origins ->
  (originAllowed (Some (join "," origins)) (Some o) = true
   <-> o = EmptyString \/ o ∈ origins)
  /\ originAllowed configured None = true
  /\ originAllowed configured (Some EmptyString) = true
  /\ (o <> EmptyString -> originAllowed configured (Some o) = true ->
      trim o = o /\ hasChar "," o = false).
Proof.
  intros Hne Hall.
  assert (Hl : allowedOrigins (Some (join "," origins)) = origins).
  { unfold allowedOrigins, Batching.envOr.
    assert (Hj : nonEmpty (join "," origins) = true).
    { apply QueryFacts.join_nonEmpty; [exact Hne|].
      eapply Forall_impl; [exact Hall|]. intros c (Hc & Hcomma & _). by split. }
    rewrite Hj, TextFacts.split_join; [|exact Hne|].
    - clear Hne Hj. induction Hall as [|c l (_ & _ & Hc) _ IH]; [done|].
      cbn [List.map]. by rewrite Hc, IH.
    - eapply Forall_impl; [exact Hall|]. by intros c (_ & Hc & _). }
  split; [|split; [reflexivity|split; [reflexivity|]]].
  - unfold originAllowed. rewrite Hl. destruct o as [|a o]; cbn [nonEmpty negb orb].
    + split; [by left|done].
    + rewrite includes_elem. split; [by right|]. by intros [|].
  - intros Ho. unfold originAllowed. destruct o as [|a o]; [done|].
    cbn [nonEmpty negb orb]. rewrite includes_elem. unfold allowedOrigins.
    intros Hin. apply list_elem_of_In, List.in_map_iff in Hin as (piece & <- & Hp).
    split; [apply TextFacts.trim_idem|]. apply TextFacts.hasChar_trim.
    pose proof (TextFacts.split_pieces ","
                  (Batching.envOr configured "http://localhost:3000,http://localhost:5173"))
      as Hpieces.
    rewrite Forall_forall in Hpieces. by apply Hpieces, list_elem_of_In.
Qed.

(** At a concrete input: two configured origins. *)
Lemma origins_witness :
  originAllowed (Some "https://a.example,https://b.example"%string)
    (Some "https://b.example"%string) = true.
Proof.
  assert (Hne : ["https://a.example"; "https://b.example"]%string <> []) by discriminate.
  assert (Hall : Forall cleanName ["https://a.example"; "https://b.example"]%string).
  { repeat constructor; discriminate. }
  assert (Hin : "https://b.example"%string = EmptyString
                \/ "https://b.example"%string ∈ ["https://a.example"; "https://b.example"]%string).
  { right. apply list_elem_of_further, list_elem_of_here. }
  exact (proj2 (proj1 (origins_are_matched_exactly
           ["https://a.example"; "https://b.example"]%string None
           "https://b.example" Hne Hall)) Hin).
Defined.

End CorsExtras.

(** ** Starting the schedule *)

Module StartupExtras.

Import Js Service Startup.

Section WithWorld.
Context `{JsDate.Host} `{World}.

(** X19. A schedule that [cron.validate] refuses disables the job
    altogether: no task is scheduled with a default pattern and no run is
    launched on startup, also in production; the guard stays free and
    [stopCronJob] then does nothing.  With an accepted schedule the task is
    scheduled with it (the hourly pattern when [CRON_SCHEDULE] is unset or
    empty), and a run is launched at once, holding the guard so that a manual
    trigger is refused, exactly when [NODE_ENV] is ['production'] or
    [FETCH_ON_START] is ['true']. *)
Theorem startup_schedules_and_launches
    (validate : string -> bool) (env : CronEnv) (ingestEnv : Env) (w : world) :
  let schedule := Batching.envOr (CRON_SCHEDULE env) "0 */1 * * *" in
  let started := startCronJob validate env initial in
  let job := fst (fst started) in
  let launched := snd started in
  (validate schedule = false ->
     job = initial /\ launched = false
     /\ snd (fst started) = [(error, InvalidSchedule schedule)]
     /\ stopCronJob job = ([], false))
  /\ (validate schedule = true ->
        task job = Some schedule
        /\ (CRON_SCHEDULE env = None \/ CRON_SCHEDULE env = Some EmptyString ->
            schedule = "0 */1 * * *"%string)
        /\ (launched = true
            <-> NODE_ENV env = Some "production"%string
                \/ FETCH_ON_START env = Some "true"%string)
        /\ isRunning job = launched
        /\ Guard.isRunning (Guard.boot launched) = isRunning job
        /\ (launched = true ->
            Cron.triggerManualIngestion ingestEnv (isRunning job) w
            = (true, (w, [], Throw Cron.alreadyInProgress)))
        /\ snd (stopCronJob job) = true).
Proof.
  cbv zeta. unfold startCronJob. split; intros Hv; rewrite Hv; cbn [negb fst snd].
  - done.
  - cbn [task isRunning initial]. rewrite orb_false_r.
    split; [reflexivity|]. split.
    { intros [-> | ->]; reflexivity. }
    split.
    { rewrite orb_true_iff. unfold envIs.
      split; (intros [E|E]; [left|right]).
      - destruct (NODE_ENV env) as [v|]; [|done]. by apply String.eqb_eq in E as ->.
      - destruct (FETCH_ON_START env) as [v|]; [|done]. by apply String.eqb_eq in E as ->.
      - by rewrite E.
      - by rewrite E. }
    split; [reflexivity|]. split.
    { by destruct (envIs (NODE_ENV env) "production" || envIs (FETCH_ON_START env) "true"). }
    split; [|reflexivity].
    intros ->. reflexivity.
Qed.

End WithWorld.

End StartupExtras.
